(** * GentlePage: the HTML cleaner (Backend/Scraper.py) and the style
      profiler (Backend/StyleFinder.py), embedded in Rocq.

    Characters are code points below 256 (Latin-1), held in [ascii]; a Python
    [str] is a [string].  The BeautifulSoup tree is a rose tree whose elements
    carry an object identity, so that a [find_all] result can be walked while
    the tree is being mutated, as the Python loops do. *)

From Stdlib Require Import List String Ascii Arith Bool Lia PeanoNat.
Import ListNotations.
Open Scope string_scope.
Open Scope nat_scope.
Open Scope list_scope.

(** The first element of [l] on which [f] succeeds, with its result. *)
Section FirstSome.
Context {A B : Type} (f : A -> option B).
Fixpoint first_some (l : list A) : option B :=
  match l with
  | [] => None
  | x :: l' => match f x with Some y => Some y | None => first_some l' end
  end.
End FirstSome.

(* ================================================================== *)
(** * Python [str] built-ins *)
(* ================================================================== *)

Module Py.

(** [str.isspace] on one code point (also what [\s] and [str.strip()] use):
    TAB..CR, FS..US and SPACE, NEL, NBSP. *)
Definition isspace (c : ascii) : bool :=
  let n := nat_of_ascii c in
  ((9 <=? n) && (n <=? 13)) || ((28 <=? n) && (n <=? 32))
  || (n =? 133) || (n =? 160).

(** Word characters of [\w] / [\b] for a [str] pattern: alphanumerics and
    [_]; in Latin-1 that adds the letters and digits above 127. *)
Definition isword (c : ascii) : bool :=
  let n := nat_of_ascii c in
  ((48 <=? n) && (n <=? 57)) || ((65 <=? n) && (n <=? 90)) || (n =? 95)
  || ((97 <=? n) && (n <=? 122))
  || (n =? 170) || (n =? 178) || (n =? 179) || (n =? 181) || (n =? 185)
  || (n =? 186) || ((188 <=? n) && (n <=? 190))
  || ((192 <=? n) && (n <=? 214)) || ((216 <=? n) && (n <=? 246))
  || (248 <=? n).

Definition lower_char (c : ascii) : ascii :=
  let n := nat_of_ascii c in
  if ((65 <=? n) && (n <=? 90))
     || ((192 <=? n) && (n <=? 222) && negb (n =? 215))
  then ascii_of_nat (n + 32) else c.

(** Upper case, where the result stays below 256. *)
Definition upper_char (c : ascii) : ascii :=
  let n := nat_of_ascii c in
  if ((97 <=? n) && (n <=? 122))
     || ((224 <=? n) && (n <=? 254) && negb (n =? 247))
  then ascii_of_nat (n - 32) else c.

(** [s.lower()] *)
Fixpoint lower (s : string) : string :=
  match s with
  | EmptyString => EmptyString
  | String c s' => String (lower_char c) (lower s')
  end.

(** [s.startswith(p)] *)
Fixpoint startswith (p s : string) : bool :=
  match p, s with
  | EmptyString, _ => true
  | String _ _, EmptyString => false
  | String a p', String b s' => Ascii.eqb a b && startswith p' s'
  end.

(** [needle in hay] for two strings. *)
Fixpoint contains (needle hay : string) : bool :=
  startswith needle hay
  || match hay with
     | EmptyString => false
     | String _ hay' => contains needle hay'
     end.

(** [x in [s1, s2, ...]] for a list of strings. *)
Definition mem (x : string) (l : list string) : bool :=
  existsb (String.eqb x) l.

(** [any(frag in s for frag in frags)] *)
Definition any_in (frags : list string) (s : string) : bool :=
  existsb (fun frag => contains frag s) frags.

Fixpoint lstrip_by (p : ascii -> bool) (s : string) : string :=
  match s with
  | EmptyString => EmptyString
  | String c s' => if p c then lstrip_by p s' else s
  end.

Fixpoint rstrip_by (p : ascii -> bool) (s : string) : string :=
  match s with
  | EmptyString => EmptyString
  | String c s' =>
      match rstrip_by p s' with
      | EmptyString => if p c then EmptyString else String c EmptyString
      | r => String c r
      end
  end.

(** [s.strip()] and [s.strip(ch)] for a one-character [ch]. *)
Definition strip_by (p : ascii -> bool) (s : string) : string :=
  rstrip_by p (lstrip_by p s).
Definition strip (s : string) : string := strip_by isspace s.
Definition strip_char (ch : ascii) (s : string) : string :=
  strip_by (Ascii.eqb ch) s.

(** [s.split(sep)] for a one-character separator: empty pieces are kept. *)
Fixpoint split (sep : ascii) (s : string) : list string :=
  match s with
  | EmptyString => [EmptyString]
  | String c s' =>
      if Ascii.eqb c sep then EmptyString :: split sep s'
      else match split sep s' with
           | h :: t => String c h :: t
           | [] => [String c EmptyString]
           end
  end.

(** [sep.join(l)] *)
Fixpoint join (sep : string) (l : list string) : string :=
  match l with
  | [] => EmptyString
  | [x] => x
  | x :: l' => x ++ sep ++ join sep l'
  end.

(** The whitespace-separated tokens of a string ([\S+] matches): how the
    tree builder stores a multi-valued attribute such as [class]. *)
Fixpoint tokens_aux (cur : string) (s : string) : list string :=
  let flush := match cur with EmptyString => [] | _ => [cur] end in
  match s with
  | EmptyString => flush
  | String c s' =>
      if isspace c then flush ++ tokens_aux EmptyString s'
      else tokens_aux (cur ++ String c EmptyString) s'
  end.
Definition tokens (s : string) : list string := tokens_aux EmptyString s.

Fixpoint take (n : nat) (s : string) : string :=
  match n, s with
  | S n', String c s' => String c (take n' s')
  | _, _ => EmptyString
  end.

Fixpoint drop (n : nat) (s : string) : string :=
  match n, s with
  | S n', String _ s' => drop n' s'
  | _, _ => s
  end.

End Py.

(* ================================================================== *)
(** * The fragment of Python's [re] the two programs use *)
(* ================================================================== *)

Module Re.

(** A character class: a set, possibly negated ([[^...]]). *)
Record cls := Cls { negated : bool; member : ascii -> bool }.

(** The pieces the source patterns are made of.  Repetition is greedy and
    applies to a character class, which is all the patterns need:
    [x{lo,hi}], [x+] = [{1,}], [x*] = [{0,}], [x?] = [{0,1}]. *)
Inductive item :=
| Lit (w : string)
| Alt (ws : list string)
| Rep (c : cls) (lo : nat) (hi : option nat)
| Bnd.

(** A pattern is a sequence of items; the flag marks a capture group
    around the item. *)
Definition regex := list (bool * item).

Definition plain (i : item) : bool * item := (false, i).
Definition group (i : item) : bool * item := (true, i).

Definition chr_eq (ic : bool) (a b : ascii) : bool :=
  if ic then Ascii.eqb (Py.lower_char a) (Py.lower_char b) else Ascii.eqb a b.

Definition cls_match (ic : bool) (k : cls) (c : ascii) : bool :=
  xorb (negated k)
       (member k c
        || (ic && (member k (Py.lower_char c) || member k (Py.upper_char c)))).

(** Does the literal [w] match at the head of [s]? *)
Fixpoint lit_match (ic : bool) (w s : string) : bool :=
  match w, s with
  | EmptyString, _ => true
  | String _ _, EmptyString => false
  | String a w', String b s' => chr_eq ic a b && lit_match ic w' s'
  end.

(** Length of the longest run of class characters at the head of [s],
    capped by [hi]. *)
Fixpoint run (ic : bool) (k : cls) (hi : option nat) (s : string) : nat :=
  match hi with
  | Some 0 => 0
  | _ =>
      match s with
      | EmptyString => 0
      | String c s' =>
          if cls_match ic k c
          then S (run ic k (option_map Nat.pred hi) s')
          else 0
      end
  end.

(** [n, n-1, ..., lo]: the lengths a greedy repetition tries, in order. *)
Fixpoint down_to (lo n : nat) : list nat :=
  if n <? lo then []
  else match n with
       | 0 => [0]
       | S n' => n :: down_to lo n'
       end.

Definition head_char (s : string) : option ascii :=
  match s with EmptyString => None | String c _ => Some c end.

Definition is_word (o : option ascii) : bool :=
  match o with Some c => Py.isword c | None => false end.

(** The prefixes of [s] an item can consume, in the order the
    backtracking matcher tries them. *)
Definition candidates (ic : bool) (i : item) (prev : option ascii)
    (s : string) : list string :=
  match i with
  | Lit w => if lit_match ic w s then [Py.take (String.length w) s] else []
  | Alt ws =>
      flat_map (fun w => if lit_match ic w s
                         then [Py.take (String.length w) s] else []) ws
  | Rep k lo hi => map (fun n => Py.take n s) (down_to lo (run ic k hi s))
  | Bnd => if xorb (is_word prev) (is_word (head_char s)) then [EmptyString] else []
  end.

Fixpoint last_char (w : string) (prev : option ascii) : option ascii :=
  match w with
  | EmptyString => prev
  | String c w' => last_char w' (Some c)
  end.

(** Match the pattern at the head of [s], [prev] being the character just
    before it.  Returns the captured groups and the unconsumed rest. *)
Fixpoint match_here (ic : bool) (r : regex) (prev : option ascii) (s : string)
  : option (list string * string) :=
  match r with
  | [] => Some ([], s)
  | (cap, i) :: r' =>
      first_some
        (fun w =>
           match match_here ic r' (last_char w prev) (Py.drop (String.length w) s) with
           | Some (caps, rest) => Some (if cap then w :: caps else caps, rest)
           | None => None
           end)
        (candidates ic i prev s)
  end.

(** One match object: the whole matched text and its groups. *)
Definition found := (string * list string)%type.

(** Scan left to right for non-overlapping matches.  [skip] counts the
    characters still covered by the previous match. *)
Fixpoint scan (ic : bool) (r : regex) (prev : option ascii) (s : string)
    (skip : nat) : list found :=
  match s with
  | EmptyString =>
      match skip, match_here ic r prev s with
      | 0, Some (caps, _) => [(EmptyString, caps)]
      | _, _ => []
      end
  | String c s' =>
      match skip with
      | S k => scan ic r (Some c) s' k
      | 0 =>
          match match_here ic r prev s with
          | Some (caps, rest) =>
              let len := String.length s - String.length rest in
              (Py.take len s, caps) :: scan ic r (Some c) s' (len - 1)
          | None => scan ic r (Some c) s' 0
          end
      end
  end.

Definition finditer (ic : bool) (r : regex) (s : string) : list found :=
  scan ic r None s 0.

(** [re.findall] for a pattern without groups: the matched texts. *)
Definition findall (ic : bool) (r : regex) (s : string) : list string :=
  map fst (finditer ic r s).

(** [re.findall] for a pattern with groups: the groups of each match. *)
Definition findall_groups (ic : bool) (r : regex) (s : string)
  : list (list string) :=
  map snd (finditer ic r s).

(** [re.search(...)] as a truth value. *)
Fixpoint search_from (ic : bool) (r : regex) (prev : option ascii) (s : string)
  : bool :=
  match match_here ic r prev s with
  | Some _ => true
  | None =>
      match s with
      | EmptyString => false
      | String c s' => search_from ic r (Some c) s'
      end
  end.
Definition search (ic : bool) (r : regex) (s : string) : bool :=
  search_from ic r None s.

(** Classes used by the source patterns. *)
Definition in_range (lo hi : nat) (c : ascii) : bool :=
  (lo <=? nat_of_ascii c) && (nat_of_ascii c <=? hi).

(** [[0-9a-fA-F]] *)
Definition hexdigit : cls :=
  Cls false (fun c => in_range 48 57 c || in_range 97 102 c || in_range 65 70 c).
(** [[a-z]] *)
Definition az : cls := Cls false (in_range 97 122).
(** [\s] *)
Definition space : cls := Cls false Py.isspace.
(** [[^c]] *)
Definition not_char (c : ascii) : cls := Cls true (Ascii.eqb c).
(** a single character, as in [a?] *)
Definition char (c : ascii) : cls := Cls false (Ascii.eqb c).

End Re.


(* ================================================================== *)
(** * Results and exceptions *)
(* ================================================================== *)

Inductive exn := FileNotFoundError | AttributeError | TypeError.

Inductive result (A : Type) :=
| Ok (a : A)
| Raise (e : exn).
Arguments Ok {A} a.
Arguments Raise {A} e.

Definition bind {A B : Type} (r : result A) (k : A -> result B) : result B :=
  match r with
  | Ok a => k a
  | Raise e => Raise e
  end.

Notation "x <- c ;; k" := (bind c (fun x => k))
  (at level 61, c at next level, right associativity).

(* ================================================================== *)
(** * The BeautifulSoup tree *)
(* ================================================================== *)

Module Bs.

(** A tag's name and its attribute dictionary (keys are distinct in a
    parsed tag).  Attribute values are the source text; the builder's view
    of a multi-valued attribute ([class], and [rel] on [link]) is its list
    of whitespace-separated tokens. *)
Record tag := Tag { name : string; attrs : list (string * string) }.

(** A node is a string or an element.  [id] is the identity of the Python
    [Tag] object: a loop variable of a [find_all] result holds it. *)
#[local] Unset Elimination Schemes.
Inductive node :=
| Text (s : string)
| Element (id : nat) (t : tag) (contents : list node).
#[local] Set Elimination Schemes.

(** The contents of the [BeautifulSoup] object, the root of the tree. *)
Definition soup := list node.

(** The root object itself: its name is [[document]] and it has no
    attributes. *)
Definition document : tag := Tag "[document]" [].

(** ** Attribute access *)

Fixpoint assoc (k : string) (l : list (string * string)) : option string :=
  match l with
  | [] => None
  | (k', v) :: l' => if String.eqb k' k then Some v else assoc k l'
  end.

(** [tag.get(k)] *)
Definition get (t : tag) (k : string) : option string := assoc k (attrs t).

(** [tag.get(k, default)] *)
Definition get_or (t : tag) (k : string) (default : string) : string :=
  match get t k with Some v => v | None => default end.

(** [tag.get(k)] for a multi-valued attribute: a list of tokens. *)
Definition get_list (t : tag) (k : string) : option (list string) :=
  option_map Py.tokens (get t k).

(** [tag.has_attr(k)] *)
Definition has_attr (t : tag) (k : string) : bool :=
  match get t k with Some _ => true | None => false end.

(** [del tag[k]] *)
Definition del_attr (k : string) (t : tag) : tag :=
  Tag (name t) (filter (fun kv => negb (String.eqb (fst kv) k)) (attrs t)).

(** Truth value of an optional string ([None] and [''] are false). *)
Definition truthy (o : option string) : bool :=
  match o with
  | Some (String _ _) => true
  | _ => false
  end.

(** ** Traversal *)

(** The elements of a subtree in document order, the root first. *)
Fixpoint tags_of (n : node) : list (nat * tag) :=
  match n with
  | Text _ => []
  | Element i t cs => (i, t) :: flat_map tags_of cs
  end.

(** [tag.descendants], restricted to elements. *)
Definition descendants (cs : list node) : list (nat * tag) :=
  flat_map tags_of cs.

Definition ids (cs : list node) : list nat := map fst (descendants cs).

(** [find_all] with a test on the tag: the matching elements, in document
    order, as a list built before the caller's loop starts. *)
Definition find_all (p : tag -> bool) (cs : list node) : list nat :=
  map fst (filter (fun it => p (snd it)) (descendants cs)).

(** The same, giving each matching element with its tag and contents,
    for code that only reads the tree. *)
Fixpoint elements_of (n : node) : list (tag * list node) :=
  match n with
  | Text _ => []
  | Element _ t cs => (t, cs) :: flat_map elements_of cs
  end.
Definition select (p : tag -> bool) (cs : list node) : list (tag * list node) :=
  filter (fun el => p (fst el)) (flat_map elements_of cs).

(** [tag.string]: the single string below a chain of only children. *)
Fixpoint node_string (n : node) : option string :=
  match n with
  | Text s => Some s
  | Element _ _ [c] => node_string c
  | Element _ _ _ => None
  end.
Definition string_of (cs : list node) : option string :=
  match cs with
  | [c] => node_string c
  | _ => None
  end.

(** [find]: the first match, or [None]. *)
Definition find (p : tag -> bool) (cs : list node) : option nat :=
  hd_error (find_all p cs).

(** The strings below a node, in document order.  The model holds the
    strings that [get_text] returns; comments and the like are not part
    of it. *)
Fixpoint strings (n : node) : list string :=
  match n with
  | Text s => [s]
  | Element _ _ cs => flat_map strings cs
  end.

(** [get_text()] *)
Definition get_text (cs : list node) : string :=
  Py.join "" (flat_map strings cs).

(** [get_text(strip=True)]: every string is stripped on its own and the
    empty ones are dropped before joining. *)
Definition stripped_strings (cs : list node) : list string :=
  filter (fun s => negb (String.eqb s "")) (map Py.strip (flat_map strings cs)).
Definition get_text_strip (cs : list node) : string :=
  Py.join "" (stripped_strings cs).

(** ** Where an element is *)

(** The element with identity [e] inside [n], with its ancestors inside
    [n], the parent first. *)
Fixpoint locate_in (e : nat) (n : node) : option (list (nat * tag) * node) :=
  match n with
  | Text _ => None
  | Element i t cs =>
      if i =? e then Some ([], n)
      else match first_some (locate_in e) cs with
           | Some (anc, x) => Some (anc ++ [(i, t)], x)
           | None => None
           end
  end.

(** [None] when the object is no longer in the tree: every removal in
    this program is a [decompose], so such an object has been wiped.  A
    wiped [Tag] has lost its attributes: reading [name] or [parent], or
    searching below it, falls through to [find] on no contents and gives
    [None]; [get] and [has_attr] reach for the missing dictionary and
    raise. *)
Definition locate (s : soup) (e : nat) : option (list (nat * tag) * node) :=
  first_some (locate_in e) s.

Definition attached (s : soup) (e : nat) : bool :=
  match locate s e with Some _ => true | None => false end.

(** [element.name]; a decomposed object answers [None]. *)
Definition name_of (s : soup) (e : nat) : option string :=
  match locate s e with
  | Some (_, Element _ t _) => Some (name t)
  | _ => None
  end.

(** The tag of a live element. *)
Definition tag_of (s : soup) (e : nat) : option tag :=
  match locate s e with
  | Some (_, Element _ t _) => Some t
  | _ => None
  end.

(** The contents of an element; a decomposed object has none. *)
Definition contents_of (s : soup) (e : nat) : list node :=
  match locate s e with
  | Some (_, Element _ _ cs) => cs
  | _ => []
  end.

(** The chain [element.parent], [.parent.parent], ... up to and including
    the root object; empty for a decomposed object, whose [parent] is
    [None]. *)
Definition parents (s : soup) (e : nat) : list tag :=
  match locate s e with
  | Some (anc, _) => map snd anc ++ [document]
  | None => []
  end.

(** [element.get(k)] and [element.get(k, default)] through a handle.  On
    a decomposed object the attribute dictionary is gone and the call
    raises [AttributeError]. *)
Definition get_of (s : soup) (e : nat) (k : string) : result (option string) :=
  match tag_of s e with
  | Some t => Ok (get t k)
  | None => Raise AttributeError
  end.

Definition get_or_of (s : soup) (e : nat) (k default : string) : result string :=
  match tag_of s e with
  | Some t => Ok (get_or t k default)
  | None => Raise AttributeError
  end.

(** ** Mutation *)

(** Remove the element [e], with everything below it, from a subtree. *)
Fixpoint prune (e : nat) (n : node) : list node :=
  match n with
  | Text _ => [n]
  | Element i t cs =>
      if i =? e then [] else [Element i t (flat_map (prune e) cs)]
  end.

(** [element.decompose()].  Decomposing an object that is already gone
    changes nothing. *)
Definition decompose (e : nat) (s : soup) : soup := flat_map (prune e) s.

(** Rewrite the tags of a subtree in place. *)
Fixpoint retag (f : nat -> tag -> tag) (n : node) : node :=
  match n with
  | Text _ => n
  | Element i t cs => Element i (f i t) (map (retag f) cs)
  end.

(** Replace the attribute dictionary of element [e] by [g] of it. *)
Definition update (e : nat) (g : tag -> tag) (s : soup) : soup :=
  map (retag (fun i t => if i =? e then g t else t)) s.

(** ** Loops over a [find_all] result *)

Fixpoint for_each (body : nat -> soup -> result soup) (l : list nat) (s : soup)
  : result soup :=
  match l with
  | [] => Ok s
  | e :: l' => s' <- body e s ;; for_each body l' s'
  end.

(** [for element in l: element.decompose()] *)
Definition decompose_all (l : list nat) (s : soup) : soup :=
  fold_left (fun s e => decompose e s) l s.

(** ** Tests used as [find_all] arguments *)

(** [find_all('x')] *)
Definition named (nm : string) (t : tag) : bool := String.eqb (name t) nm.

(** [find_all(['x', 'y'])] *)
Definition named_any (nms : list string) (t : tag) : bool := Py.mem (name t) nms.

(** [find_all(attrs={k: v})] for a single-valued attribute. *)
Definition attr_is (k v : string) (t : tag) : bool :=
  match get t k with Some x => String.eqb x v | None => false end.

(** A multi-valued attribute matches a string when one of its tokens, or
    the tokens joined by spaces, equals it. *)
Definition list_attr_in (k : string) (vs : list string) (t : tag) : bool :=
  match get_list t k with
  | Some l => existsb (fun tok => Py.mem tok vs) l || Py.mem (Py.join " " l) vs
  | None => false
  end.

(** [find_all(class_=c)] *)
Definition has_class (c : string) (t : tag) : bool := list_attr_in "class" [c] t.

(** [find_all(attrs={'class': re.compile(...)})]: the pattern is searched
    in each token and in the joined value. *)
Definition class_matches (r : Re.regex) (t : tag) : bool :=
  match get_list t "class" with
  | Some l => existsb (Re.search false r) l || Re.search false r (Py.join " " l)
  | None => false
  end.

End Bs.

(* ================================================================== *)
(** * Files and console *)
(* ================================================================== *)

Module Io.

(** The part of the outside world the two scripts touch: text files by
    path, and the lines printed so far. *)
Record world := World { files : list (string * string); console : list string }.

Definition IO (A : Type) : Type := world -> result A * world.

Definition ret {A : Type} (a : A) : IO A := fun w => (Ok a, w).

Definition raise {A : Type} (e : exn) : IO A := fun w => (Raise e, w).

Definition seq {A B : Type} (m : IO A) (k : A -> IO B) : IO B :=
  fun w =>
    match m w with
    | (Ok a, w') => k a w'
    | (Raise e, w') => (Raise e, w')
    end.

Definition lift {A : Type} (r : result A) : IO A := fun w => (r, w).

(** [try: body  except ...: handler] *)
Definition try_except {A : Type} (body : IO A) (handler : exn -> IO A) : IO A :=
  fun w =>
    match body w with
    | (Ok a, w') => (Ok a, w')
    | (Raise e, w') => handler e w'
    end.

(** [print(line)] *)
Definition print (line : string) : IO unit :=
  fun w => (Ok tt, World (files w) (console w ++ [line])).

Definition print_lines (lines : list string) : IO unit :=
  fun w => (Ok tt, World (files w) (console w ++ lines)).

(** [with open(path, 'r') as f: f.read()] *)
Definition read_file (path : string) : IO string :=
  fun w =>
    match Bs.assoc path (files w) with
    | Some text => (Ok text, w)
    | None => (Raise FileNotFoundError, w)
    end.

(** [with open(path, 'w') as f: f.write(text)] *)
Definition write_file (path text : string) : IO unit :=
  fun w =>
    (Ok tt,
     World ((path, text)
            :: filter (fun kv => negb (String.eqb (fst kv) path)) (files w))
           (console w)).

(** [str(e)] for the exceptions a decomposed element can cause. *)
Definition exn_message (e : exn) : string :=
  match e with
  | FileNotFoundError => "[Errno 2] No such file or directory"
  | AttributeError => "'NoneType' object has no attribute 'get'"
  | TypeError => "argument of type 'NoneType' is not iterable"
  end.

(** U+2713 CHECK MARK as its UTF-8 bytes, and the line feed. *)
Definition check_mark : string :=
  String (ascii_of_nat 226) (String (ascii_of_nat 156) (String (ascii_of_nat 147) "")).
Definition newline : string := String (ascii_of_nat 10) "".

End Io.

Notation "x <~ c ;; k" := (Io.seq c (fun x => k))
  (at level 61, c at next level, right associativity).
Notation "c ;;; k" := (Io.seq c (fun _ => k))
  (at level 61, right associativity).

(* ================================================================== *)
(** * Backend/StyleFinder.py *)
(* ================================================================== *)

Module StyleFinder.
Import Bs.

(** [r'#[0-9a-fA-F]{3,8}\b'] *)
Definition hex_pattern : Re.regex :=
  [Re.plain (Re.Lit "#"); Re.plain (Re.Rep Re.hexdigit 3 (Some 8)); Re.plain Re.Bnd].

(** [r'rgba?\([^)]+\)'] *)
Definition rgb_pattern : Re.regex :=
  [Re.plain (Re.Lit "rgb"); Re.plain (Re.Rep (Re.char "a") 0 (Some 1));
   Re.plain (Re.Lit "("); Re.plain (Re.Rep (Re.not_char ")") 1 None);
   Re.plain (Re.Lit ")")].

(** [r'hsla?\([^)]+\)'] *)
Definition hsl_pattern : Re.regex :=
  [Re.plain (Re.Lit "hsl"); Re.plain (Re.Rep (Re.char "a") 0 (Some 1));
   Re.plain (Re.Lit "("); Re.plain (Re.Rep (Re.not_char ")") 1 None);
   Re.plain (Re.Lit ")")].

(** [r'\b(color|background-color|border-color|fill|stroke)\s*:\s*([a-z]+)\b'] *)
Definition color_names : Re.regex :=
  [Re.plain Re.Bnd;
   Re.group (Re.Alt ["color"; "background-color"; "border-color"; "fill"; "stroke"]);
   Re.plain (Re.Rep Re.space 0 None); Re.plain (Re.Lit ":");
   Re.plain (Re.Rep Re.space 0 None);
   Re.group (Re.Rep Re.az 1 None); Re.plain Re.Bnd].

(** The keywords dropped at extraction time (compared case-sensitively). *)
Definition css_wide_keywords : list string :=
  ["inherit"; "initial"; "unset"; "transparent"; "currentColor"].

(** [color[1]] of a [findall] tuple. *)
Definition group2 (caps : list string) : string := nth 1 caps EmptyString.
Definition group1 (caps : list string) : string := nth 0 caps EmptyString.

Definition hex_colors (style_text : string) : list string :=
  Re.findall true hex_pattern style_text.
Definition rgb_colors (style_text : string) : list string :=
  Re.findall true rgb_pattern style_text.
Definition hsl_colors (style_text : string) : list string :=
  Re.findall true hsl_pattern style_text.
Definition named_colors (style_text : string) : list string :=
  filter (fun c => negb (Py.mem c css_wide_keywords))
         (map group2 (Re.findall_groups true color_names style_text)).

Definition extract_colors_from_style (style_text : string) : list string :=
  let colors := [] in
  let colors := colors ++ hex_colors style_text in
  let colors := colors ++ rgb_colors style_text in
  let colors := colors ++ hsl_colors style_text in
  let colors := colors ++ named_colors style_text in
  colors.

(** [r'font-family\s*:\s*([^;]+)'] *)
Definition font_pattern : Re.regex :=
  [Re.plain (Re.Lit "font-family"); Re.plain (Re.Rep Re.space 0 None);
   Re.plain (Re.Lit ":"); Re.plain (Re.Rep Re.space 0 None);
   Re.group (Re.Rep (Re.not_char ";") 1 None)].

(** The double-quote character. *)
Definition dquote : ascii := ascii_of_nat 34.

(** [font.strip()], then strip double quotes, then strip single quotes. *)
Definition clean_font (font : string) : string :=
  Py.strip_char "'" (Py.strip_char dquote (Py.strip font)).

Definition extract_fonts_from_style (style_text : string) : list string :=
  flat_map (fun m => map clean_font (Py.split "," m))
           (map group1 (Re.findall_groups true font_pattern style_text)).


(** [collections.Counter]: tokens with their counts, in first-seen order. *)
Fixpoint counter_add (x : string) (c : list (string * nat)) : list (string * nat) :=
  match c with
  | [] => [(x, 1)]
  | (k, n) :: c' =>
      if String.eqb k x then (k, S n) :: c' else (k, n) :: counter_add x c'
  end.

Definition Counter (l : list string) : list (string * nat) :=
  fold_left (fun c x => counter_add x c) l [].

Record results := Results {
  colors : list (string * nat);
  fonts : list (string * nat);
  external_stylesheets : list string
}.

Definition generic_fonts : list string :=
  ["serif"; "sans-serif"; "monospace"; "cursive"; "fantasy"; "system-ui"].

Definition noise_colors : list string :=
  ["none"; "transparent"; "inherit"; "currentcolor"].

(** [style_tag.string or ''] *)
Definition style_text_of (cs : list node) : string :=
  match string_of cs with
  | Some (String c s) => String c s
  | _ => EmptyString
  end.

(** The truthy values among [el.get('fill')], [el.get('stroke')]. *)
Definition paint_of (t : tag) : list string :=
  (if truthy (get t "fill") then [get_or t "fill" ""] else [])
  ++ (if truthy (get t "stroke") then [get_or t "stroke" ""] else []).

(** One [svg] of step 4: its own paints, then those of every element
    below it. *)
Definition svg_colors (svg : tag * list node) : list string :=
  paint_of (fst svg)
  ++ flat_map (fun el => paint_of (fst el)) (select (fun _ => true) (snd svg)).

(** [find_all('link', rel='stylesheet')] *)
Definition stylesheet_link (t : tag) : bool :=
  named "link" t && list_attr_in "rel" ["stylesheet"] t.

(** The body of [analyze_styles] after the file is parsed. *)
Definition analyze_tree (soup : Bs.soup) : results :=
  let style_tags := select (named "style") soup in
  let inline := select (fun t => has_attr t "style") soup in
  let all_colors :=
    flat_map (fun el => extract_colors_from_style (style_text_of (snd el))) style_tags
    ++ flat_map (fun el => extract_colors_from_style (get_or (fst el) "style" "")) inline in
  let all_fonts :=
    flat_map (fun el => extract_fonts_from_style (style_text_of (snd el))) style_tags
    ++ flat_map (fun el => extract_fonts_from_style (get_or (fst el) "style" "")) inline in
  let external_stylesheets :=
    filter (fun href => negb (String.eqb href ""))
           (map (fun el => get_or (fst el) "href" "") (select stylesheet_link soup)) in
  let all_colors := all_colors ++ flat_map svg_colors (select (named "svg") soup) in
  let color_counter := Counter all_colors in
  let font_counter := Counter all_fonts in
  let font_counter :=
    filter (fun fc => negb (Py.mem (Py.lower (fst fc)) generic_fonts)) font_counter in
  let color_counter :=
    filter (fun cc => negb (Py.mem (Py.lower (fst cc)) noise_colors)) color_counter in
  Results color_counter font_counter external_stylesheets.

Section Program.
(** The parser, the two report writers and the paths that [main] builds
    from the script's directory. *)
Variable BeautifulSoup : string -> Bs.soup.
Variable print_analysis : results -> list string.
Variable save_to_file : results -> string.
Variable traceback : exn -> list string.
Variables input_file output_file : string.

Definition analyze_styles (file_path : string) : Io.IO results :=
  html_content <~ Io.read_file file_path ;;
  let soup := BeautifulSoup html_content in
  Io.print "Analyzing <style> tags..." ;;;
  Io.print "Analyzing inline styles..." ;;;
  Io.print "Analyzing external stylesheet references..." ;;;
  Io.print "Analyzing SVG elements..." ;;;
  Io.ret (analyze_tree soup).

Definition main : Io.IO unit :=
  Io.print ("Analyzing styles from " ++ input_file ++ "...") ;;;
  Io.print ("This may take a moment for large files..." ++ Io.newline) ;;;
  Io.try_except
    (results <~ analyze_styles input_file ;;
     Io.print_lines (print_analysis results) ;;;
     Io.write_file output_file (save_to_file results) ;;;
     Io.print (Io.check_mark ++ " Detailed analysis saved to " ++ output_file))
    (fun e =>
       match e with
       | FileNotFoundError =>
           Io.print ("Error: Could not find " ++ input_file) ;;;
           Io.print "Make sure Sample.txt exists in the Backend directory."
       | _ =>
           Io.print ("Error: " ++ Io.exn_message e) ;;;
           Io.print_lines (traceback e)
       end).
End Program.

End StyleFinder.

(* ================================================================== *)
(** * Backend/Scraper.py *)
(* ================================================================== *)

Module Scraper.
Import Bs.

(** ** [is_in_navigation] *)

Definition nav_tags : list string := ["nav"; "header"].
Definition nav_classes : list string :=
  ["nav"; "navigation"; "menu"; "navbar"; "sl-nav"; "offcanvas"].
Definition nav_ids : list string :=
  ["nav-header"; "sl-nav"; "sl-header-offcanvas"; "menuOpen"; "menuClose"].

(** [parent.get('class')] is true and the joined classes contain one of
    the navigation fragments. *)
Definition nav_class (parent : tag) : bool :=
  match get_list parent "class" with
  | Some (c :: l) => Py.any_in nav_classes (Py.join " " (c :: l))
  | _ => false
  end.

(** [parent.get('id') in [...]] *)
Definition nav_id (parent : tag) : bool :=
  match get parent "id" with
  | Some i => Py.mem i nav_ids
  | None => false
  end.

(** The [while parent:] loop, over the chain of parents. *)
Fixpoint climb (chain : list tag) : bool :=
  match chain with
  | [] => false
  | parent :: up =>
      if Py.mem (name parent) nav_tags then true
      else if nav_class parent then true
      else if nav_id parent then true
      else climb up
  end.

Definition is_in_navigation (s : soup) (element : nat) : bool :=
  climb (parents s element).

(** ** The removal rules, in the order of [clean_html] *)

Definition unwanted_tags : list string := ["style"; "footer"; "iframe"; "noscript"].

(** [for tag in unwanted_tags: for element in soup.find_all(tag): ...] *)
Definition remove_unwanted (s : soup) : soup :=
  fold_left (fun s tg => decompose_all (find_all (named tg) s) s) unwanted_tags s.

Definition header_nav_classes : list string :=
  ["nav"; "navigation"; "menu"; "header-nav"].

Definition header_body (header_element : nat) (s : soup) : result soup :=
  let has_nav :=
    match find (named "nav") (contents_of s header_element) with
    | Some _ => true | None => false
    end in
  match tag_of s header_element with
  | None => Raise AttributeError
  | Some t =>
      let classes := match get_list t "class" with Some l => l | None => [] end in
      let has_nav_class := Py.any_in header_nav_classes (Py.join " " classes) in
      if negb has_nav && negb has_nav_class
      then Ok (decompose header_element s)
      else Ok s
  end.

Definition remove_headers (s : soup) : result soup :=
  for_each header_body (find_all (named "header") s) s.

Definition trackers : list string :=
  ["analytics"; "gtag"; "google-analytics"; "googletagmanager";
   "facebook.net"; "fbevents"; "connect.facebook";
   "linkedin.com"; "li.lms-analytics";
   "reddit"; "pixel";
   "pinterest"; "pintrk";
   "tiq.sunlife"; "utag"; "tealium";
   "cookielaw"; "onetrust";
   "decibelinsight";
   "go-mpulse"; "boomerang";
   "chrome-extension://";
   "coveo"].

Definition inline_keywords : list string :=
  ["utag_data"; "fbq("; "gtag("; "_linkedin_data_partner_ids"].

(** The three branches of the script test, on a live [script]. *)
Definition tracking_script (t : tag) (text : string) : bool :=
  let src := get_or t "src" "" in
  let script_id := get_or t "id" "" in
  if Py.any_in trackers (Py.lower src)
     || Py.contains "utag" script_id
     || Py.contains "BOOMR" text
  then true
  else if match get t "type" with
          | Some ty => String.eqb ty "application/ld+json"
          | None => false
          end
  then true
  else if Py.any_in inline_keywords text
  then true
  else false.

Definition script_body (script : nat) (s : soup) : result soup :=
  match tag_of s script with
  | None => Raise AttributeError
  | Some t =>
      if tracking_script t (get_text (contents_of s script))
      then Ok (decompose script s)
      else Ok s
  end.

Definition remove_scripts (s : soup) : result soup :=
  for_each script_body (find_all (named "script") s) s.

Definition extension_tags : list string :=
  ["grammarly-desktop-integration"; "simplify-jobs-page-script"].

(** [re.compile('apolloio|extension-opener|simplify-jobs')] *)
Definition extension_classes : Re.regex :=
  [Re.plain (Re.Alt ["apolloio"; "extension-opener"; "simplify-jobs"])].

Definition remove_extensions (s : soup) : soup :=
  let s := decompose_all (find_all (named_any extension_tags) s) s in
  decompose_all (find_all (class_matches extension_classes) s) s.

(** [soup.find_all('link', rel=rels)] and decompose each. *)
Definition link_rel (rels : list string) (t : tag) : bool :=
  named "link" t && list_attr_in "rel" rels t.

Definition remove_links (rels : list string) (s : soup) : soup :=
  decompose_all (find_all (link_rel rels) s) s.

Definition meta_body (meta : nat) (s : soup) : result soup :=
  match tag_of s meta with
  | None => Raise AttributeError
  | Some t =>
      let keep :=
        truthy (get t "charset")
        || match get t "name" with
           | Some n => Py.mem n ["viewport"; "charset"]
           | None => false
           end in
      if negb keep then Ok (decompose meta s) else Ok s
  end.

Definition remove_meta (s : soup) : result soup :=
  for_each meta_body (find_all (named "meta") s) s.

Definition consent_ids : list string :=
  ["onetrust-consent-sdk"; "onetrust-banner-sdk"; "onetrust-pc-sdk"].

Definition remove_consent (s : soup) : soup :=
  fold_left
    (fun s element_id =>
       match find (attr_is "id" element_id) s with
       | Some element => decompose element s
       | None => s
       end)
    consent_ids s.

Definition remove_cookie_classes (s : soup) : soup :=
  fold_left (fun s class_name => decompose_all (find_all (has_class class_name) s) s)
            ["cookie"; "banner"] s.

(** The body of the [aria-hidden] loop.  On a decomposed object [name]
    and [parent] are [None] and there is no text, so the second
    [decompose] runs and changes nothing. *)
Definition hidden_body (s : soup) (element : nat) : soup :=
  if match name_of s element with
     | Some nm => String.eqb nm "svg"
     | None => false
     end
     || is_in_navigation s element
  then s
  else
    let text_content := get_text_strip (contents_of s element) in
    if String.length text_content <? 10 then decompose element s else s.

Definition remove_hidden (s : soup) : soup :=
  fold_left hidden_body (find_all (attr_is "aria-hidden" "true") s) s.

(** [r'display\s*:\s*none'] *)
Definition display_none : Re.regex :=
  [Re.plain (Re.Lit "display"); Re.plain (Re.Rep Re.space 0 None);
   Re.plain (Re.Lit ":"); Re.plain (Re.Rep Re.space 0 None);
   Re.plain (Re.Lit "none")].

Definition display_none_body (element : nat) (s : soup) : result soup :=
  match tag_of s element with
  | None => Raise AttributeError
  | Some t =>
      let style_value := Py.lower (get_or t "style" "") in
      if Re.search false display_none style_value then
        let text_content := get_text_strip (contents_of s element) in
        if String.length text_content <? 10
        then Ok (decompose element s) else Ok s
      else Ok s
  end.

Definition remove_display_none (s : soup) : result soup :=
  for_each display_none_body (find_all (fun t => has_attr t "style") s) s.

(** ** Attribute stripping *)

Definition noise_attrs : list string :=
  ["data-sl-aem-component"; "data-sl-component"; "data-cmp-hook-accordion";
   "data-class"; "data-class-icon";
   "data-parsley-validate"; "data-parsley-error-message";
   "data-parsley-id"; "data-parsley-pattern"; "data-parsley-pattern-message";
   "data-parsley-required"; "data-parsley-required-message"; "data-single-expansion";
   "data-title"; "data-cy"; "data-grammarly-shadow-root"].

Definition font_awesome_attrs : list string :=
  ["data-fa-i2svg"; "data-icon"; "data-prefix"].

Definition bootstrap_attrs : list string :=
  ["data-bs-target"; "data-bs-toggle"; "data-bs-dismiss"].

(** What one iteration does to the tag, [in_nav] being the answer of
    [is_in_navigation(tag)]. *)
Definition strip_tag (in_nav : bool) (t : tag) : tag :=
  let t := if negb in_nav && has_attr t "style" then del_attr "style" t else t in
  let attrs_to_remove := noise_attrs in
  let attrs_to_remove :=
    if negb in_nav then attrs_to_remove ++ font_awesome_attrs else attrs_to_remove in
  let attrs_to_remove :=
    if negb in_nav then attrs_to_remove ++ bootstrap_attrs else attrs_to_remove in
  fold_left (fun t attr => if has_attr t attr then del_attr attr t else t)
            attrs_to_remove t.

(** The three calls of [is_in_navigation(tag)] in one iteration read the
    same chain of parents: only [tag]'s own attributes change in between.
    [has_attr] on a decomposed object raises [TypeError]. *)
Definition strip_body (tg : nat) (s : soup) : result soup :=
  match tag_of s tg with
  | None => Raise TypeError
  | Some _ => Ok (update tg (strip_tag (is_in_navigation s tg)) s)
  end.

Definition strip_attributes (s : soup) : result soup :=
  for_each strip_body (find_all (fun _ => true) s) s.

(** ** Empty containers *)

Definition important_tags : list string :=
  ["img"; "a"; "h1"; "h2"; "h3"; "h4"; "h5"; "h6"; "svg"].

Definition empty_body (s : soup) (tg : nat) : soup :=
  let inside := contents_of s tg in
  if is_in_navigation s tg
     || match find (named "svg") inside with Some _ => true | None => false end
  then s
  else if String.eqb (get_text_strip inside) ""
          && match find_all (named_any important_tags) inside with
             | [] => true
             | _ => false
             end
  then decompose tg s
  else s.

Definition remove_empty (s : soup) : soup :=
  fold_left empty_body (find_all (named_any ["div"; "span"]) s) s.

(** ** The whole pipeline on the parsed tree *)

Definition clean_tree (s : soup) : result soup :=
  let s := remove_unwanted s in
  s <- remove_headers s ;;
  s <- remove_scripts s ;;
  let s := remove_extensions s in
  let s := remove_links ["preload"; "prefetch"] s in
  s <- remove_meta s ;;
  let s := remove_links ["canonical"; "alternate"] s in
  let s := remove_consent s in
  let s := remove_cookie_classes s in
  let s := remove_hidden s in
  s <- remove_display_none s ;;
  s <- strip_attributes s ;;
  Ok (remove_empty s).

Section Program.
(** The parser and the serializer of the library, the number formats of
    the size report, and the paths that [main] builds from the script's
    directory. *)
Variable BeautifulSoup : string -> soup.
Variable prettify : soup -> string.
Variable size_report : nat -> nat -> list string.
Variables input_file output_file : string.

Definition clean_html (file_path : string) : Io.IO string :=
  html_content <~ Io.read_file file_path ;;
  let soup := BeautifulSoup html_content in
  cleaned <~ Io.lift (clean_tree soup) ;;
  Io.ret (prettify cleaned).

Definition main : Io.IO unit :=
  Io.print ("Cleaning HTML from " ++ input_file ++ "...") ;;;
  Io.try_except
    (original_html <~ Io.read_file input_file ;;
     let original_size := String.length original_html in
     cleaned_html <~ clean_html input_file ;;
     let cleaned_size := String.length cleaned_html in
     Io.write_file output_file cleaned_html ;;;
     Io.print (Io.check_mark ++ " Cleaned HTML saved to " ++ output_file) ;;;
     Io.print_lines (size_report original_size cleaned_size))
    (fun e =>
       match e with
       | FileNotFoundError => Io.print ("Error: Could not find " ++ input_file)
       | _ => Io.print ("Error: " ++ Io.exn_message e)
       end).
End Program.

End Scraper.

(* ================================================================== *)
(** * The report writers of Backend/StyleFinder.py *)
(* ================================================================== *)

Module Report.
Import StyleFinder.

(** [s * n] *)
Fixpoint times (n : nat) (s : string) : string :=
  match n with
  | 0 => EmptyString
  | S n' => s ++ times n' s
  end.

(** [str(n)] for a natural number: its decimal digits. *)
Fixpoint digits (fuel n : nat) (acc : string) : string :=
  match fuel with
  | 0 => acc
  | S fuel' =>
      let acc' := String (ascii_of_nat (48 + n mod 10)) acc in
      if n / 10 =? 0 then acc' else digits fuel' (n / 10) acc'
  end.
Definition str (n : nat) : string := digits (S n) n EmptyString.

(** The format specifications [>w] and [<w]: pad with spaces to the
    width [w]; a longer text is left as it is. *)
Definition rjust (w : nat) (s : string) : string :=
  times (w - String.length s) " " ++ s.
Definition ljust (w : nat) (s : string) : string :=
  s ++ times (w - String.length s) " ".

(** [Counter.most_common]: the entries by decreasing count, entries with
    equal counts in the order of the table; with a limit, the first
    entries of that list. *)
Fixpoint insert (e : string * nat) (l : list (string * nat)) : list (string * nat) :=
  match l with
  | [] => [e]
  | x :: l' => if snd x <=? snd e then e :: l else x :: insert e l'
  end.

Definition most_common (limit : option nat) (table : list (string * nat))
  : list (string * nat) :=
  let sorted := fold_right insert [] table in
  match limit with
  | None => sorted
  | Some n => firstn n sorted
  end.

(** [enumerate(l, i)] *)
Fixpoint enumerate {A : Type} (i : nat) (l : list A) : list (nat * A) :=
  match l with
  | [] => []
  | x :: l' => (i, x) :: enumerate (S i) l'
  end.

(** [f"{i:2d}. {name:<40} ({count:>3} occurrences)"] *)
Definition entry (i : nat) (name : string) (count : nat) : string :=
  rjust 2 (str i) ++ ". " ++ ljust 40 name
  ++ " (" ++ rjust 3 (str count) ++ " occurrences)".

(** The lines of one [for i, (name, count) in enumerate(..., 1)] loop. *)
Definition listing (limit : option nat) (table : list (string * nat)) : list string :=
  map (fun ie => entry (fst ie) (fst (snd ie)) (snd (snd ie)))
      (enumerate 1 (most_common limit table)).

(** [f"{i:2d}. {stylesheet}"] for each stylesheet. *)
Definition sheets (l : list string) : list string :=
  map (fun ie => (rjust 2 (str (fst ie)) ++ ". " ++ snd ie)%string) (enumerate 1 l).

Definition rule : string := times 60 "=".
Definition dash : string := times 60 "-".

(** U+1F4DD MEMO, U+1F3A8 ARTIST PALETTE and U+1F517 LINK SYMBOL as
    their UTF-8 bytes. *)
Definition utf8 (bytes : list nat) : string :=
  fold_right (fun b s => String (ascii_of_nat b) s) EmptyString bytes.
Definition memo : string := utf8 [240; 159; 147; 157].
Definition palette : string := utf8 [240; 159; 142; 168].
Definition link : string := utf8 [240; 159; 148; 151].

(** The three totals at the end of both reports. *)
Definition totals (r : results) : list string :=
  [("Total unique fonts: " ++ str (List.length (fonts r)))%string;
   ("Total unique colors: " ++ str (List.length (colors r)))%string;
   ("Total external stylesheets: "
    ++ str (List.length (external_stylesheets r)))%string].

(** The lines [print_analysis] prints, one for each call of [print]. *)
Definition print_analysis (r : results) : list string :=
  [(Io.newline ++ rule)%string; "STYLE ANALYSIS RESULTS"; rule]
  ++ [(Io.newline ++ memo ++ " COMMON FONTS:")%string; dash]
  ++ match fonts r with
     | [] => ["No fonts found in the HTML file."]
     | _ => listing (Some 15) (fonts r)
     end
  ++ [(Io.newline ++ palette ++ " COMMON COLORS:")%string; dash]
  ++ match colors r with
     | [] => ["No colors found in the HTML file."]
     | _ => listing (Some 20) (colors r)
     end
  ++ match external_stylesheets r with
     | [] => []
     | l => [(Io.newline ++ link ++ " EXTERNAL STYLESHEETS:")%string; dash] ++ sheets l
     end
  ++ [(Io.newline ++ rule)%string]
  ++ totals r
  ++ [(rule ++ Io.newline)%string].

(** A line with its line feed. *)
Definition line (s : string) : string := (s ++ Io.newline)%string.

(** The arguments of the calls of [f.write] in [save_to_file], in
    order. *)
Definition writes (r : results) : list string :=
  [line rule; line "STYLE ANALYSIS RESULTS"; line (line rule)]
  ++ [line "COMMON FONTS:"; line dash]
  ++ match fonts r with
     | [] => [line "No fonts found."]
     | _ => map line (listing None (fonts r))
     end
  ++ [(Io.newline ++ Io.newline ++ line "COMMON COLORS:")%string; line dash]
  ++ match colors r with
     | [] => [line "No colors found."]
     | _ => map line (listing None (colors r))
     end
  ++ match external_stylesheets r with
     | [] => []
     | l => [(Io.newline ++ Io.newline ++ line "EXTERNAL STYLESHEETS:")%string; line dash]
            ++ map line (sheets l)
     end
  ++ [(Io.newline ++ line rule)%string]
  ++ map line (totals r)
  ++ [line rule].

(** The text [save_to_file] leaves in the output file. *)
Definition save_to_file (r : results) : string := Py.join "" (writes r).

End Report.

(* ================================================================== *)
(** * Vocabulary of the properties *)
(* ================================================================== *)

Import Bs.

(** ** Characters and strings *)

(** Every character of a string satisfies a test. *)
Fixpoint all_chars (p : ascii -> bool) (s : string) : bool :=
  match s with
  | EmptyString => true
  | String c s' => p c && all_chars p s'
  end.

(** A hexadecimal digit, by enumeration. *)
Definition hex_digit (c : ascii) : bool :=
  Py.contains (String c "") "0123456789abcdefABCDEF".

(** A character that is neither [f] nor [F]. *)
Definition not_f (c : ascii) : bool := negb (Ascii.eqb (Py.lower_char c) "f").

(** Case analysis on the 256 characters. *)
Ltac each_char c :=
  destruct c as [[] [] [] [] [] [] [] []]; vm_compute; try reflexivity; try discriminate.

(** ** The navigation classifier *)

(** What the classifier looks for in one ancestor, in the words of the
    specification. *)
Definition navigation_like (parent : tag) : Prop :=
  name parent = "nav" \/ name parent = "header"
  \/ (exists classes frag pre post,
        get_list parent "class" = Some classes
        /\ In frag ["nav"; "navigation"; "menu"; "navbar"; "sl-nav"; "offcanvas"]
        /\ Py.join " " classes = (pre ++ frag ++ post)%string)
  \/ (exists i,
        get parent "id" = Some i
        /\ In i ["nav-header"; "sl-nav"; "sl-header-offcanvas"; "menuOpen"; "menuClose"]).

(** The three tests of one turn of the loop, as one test. *)
Definition nav_parent (parent : tag) : bool :=
  Py.mem (name parent) Scraper.nav_tags || Scraper.nav_class parent || Scraper.nav_id parent.

(** ** Trees *)

(** Induction over a node and over a list of nodes at once. *)
Section NodeInduction.
Variable P : node -> Prop.
Variable Q : list node -> Prop.
Hypothesis Q_nil : Q [].
Hypothesis Q_cons : forall n l, P n -> Q l -> Q (n :: l).
Hypothesis P_text : forall s, P (Text s).
Hypothesis P_element : forall i t cs, Q cs -> P (Element i t cs).

Fixpoint node_induction (n : node) : P n :=
  match n with
  | Text s => P_text s
  | Element i t cs =>
      P_element i t cs
        ((fix forest (l : list node) : Q l :=
            match l with
            | [] => Q_nil
            | c :: l' => Q_cons c l' (node_induction c) (forest l')
            end) cs)
  end.

Fixpoint forest_induction (l : list node) : Q l :=
  match l with
  | [] => Q_nil
  | c :: l' => Q_cons c l' (node_induction c) (forest_induction l')
  end.
End NodeInduction.

(** The identities in a subtree, in document order. *)
Definition node_ids (n : node) : list nat := map fst (tags_of n).

(** [len(get_text(strip=True))] of some contents. *)
Definition text_len (l : list node) : nat := String.length (get_text_strip l).

(** Where an element is and what its tag is. *)
Definition place (s : soup) (e : nat) : option (list (nat * tag) * tag) :=
  match locate s e with
  | Some (anc, Element _ t _) => Some (anc, t)
  | _ => None
  end.

(** A place inside the contents of element [i], seen from outside. *)
Definition under (i : nat) (t : tag) (p : list (nat * tag) * tag)
  : list (nat * tag) * tag :=
  (fst p ++ [(i, t)], snd p).

(** A tree without its strings: the elements, their tags and their
    nesting. *)
Fixpoint skeleton (n : node) : list node :=
  match n with
  | Text _ => []
  | Element i t cs => [Element i t (flat_map skeleton cs)]
  end.

(** Two trees that differ in their strings only, as a tree and what the
    parser builds from its serialization do. *)
Definition same_elements (a b : soup) : Prop :=
  flat_map skeleton a = flat_map skeleton b.

(** [retag] on an entry of a chain of ancestors, and on what [locate]
    returns. *)
Definition retag_entry (f : nat -> tag -> tag) (it : nat * tag) : nat * tag :=
  (fst it, f (fst it) (snd it)).

Definition retag_found (f : nat -> tag -> tag)
    (r : list (nat * tag) * node) : list (nat * tag) * node :=
  (map (retag_entry f) (fst r), retag f (snd r)).

(** Distinctness of a concrete list of identities. *)
Ltac distinct_ids :=
  repeat (apply NoDup_cons; [cbn; intuition discriminate|]); apply NoDup_nil.

(** ** Loops *)

(** [s'] comes from [s] by decomposing elements. *)
Definition prunes (s s' : soup) : Prop := exists l, s' = decompose_all l s.

(** A loop body that decomposes at most its own element, and nothing
    inside navigation. *)
Definition guarded (body : soup -> nat -> soup) : Prop :=
  forall s x,
    body s x = s
    \/ (body s x = decompose x s /\ Scraper.is_in_navigation s x = false).

(** What the parser guarantees for [script]: its content is raw text, so
    a [script] element has no element below it. *)
Definition script_leaves (s : soup) : bool :=
  forallb (fun el => negb (named "script" (fst el))
                     || match descendants (snd el) with [] => true | _ => false end)
          (flat_map elements_of s).

(** The verdict of the script loop's body on an element of the input
    tree [s0]. *)
Definition verdict (s0 : soup) (z : nat) : bool :=
  match locate s0 z with
  | Some (_, Element _ t cs) => Scraper.tracking_script t (get_text cs)
  | _ => false
  end.

(** In [s] the script [z] of [s0] is gone if the verdict was to delete it,
    and is as it was in [s0] otherwise. *)
Definition settled (s0 s : soup) (z : nat) : Prop :=
  if verdict s0 z then locate s z = None else locate s z = locate s0 z.

(** ** Attribute stripping *)

(** Deleting a list of attributes keeps exactly the others. *)
Definition without (ks : list string) (t : tag) : tag :=
  Tag (name t) (filter (fun kv => negb (Py.mem (fst kv) ks)) (attrs t)).

(** The attributes one iteration deletes. *)
Definition stripped_attrs (in_nav : bool) : list string :=
  if in_nav then Scraper.noise_attrs
  else "style" :: (Scraper.noise_attrs ++ Scraper.font_awesome_attrs)
                   ++ Scraper.bootstrap_attrs.

(** Every tag rewritten as one iteration of the stripping loop does,
    according to the element's place in [s]. *)
Definition strip_all (s : soup) : soup :=
  map (retag (fun i t => Scraper.strip_tag (Scraper.is_in_navigation s i) t)) s.

(** The tags after the elements in [done] have been visited. *)
Definition strip_done (s0 : soup) (done : list nat) (i : nat) (t : tag) : tag :=
  if existsb (Nat.eqb i) done
  then Scraper.strip_tag (Scraper.is_in_navigation s0 i) t else t.

(** Every tag is a fixed point of what the stripping pass would do to it. *)
Definition stripped (s : soup) : Prop :=
  forall e anc t cs,
    locate s e = Some (anc, Element e t cs) ->
    Scraper.strip_tag (Scraper.climb (map snd anc ++ [document])) t = t.

(** ** Loops that read their element *)

(** The test of the [meta] loop: the element is kept. *)
Definition kept_meta (t : tag) : bool :=
  truthy (get t "charset")
  || match get t "name" with
     | Some n => Py.mem n ["viewport"; "charset"]
     | None => false
     end.

(** The part of the [script] test that reads the tag and not the text:
    a deny-listed [src], a [utag] identifier, or JSON-LD. *)
Definition tracking_tag (t : tag) : bool :=
  Py.any_in Scraper.trackers (Py.lower (get_or t "src" ""))
  || Py.contains "utag" (get_or t "id" "")
  || match get t "type" with
     | Some ty => String.eqb ty "application/ld+json"
     | None => false
     end.

(** The class test of the [header] loop. *)
Definition header_nav_class (t : tag) : bool :=
  Py.any_in Scraper.header_nav_classes
            (Py.join " " (match get_list t "class" with Some l => l | None => [] end)).

(** The style test of the [display:none] loop. *)
Definition hides (t : tag) : bool :=
  Re.search false Scraper.display_none (Py.lower (get_or t "style" "")).

(** No element that passes [p] and [q] has an element that passes [p]
    below it. *)
Definition no_nesting (p q : tag -> bool) (s : soup) : bool :=
  forallb (fun el => negb (p (fst el) && q (fst el))
                     || match find_all p (snd el) with [] => true | _ => false end)
          (flat_map elements_of s).

(** ** The tallies of the style profiler *)

(** The tokens [analyze_styles] has collected when it starts counting:
    those of the [style] elements, of the inline styles and of the [svg]
    paints, in this order. *)
Definition all_colors (soup : Bs.soup) : list string :=
  (flat_map (fun el => StyleFinder.extract_colors_from_style
                         (StyleFinder.style_text_of (snd el)))
            (select (named "style") soup)
   ++ flat_map (fun el => StyleFinder.extract_colors_from_style (get_or (fst el) "style" ""))
               (select (fun t => has_attr t "style") soup))
  ++ flat_map StyleFinder.svg_colors (select (named "svg") soup).

Definition all_fonts (soup : Bs.soup) : list string :=
  flat_map (fun el => StyleFinder.extract_fonts_from_style
                        (StyleFinder.style_text_of (snd el)))
           (select (named "style") soup)
  ++ flat_map (fun el => StyleFinder.extract_fonts_from_style (get_or (fst el) "style" ""))
              (select (fun t => has_attr t "style") soup).

(** [counter[k]]: the count of a token, 0 when it is not a key. *)
Fixpoint tally (k : string) (c : list (string * nat)) : nat :=
  match c with
  | [] => 0
  | (k', n) :: c' => if String.eqb k' k then n else tally k c'
  end.

(** The entries of a table with the count [n], in the order of the
    table. *)
Definition with_count (n : nat) (l : list (string * nat)) : list (string * nat) :=
  filter (fun e => snd e =? n) l.

(** Each entry counts at least as much as every entry after it. *)
Fixpoint ranked (l : list (string * nat)) : Prop :=
  match l with
  | [] => True
  | x :: l' => (forall y, In y l' -> snd y <= snd x) /\ ranked l'
  end.

(** ** Tokens *)


(** A character other than [ch]. *)
Definition other_than (ch : ascii) (c : ascii) : bool := negb (Ascii.eqb c ch).

(** [inner] occurs in [outer]. *)
Definition occurs_in (inner outer : string) : Prop :=
  exists before after, outer = (before ++ inner ++ after)%string.

(** ** Example pages *)

(** A page whose inline styles use noise tokens in several spellings. *)
Definition noisy_page : soup :=
  [Element 1 (Tag "p" [("style", "color: Transparent; font-family: Arial, Sans-Serif")])
     [Text "x"];
   Element 2 (Tag "svg" [("fill", "NONE"); ("stroke", "currentColor")])
     [Element 3 (Tag "path" [("fill", "#fff")]) []]].

(** A world whose only file is the input. *)
Definition noisy_world : Io.world := Io.World [("Sample.txt", "<p>")] [].

(** A [nav] with a link and a [noscript] tracking pixel. *)
Definition menu_page : soup :=
  [Element 1 (Tag "nav" [])
     [Element 2 (Tag "a" [("href", "/")]) [Text "Home"];
      Element 3 (Tag "noscript" []) [Element 4 (Tag "img" [("src", "pixel.gif")]) []]]].

(** What the run makes of it. *)
Definition menu_cleaned : soup :=
  [Element 1 (Tag "nav" []) [Element 2 (Tag "a" [("href", "/")]) [Text "Home"]]].

(** A [nav] holding an empty [aria-hidden] icon holder and an empty
    [div]: both meet a removal condition. *)
Definition guarded_page : soup :=
  [Element 1 (Tag "nav" [])
     [Element 2 (Tag "span" [("aria-hidden", "true")]) [];
      Element 3 (Tag "div" []) []]].

(** A [nav] holding a hidden drop-down: a [display:none] container with a
    short link inside. *)
Definition dropdown_page : soup :=
  [Element 1 (Tag "nav" [])
     [Element 2 (Tag "div" [("style", "display:none")])
        [Element 3 (Tag "a" [("href", "/x")]) [Text "Go"]]]].


(** An [aria-hidden] block whose text reaches 10 characters only through
    a [display:none] child. *)
Definition teaser_page : soup :=
  [Element 1 (Tag "div" [("aria-hidden", "true")])
     [Text "12345"; Element 2 (Tag "span" [("style", "display:none")]) [Text "67890"]]].

(** What the first run makes of it. *)
Definition teaser_cleaned : soup :=
  [Element 1 (Tag "div" [("aria-hidden", "true")]) [Text "12345"]].

(** [teaser_cleaned] as the parser gives it back after serialization. *)
Definition teaser_reparsed : soup :=
  [Element 1 (Tag "div" [("aria-hidden", "true")]) [Text "  12345 "]; Text " "].

(** A page with a styled link inside navigation and a styled paragraph
    outside. *)
Definition styled_page : soup :=
  [Element 1 (Tag "nav" [("class", "navbar")])
     [Element 2 (Tag "a" [("style", "color:red"); ("data-bs-toggle", "dropdown")])
        [Text "Menu"]];
   Element 3 (Tag "p" [("style", "color:red"); ("data-bs-toggle", "dropdown")])
     [Text "Hello"]].

(** What the first run makes of it. *)
Definition styled_cleaned : soup :=
  [Element 1 (Tag "nav" [("class", "navbar")])
     [Element 2 (Tag "a" [("style", "color:red"); ("data-bs-toggle", "dropdown")])
        [Text "Menu"]];
   Element 3 (Tag "p" []) [Text "Hello"]].

(** [styled_cleaned] as the parser gives it back after serialization. *)
Definition styled_reparsed : soup :=
  [Element 1 (Tag "nav" [("class", "navbar")])
     [Text " ";
      Element 2 (Tag "a" [("style", "color:red"); ("data-bs-toggle", "dropdown")])
        [Text "  Menu "]];
   Text " ";
   Element 3 (Tag "p" []) [Text "  Hello "]].

(** A tag-manager script, an application script and an inline tracker. *)
Definition script_page : soup :=
  [Element 1 (Tag "script" [("src", "https://www.googletagmanager.com/gtm.js")]) [];
   Element 2 (Tag "script" [("src", "/app.js")]) [];
   Element 3 (Tag "script" []) [Text "fbq('init', '1');"];
   Element 4 (Tag "p" []) [Text "Hello"]].

(** A page header holding the site navigation, and a banner header
    inside it. *)
Definition header_page : soup :=
  [Element 1 (Tag "header" [])
     [Element 2 (Tag "nav" []) [Element 3 (Tag "header" []) [Text "x"]]]].

(** What the [header] rule makes of it. *)
Definition header_kept : soup :=
  [Element 1 (Tag "header" []) [Element 2 (Tag "nav" []) []]].

(** A page header with a banner header inside and no navigation. *)
Definition nested_headers : soup :=
  [Element 1 (Tag "header" [])
     [Element 2 (Tag "header" [("class", "top")]) [Text "News"]]].

(** A hidden block with a styled element inside. *)
Definition hidden_styled : soup :=
  [Element 1 (Tag "div" [("style", "display: none")])
     [Element 2 (Tag "b" [("style", "color:red")]) [Text "new"]]].






(* ================================================================== *)
(** * Properties *)
(* ================================================================== *)

(** ** Strings *)

Lemma mem_In (x : string) (l : list string) : Py.mem x l = true <-> In x l.
Proof.
  unfold Py.mem. rewrite existsb_exists. split.
  - intros (y & Hy & E). apply String.eqb_eq in E. now subst.
  - intros H. exists x. split; [assumption | apply String.eqb_refl].
Qed.

Lemma mem_false (x : string) (l : list string) : Py.mem x l = false <-> ~ In x l.
Proof.
  rewrite <- mem_In. destruct (Py.mem x l); split; intros; congruence.
Qed.

Lemma startswith_app (p s : string) :
  Py.startswith p s = true <-> exists r, s = (p ++ r)%string.
Proof.
  revert s. induction p as [|a p IH]; intros s; simpl.
  - split; [intros _; now exists s | reflexivity].
  - destruct s as [|b s].
    + split; [discriminate | intros (r & Hr); discriminate].
    + rewrite andb_true_iff, IH. split.
      * intros (E & r & ->). apply Ascii.eqb_eq in E. subst. now exists r.
      * intros (r & Hr). injection Hr as -> ->. split; [apply Ascii.eqb_refl | now exists r].
Qed.

(** [Py.contains] is the substring test. *)
Lemma contains_substring (needle hay : string) :
  Py.contains needle hay = true <->
  exists pre post, hay = (pre ++ needle ++ post)%string.
Proof.
  induction hay as [|c hay IH]; simpl.
  - rewrite orb_false_r, startswith_app. split.
    + intros (r & Hr). now exists EmptyString, r.
    + intros (pre & post & H). destruct pre; [now exists post | discriminate].
  - rewrite orb_true_iff, startswith_app, IH. split.
    + intros [(r & Hr) | (pre & post & Hr)].
      * now exists EmptyString, r.
      * exists (String c pre), post. simpl. now rewrite Hr.
    + intros (pre & post & H). destruct pre as [|a pre].
      * left. now exists post.
      * right. simpl in H. injection H as -> ->. now exists pre, post.
Qed.

Lemma any_in_exists (frags : list string) (s : string) :
  Py.any_in frags s = true <->
  exists frag, In frag frags /\ Py.contains frag s = true.
Proof. unfold Py.any_in. now rewrite existsb_exists. Qed.

(** ** The navigation classifier *)

Lemma climb_existsb (chain : list tag) :
  Scraper.climb chain = existsb nav_parent chain.
Proof.
  induction chain as [|p up IH]; cbn [Scraper.climb existsb]; [reflexivity|].
  unfold nav_parent at 1.
  destruct (Py.mem (name p) Scraper.nav_tags); [reflexivity|].
  destruct (Scraper.nav_class p); [reflexivity|].
  destruct (Scraper.nav_id p); [reflexivity | exact IH].
Qed.

Lemma nav_class_spec (parent : tag) :
  Scraper.nav_class parent = true <->
  exists classes frag pre post,
    get_list parent "class" = Some classes
    /\ In frag Scraper.nav_classes
    /\ Py.join " " classes = (pre ++ frag ++ post)%string.
Proof.
  unfold Scraper.nav_class. split.
  - destruct (get_list parent "class") as [[|c l]|]; try discriminate.
    intros H. apply any_in_exists in H as (frag & Hin & Hc).
    apply contains_substring in Hc as (pre & post & Hc).
    now exists (c :: l), frag, pre, post.
  - intros (classes & frag & pre & post & -> & Hin & Hj).
    assert (Hany : Py.any_in Scraper.nav_classes (Py.join " " classes) = true).
    { apply any_in_exists. exists frag. split; [assumption|].
      apply contains_substring. now exists pre, post. }
    destruct classes as [|c l]; [discriminate Hany | exact Hany].
Qed.

Lemma nav_parent_spec (parent : tag) :
  nav_parent parent = true <-> navigation_like parent.
Proof.
  unfold nav_parent, navigation_like.
  rewrite !orb_true_iff, mem_In, nav_class_spec.
  unfold Scraper.nav_id, Scraper.nav_tags, Scraper.nav_classes, Scraper.nav_ids.
  split.
  - intros [[H | H] | H].
    + simpl in H. destruct H as [H | [H | []]]; auto.
    + auto.
    + right; right; right. destruct (get parent "id") as [i|]; [|discriminate].
      exists i. split; [reflexivity | now apply mem_In].
  - intros [H | [H | [H | (i & Hi & Hin)]]].
    + left; left. simpl. auto.
    + left; left. simpl. auto.
    + left; right. exact H.
    + right. rewrite Hi. now apply mem_In.
Qed.

(** C7: [is_in_navigation] answers true exactly when one of the
    element's ancestors, from its parent up to the root, is a [nav] or
    [header] tag, or has a class string containing a navigation fragment,
    or has one of the navigation ids; otherwise it answers false.  It is a
    function of the tree and the element to a truth value: the tree is
    only read. *)
Theorem is_in_navigation_spec (s : soup) (element : nat) :
  (Scraper.is_in_navigation s element = true <->
   exists parent, In parent (parents s element) /\ navigation_like parent)
  /\ (Scraper.is_in_navigation s element = false <->
      forall parent, In parent (parents s element) -> ~ navigation_like parent).
Proof.
  assert (Ht : Scraper.is_in_navigation s element = true <->
               exists parent, In parent (parents s element) /\ navigation_like parent).
  { unfold Scraper.is_in_navigation. rewrite climb_existsb, existsb_exists.
    split; intros (p & Hin & Hp); exists p; (split; [assumption|]);
      now apply nav_parent_spec. }
  split; [exact Ht|].
  split.
  - intros Hf p Hin Hp.
    assert (Scraper.is_in_navigation s element = true) by (apply Ht; eauto).
    congruence.
  - intros Hno. destruct (Scraper.is_in_navigation s element) eqn:E; [|reflexivity].
    destruct (proj1 Ht eq_refl) as (p & Hin & Hp). exfalso. exact (Hno p Hin Hp).
Qed.

(** ** The final tallies of the style profiler *)

Lemma analyze_styles_result BeautifulSoup file_path w r w' :
  StyleFinder.analyze_styles BeautifulSoup file_path w = (Ok r, w') ->
  exists html, r = StyleFinder.analyze_tree (BeautifulSoup html).
Proof.
  unfold StyleFinder.analyze_styles, Io.seq, Io.read_file, Io.print, Io.ret.
  destruct (assoc file_path (Io.files w)) as [html|]; [|discriminate].
  intros H. injection H as <- _. now exists html.
Qed.

(** C6: the tables returned by [analyze_styles] hold no colour whose
    lower-case form is [none], [transparent], [inherit] or [currentcolor],
    and no font whose lower-case form is a generic family keyword. *)
Theorem analyze_styles_excludes_noise
    (BeautifulSoup : string -> soup) (file_path : string)
    (w w' : Io.world) (r : StyleFinder.results) :
  StyleFinder.analyze_styles BeautifulSoup file_path w = (Ok r, w') ->
  (forall token count,
      In (token, count) (StyleFinder.colors r) ->
      ~ In (Py.lower token) ["none"; "transparent"; "inherit"; "currentcolor"])
  /\ (forall token count,
        In (token, count) (StyleFinder.fonts r) ->
        ~ In (Py.lower token)
             ["serif"; "sans-serif"; "monospace"; "cursive"; "fantasy"; "system-ui"]).
Proof.
  intros H. apply analyze_styles_result in H as (html & ->).
  unfold StyleFinder.analyze_tree. cbn [StyleFinder.colors StyleFinder.fonts].
  split; intros token count Hin; apply filter_In in Hin as [_ Hk];
    cbn [fst] in Hk; apply negb_true_iff in Hk; now apply mem_false in Hk.
Qed.

Lemma analyze_styles_excludes_noise_witness :
  (forall token count,
      In (token, count) (StyleFinder.colors (StyleFinder.analyze_tree noisy_page)) ->
      ~ In (Py.lower token) ["none"; "transparent"; "inherit"; "currentcolor"])
  /\ (forall token count,
        In (token, count) (StyleFinder.fonts (StyleFinder.analyze_tree noisy_page)) ->
        ~ In (Py.lower token)
             ["serif"; "sans-serif"; "monospace"; "cursive"; "fantasy"; "system-ui"]).
Proof.
  apply (analyze_styles_excludes_noise (fun _ => noisy_page) "Sample.txt" noisy_world
           (Io.World [("Sample.txt", "<p>")]
              ["Analyzing <style> tags..."; "Analyzing inline styles...";
               "Analyzing external stylesheet references..."; "Analyzing SVG elements..."])).
  vm_compute. reflexivity.
Defined.

Example noisy_page_tallies :
  StyleFinder.analyze_tree noisy_page
  = StyleFinder.Results [("#fff", 1)] [("Arial", 1)] [].
Proof. vm_compute. reflexivity. Qed.

(** ** Missing input file *)

(** C8: when the input path names no file, [clean_html] and
    [analyze_styles] raise [FileNotFoundError] with nothing printed and
    nothing written; both [main] functions catch it, print their message,
    return normally and leave every file as it was. *)
Theorem missing_input_file
    (BeautifulSoup : string -> soup) (prettify : soup -> string)
    (size_report : nat -> nat -> list string)
    (print_analysis : StyleFinder.results -> list string)
    (save_to_file : StyleFinder.results -> string)
    (traceback : exn -> list string)
    (input_file output_file : string) (w : Io.world) :
  assoc input_file (Io.files w) = None ->
  Scraper.clean_html BeautifulSoup prettify input_file w = (Raise FileNotFoundError, w)
  /\ StyleFinder.analyze_styles BeautifulSoup input_file w = (Raise FileNotFoundError, w)
  /\ Scraper.main BeautifulSoup prettify size_report input_file output_file w
     = (Ok tt,
        Io.World (Io.files w)
          (Io.console w
           ++ [("Cleaning HTML from " ++ input_file ++ "...")%string]
           ++ [("Error: Could not find " ++ input_file)%string]))
  /\ StyleFinder.main BeautifulSoup print_analysis save_to_file traceback
       input_file output_file w
     = (Ok tt,
        Io.World (Io.files w)
          (Io.console w
           ++ [("Analyzing styles from " ++ input_file ++ "...")%string]
           ++ [("This may take a moment for large files..." ++ Io.newline)%string]
           ++ [("Error: Could not find " ++ input_file)%string]
           ++ ["Make sure Sample.txt exists in the Backend directory."])).
Proof.
  intros Hmiss. repeat split.
  - unfold Scraper.clean_html, Io.seq, Io.read_file. now rewrite Hmiss.
  - unfold StyleFinder.analyze_styles, Io.seq, Io.read_file. now rewrite Hmiss.
  - unfold Scraper.main, Io.seq, Io.try_except, Io.read_file, Io.print.
    cbn [Io.files Io.console]. rewrite Hmiss. cbn [Io.files Io.console].
    now rewrite <- !app_assoc.
  - unfold StyleFinder.main, StyleFinder.analyze_styles, Io.seq, Io.try_except,
      Io.read_file, Io.print.
    cbn [Io.files Io.console]. rewrite Hmiss. cbn [Io.files Io.console].
    now rewrite <- !app_assoc.
Qed.

Lemma missing_input_file_witness :
  let w := Io.World [("other.txt", "x")] [] in
  Scraper.clean_html (fun _ => []) (fun _ => "") "Sample.txt" w
  = (Raise FileNotFoundError, w)
  /\ StyleFinder.analyze_styles (fun _ => []) "Sample.txt" w
     = (Raise FileNotFoundError, w)
  /\ Scraper.main (fun _ => []) (fun _ => "") (fun _ _ => []) "Sample.txt" "out.html" w
     = (Ok tt,
        Io.World (Io.files w)
          (Io.console w
           ++ [("Cleaning HTML from " ++ "Sample.txt" ++ "...")%string]
           ++ [("Error: Could not find " ++ "Sample.txt")%string]))
  /\ StyleFinder.main (fun _ => []) (fun _ => []) (fun _ => "") (fun _ => [])
       "Sample.txt" "out.html" w
     = (Ok tt,
        Io.World (Io.files w)
          (Io.console w
           ++ [("Analyzing styles from " ++ "Sample.txt" ++ "...")%string]
           ++ [("This may take a moment for large files..." ++ Io.newline)%string]
           ++ [("Error: Could not find " ++ "Sample.txt")%string]
           ++ ["Make sure Sample.txt exists in the Backend directory."])).
Proof.
  intros w.
  apply (missing_input_file (fun _ => []) (fun _ => "") (fun _ _ => [])
           (fun _ => []) (fun _ => "") (fun _ => []) "Sample.txt" "out.html" w).
  reflexivity.
Defined.

(** ** Named colours *)

(** C9: named-colour captures are filtered against the case-sensitive
    list [inherit, initial, unset, transparent, currentColor] when they
    are extracted: [color: initial;] yields nothing, [color: INITIAL;]
    yields [INITIAL], and that token also passes the final
    case-insensitive noise filter. *)
Theorem named_colors_case_sensitive_filter :
  (forall style_text token,
      In token (StyleFinder.named_colors style_text) ->
      ~ In token ["inherit"; "initial"; "unset"; "transparent"; "currentColor"])
  /\ StyleFinder.extract_colors_from_style "color: initial;" = []
  /\ StyleFinder.extract_colors_from_style "color: INITIAL;" = ["INITIAL"]
  /\ StyleFinder.colors
       (StyleFinder.analyze_tree
          [Element 1 (Tag "p" [("style", "color: INITIAL;")]) []])
     = [("INITIAL", 1)].
Proof.
  split; [|repeat split; vm_compute; reflexivity].
  intros style_text token Hin. unfold StyleFinder.named_colors in Hin.
  apply filter_In in Hin as [_ Hk]. apply negb_true_iff in Hk.
  now apply mem_false in Hk.
Qed.

(** ** The matcher *)

Lemma first_some_Some {A B : Type} (f : A -> option B) (l : list A) (y : B) :
  first_some f l = Some y -> exists x, In x l /\ f x = Some y.
Proof.
  induction l as [|a l IH]; simpl; [discriminate|].
  destruct (f a) eqn:E.
  - intros H. injection H as <-. exists a. auto.
  - intros H. destruct (IH H) as (x & Hin & Hx). exists x. auto.
Qed.

Lemma first_some_None {A B : Type} (f : A -> option B) (l : list A) :
  first_some f l = None <-> forall x, In x l -> f x = None.
Proof.
  induction l as [|a l IH]; simpl.
  - split; [intros _ x [] | reflexivity].
  - destruct (f a) eqn:E.
    + split; [discriminate|]. intros H. rewrite <- E. apply H. now left.
    + rewrite IH. split.
      * intros H x [<- | Hin]; auto.
      * intros H x Hin. apply H. now right.
Qed.

Lemma take_drop (n : nat) (s : string) : (Py.take n s ++ Py.drop n s)%string = s.
Proof.
  revert s. induction n as [|n IH]; intros [|c s]; simpl; try reflexivity.
  now rewrite IH.
Qed.

Lemma take_length (n : nat) (s : string) :
  n <= String.length s -> String.length (Py.take n s) = n.
Proof.
  revert s. induction n as [|n IH]; intros [|c s]; simpl; intros H; try lia.
  rewrite IH; lia.
Qed.

Lemma take_app_length (a b : string) : Py.take (String.length a) (a ++ b) = a.
Proof. induction a as [|c a IH]; simpl; [now destruct b | now rewrite IH]. Qed.

Lemma drop_app_length (a b : string) : Py.drop (String.length a) (a ++ b) = b.
Proof. induction a as [|c a IH]; simpl; [now destruct b | exact IH]. Qed.

Lemma string_app_length (a b : string) :
  String.length (a ++ b) = String.length a + String.length b.
Proof. induction a as [|c a IH]; simpl; [reflexivity | now rewrite IH]. Qed.

Lemma string_app_assoc (a b c : string) : ((a ++ b) ++ c = a ++ (b ++ c))%string.
Proof. induction a as [|x a IH]; simpl; [reflexivity | now rewrite IH]. Qed.

Lemma string_app_nil_r (a : string) : (a ++ "")%string = a.
Proof. induction a as [|x a IH]; simpl; [reflexivity | now rewrite IH]. Qed.

Lemma lit_match_length (ic : bool) (w s : string) :
  Re.lit_match ic w s = true -> String.length w <= String.length s.
Proof.
  revert s. induction w as [|a w IH]; intros [|b s]; simpl; try lia; try discriminate.
  intros H. apply andb_true_iff in H as [_ H]. apply IH in H. lia.
Qed.

Lemma run_length (ic : bool) (k : Re.cls) (hi : option nat) (s : string) :
  Re.run ic k hi s <= String.length s.
Proof.
  revert hi. induction s as [|c s IH]; intros hi.
  - destruct hi as [[|h]|]; simpl; lia.
  - destruct hi as [[|h]|]; simpl; try lia;
      destruct (Re.cls_match ic k c); simpl; try lia;
      match goal with |- S (Re.run _ _ ?h' _) <= _ => specialize (IH h') end; lia.
Qed.

Lemma run_cap (ic : bool) (k : Re.cls) (h : nat) (s : string) :
  Re.run ic k (Some h) s <= h.
Proof.
  revert h. induction s as [|c s IH]; intros [|h]; simpl; try lia.
  destruct (Re.cls_match ic k c); simpl; [|lia]. specialize (IH h). lia.
Qed.

Lemma run_all (ic : bool) (k : Re.cls) (hi : option nat) (s : string) (n : nat) :
  n <= Re.run ic k hi s -> all_chars (Re.cls_match ic k) (Py.take n s) = true.
Proof.
  revert hi s. induction n as [|n IH]; intros hi s Hn; [now destruct s|].
  destruct s as [|c s]; [destruct hi as [[|h]|]; simpl in Hn; lia|].
  assert (E : Re.cls_match ic k c = true
              /\ n <= Re.run ic k (option_map Nat.pred hi) s).
  { destruct hi as [[|h]|]; simpl in Hn; try lia;
      destruct (Re.cls_match ic k c); simpl in *; try lia; split; auto; lia. }
  destruct E as [Ec En]. simpl. rewrite Ec. simpl. eapply IH. exact En.
Qed.

Lemma down_to_In (lo n m : nat) : In m (Re.down_to lo n) -> lo <= m <= n.
Proof.
  induction n as [|n IH]; simpl.
  - destruct lo; simpl; [intros [<- | []]; lia | intros []].
  - destruct (S n <? lo) eqn:E; [intros []|].
    apply Nat.ltb_ge in E. intros [<- | H]; [lia|]. apply IH in H. lia.
Qed.

(** What an item may consume is a prefix of the subject. *)
Lemma candidates_prefix ic i prev s w :
  In w (Re.candidates ic i prev s) -> s = (w ++ Py.drop (String.length w) s)%string.
Proof.
  assert (T : forall n, n <= String.length s ->
              s = (Py.take n s ++ Py.drop (String.length (Py.take n s)) s)%string).
  { intros n Hn. rewrite take_length by exact Hn. now rewrite take_drop. }
  destruct i as [lit | ws | k lo hi | ]; simpl.
  - destruct (Re.lit_match ic lit s) eqn:E; [|intros []].
    intros [<- | []]. apply T. now apply lit_match_length in E.
  - intros H. apply in_flat_map in H as (lit & _ & H).
    destruct (Re.lit_match ic lit s) eqn:E; [|destruct H].
    destruct H as [<- | []]. apply T. now apply lit_match_length in E.
  - intros H. apply in_map_iff in H as (n & <- & H). apply down_to_In in H.
    apply T. pose proof (run_length ic k hi s). lia.
  - destruct (xorb _ _); [|intros []]. intros [<- | []]. reflexivity.
Qed.

Lemma match_here_cons ic cap i r prev s caps rest :
  Re.match_here ic ((cap, i) :: r) prev s = Some (caps, rest) ->
  exists w caps',
    In w (Re.candidates ic i prev s)
    /\ Re.match_here ic r (Re.last_char w prev) (Py.drop (String.length w) s)
       = Some (caps', rest)
    /\ caps = (if cap then w :: caps' else caps').
Proof.
  cbn [Re.match_here]. intros H. apply first_some_Some in H as (w & Hin & H).
  destruct (Re.match_here ic r _ _) as [[caps' rest']|] eqn:E; [|discriminate].
  injection H as <- <-. now exists w, caps'.
Qed.

(** A match consumes a prefix of the subject. *)
Lemma match_here_prefix ic r prev s caps rest :
  Re.match_here ic r prev s = Some (caps, rest) ->
  exists consumed, s = (consumed ++ rest)%string.
Proof.
  revert prev s caps. induction r as [|[cap i] r IH]; intros prev s caps H.
  - simpl in H. injection H as _ <-. now exists EmptyString.
  - apply match_here_cons in H as (w & caps' & Hin & H & _).
    apply IH in H as (consumed & Hc). apply candidates_prefix in Hin.
    exists (w ++ consumed)%string. rewrite string_app_assoc, <- Hc. exact Hin.
Qed.

Lemma scan_at ic r prev c s :
  Re.scan ic r prev (String c s) 0
  = match Re.match_here ic r prev (String c s) with
    | Some (caps, rest) =>
        let len := String.length (String c s) - String.length rest in
        (Py.take len (String c s), caps) :: Re.scan ic r (Some c) s (len - 1)
    | None => Re.scan ic r (Some c) s 0
    end.
Proof. reflexivity. Qed.

Lemma scan_skip ic r prev c s k :
  Re.scan ic r prev (String c s) (S k) = Re.scan ic r (Some c) s k.
Proof. reflexivity. Qed.

Lemma consumed_length (consumed rest : string) :
  String.length (consumed ++ rest) - String.length rest = String.length consumed.
Proof. rewrite string_app_length. lia. Qed.

(** Every match reported by the scan lies in the text, where the
    pattern matches. *)
Lemma scan_sound_at ic r prev s skip whole caps :
  In (whole, caps) (Re.scan ic r prev s skip) ->
  exists before prev' rest,
    s = (before ++ whole ++ rest)%string
    /\ Re.match_here ic r prev' (whole ++ rest) = Some (caps, rest).
Proof.
  revert prev skip. induction s as [|c s IH]; intros prev skip.
  - simpl. destruct skip; [|intros []].
    destruct (Re.match_here ic r prev "") as [[caps' rest]|] eqn:E; [|intros []].
    intros [H | []]. injection H as <- <-.
    destruct (match_here_prefix _ _ _ _ _ _ E) as (consumed & Hc).
    destruct consumed; [|discriminate]. simpl in Hc. subst rest.
    now exists EmptyString, prev, EmptyString.
  - assert (Hlater : forall prev' skip',
               In (whole, caps) (Re.scan ic r prev' s skip') ->
               exists before prev'' rest,
                 String c s = (before ++ whole ++ rest)%string
                 /\ Re.match_here ic r prev'' (whole ++ rest) = Some (caps, rest)).
    { intros prev' skip' H. destruct (IH _ _ H) as (before & p & rest & -> & Hm).
      now exists (String c before), p, rest. }
    destruct skip as [|k]; [|rewrite scan_skip; apply Hlater].
    rewrite scan_at.
    destruct (Re.match_here ic r prev (String c s)) as [[caps' rest]|] eqn:E;
      [|apply Hlater].
    cbv zeta. intros [H | H]; [|eapply Hlater; exact H].
    destruct (match_here_prefix _ _ _ _ _ _ E) as (consumed & Hc).
    rewrite Hc, consumed_length, take_app_length in H. injection H as <- <-.
    exists EmptyString, prev, rest. split; [exact Hc | now rewrite <- Hc].
Qed.

(** ** Hex colours *)

Lemma hexdigit_class (c : ascii) : Re.cls_match true Re.hexdigit c = hex_digit c.
Proof. each_char c. Qed.

Lemma hex_digit_word (c : ascii) : hex_digit c = true -> Py.isword c = true.
Proof. each_char c. Qed.

Lemma hash_only (b : ascii) : Re.chr_eq true "#" b = true -> b = "#"%char.
Proof. each_char b. Qed.

Lemma all_chars_ext (p q : ascii -> bool) (s : string) :
  (forall c, p c = q c) -> all_chars p s = all_chars q s.
Proof. intros H. induction s as [|c s IH]; simpl; [reflexivity | now rewrite H, IH]. Qed.

Lemma string_app_cancel_r (a b r : string) :
  (a ++ r)%string = (b ++ r)%string -> a = b.
Proof.
  intros H.
  assert (L : String.length a = String.length b).
  { apply (f_equal String.length) in H. rewrite !string_app_length in H. lia. }
  rewrite <- (take_app_length a r), H, L. apply take_app_length.
Qed.

Lemma lit_candidates ic lit prev s w :
  In w (Re.candidates ic (Re.Lit lit) prev s) ->
  w = Py.take (String.length lit) s /\ Re.lit_match ic lit s = true.
Proof.
  cbn [Re.candidates]. destruct (Re.lit_match ic lit s); [|intros []].
  intros [<- | []]. auto.
Qed.

Lemma rep_candidates ic k lo hi prev s w :
  In w (Re.candidates ic (Re.Rep k lo hi) prev s) ->
  exists n, w = Py.take n s /\ lo <= n <= Re.run ic k hi s.
Proof.
  cbn [Re.candidates]. intros H. apply in_map_iff in H as (n & <- & Hn).
  apply down_to_In in Hn. now exists n.
Qed.

Lemma bnd_candidates ic prev s w :
  In w (Re.candidates ic Re.Bnd prev s) ->
  w = EmptyString /\ xorb (Re.is_word prev) (Re.is_word (Re.head_char s)) = true.
Proof.
  cbn [Re.candidates]. destruct (xorb _ _); [|intros []].
  intros [<- | []]. auto.
Qed.

(** A match of [hex_pattern] consumes [#] and then 3 to 8 hex digits. *)
Lemma hex_match_shape prev s caps rest :
  Re.match_here true StyleFinder.hex_pattern prev s = Some (caps, rest) ->
  exists digits,
    s = (String "#" digits ++ rest)%string
    /\ 3 <= String.length digits <= 8
    /\ all_chars hex_digit digits = true.
Proof.
  unfold StyleFinder.hex_pattern, Re.plain. intros H.
  apply match_here_cons in H as (w1 & c1 & H1 & H & _).
  apply match_here_cons in H as (w2 & c2 & H2 & H & _).
  apply match_here_cons in H as (w3 & c3 & H3 & H & _).
  simpl in H. injection H as _ Hrest.
  pose proof (candidates_prefix _ _ _ _ _ H2) as P2.
  pose proof (candidates_prefix _ _ _ _ _ H3) as P3.
  apply bnd_candidates in H3 as [-> _]. clear P3.
  apply lit_candidates in H1 as [-> H1].
  destruct s as [|b s]; [discriminate H1|].
  cbn [Re.lit_match] in H1. apply andb_true_iff in H1 as [Eb _].
  apply hash_only in Eb. subst b.
  cbn [String.length Py.drop Py.take] in *.
  apply rep_candidates in H2 as (n & -> & Hn).
  exists (Py.take n s).
  assert (Hlen : n <= String.length s).
  { pose proof (run_length true Re.hexdigit (Some 8) s). lia. }
  repeat split.
  - rewrite <- Hrest. simpl. f_equal. exact P2.
  - rewrite take_length by exact Hlen. lia.
  - rewrite take_length by exact Hlen.
    pose proof (run_cap true Re.hexdigit 8 s). lia.
  - rewrite <- (all_chars_ext _ _ _ hexdigit_class).
    eapply run_all. exact (proj2 Hn).
Qed.

Lemma run_full ic k h (d rest : string) :
  all_chars (Re.cls_match ic k) d = true ->
  String.length d <= h ->
  Re.head_char rest = None
  \/ (exists c, Re.head_char rest = Some c /\ Re.cls_match ic k c = false)
  \/ String.length d = h ->
  Re.run ic k (Some h) (d ++ rest) = String.length d.
Proof.
  revert h. induction d as [|c d IH]; intros h Hall Hlen Hstop.
  - simpl. destruct h as [|h]; [now destruct rest|].
    destruct Hstop as [Hs | [(c & Hs & Hc) | Hs]]; [| |discriminate Hs].
    + destruct rest; [reflexivity | discriminate].
    + destruct rest as [|c' rest]; [reflexivity|]. simpl in Hs. injection Hs as ->.
      simpl. now rewrite Hc.
  - simpl in Hall. apply andb_true_iff in Hall as [Hc Hall].
    destruct h as [|h]; [simpl in Hlen; lia|].
    simpl. rewrite Hc. f_equal. apply IH; [assumption | simpl in Hlen; lia |].
    destruct Hstop as [Hs | [Hs | Hs]];
      [now left | right; now left | right; right; simpl in Hs; lia].
Qed.

Lemma down_to_head (lo n : nat) :
  lo <= n -> exists l, Re.down_to lo n = n :: l.
Proof.
  intros H. destruct n as [|n]; simpl.
  - assert (lo = 0) by lia. subst. now exists [].
  - destruct (S n <? lo) eqn:E; [apply Nat.ltb_lt in E; lia|]. eauto.
Qed.

Lemma last_char_hex (d : string) (prev : option ascii) :
  d <> EmptyString -> all_chars hex_digit d = true ->
  Re.is_word (Re.last_char d prev) = true.
Proof.
  revert prev. induction d as [|c d IH]; intros prev Hne Hall; [congruence|].
  simpl in Hall. apply andb_true_iff in Hall as [Hc Hall]. simpl.
  destruct d as [|c' d]; [simpl; now apply hex_digit_word|].
  apply IH; [discriminate | assumption].
Qed.

Lemma scan_skip_all ic r prev (s : string) :
  Re.scan ic r prev s (String.length s) = Re.scan ic r (Re.last_char s prev) "" 0.
Proof.
  revert prev. induction s as [|c s IH]; intros prev; [reflexivity|].
  cbn [String.length]. rewrite scan_skip. apply IH.
Qed.

Lemma match_here_unfold ic cap i r prev s :
  Re.match_here ic ((cap, i) :: r) prev s
  = first_some
      (fun w =>
         match Re.match_here ic r (Re.last_char w prev) (Py.drop (String.length w) s) with
         | Some (caps, rest) => Some (if cap then w :: caps else caps, rest)
         | None => None
         end)
      (Re.candidates ic i prev s).
Proof. reflexivity. Qed.

(** Alone in the text, [#] followed by any 3 to 8 hex digits is one hex
    token: 5 and 7 digits too. *)
Lemma hex_colors_alone (digits : string) :
  3 <= String.length digits <= 8 ->
  all_chars hex_digit digits = true ->
  StyleFinder.hex_colors (String "#" digits) = [String "#" digits].
Proof.
  intros Hlen Hall.
  assert (Hne : digits <> EmptyString) by (destruct digits; [simpl in Hlen; lia | discriminate]).
  assert (Hm : Re.match_here true StyleFinder.hex_pattern None (String "#" digits)
               = Some ([], EmptyString)).
  { unfold StyleFinder.hex_pattern, Re.plain.
    rewrite match_here_unfold.
    change (Re.candidates true (Re.Lit "#") None (String "#" digits)) with ["#"].
    cbn [first_some String.length Py.drop Re.last_char].
    rewrite match_here_unfold. cbn [Re.candidates].
    assert (R : Re.run true Re.hexdigit (Some 8) digits = String.length digits).
    { rewrite <- (string_app_nil_r digits) at 1.
      apply run_full; [now rewrite (all_chars_ext _ _ _ hexdigit_class) | lia | now left]. }
    rewrite R.
    destruct (down_to_head 3 (String.length digits) (proj1 Hlen)) as (l & ->).
    cbn [map first_some].
    assert (T : Py.take (String.length digits) digits = digits).
    { rewrite <- (string_app_nil_r digits) at 2. apply take_app_length. }
    rewrite T.
    assert (D : Py.drop (String.length digits) digits = EmptyString).
    { rewrite <- (string_app_nil_r digits) at 2. apply drop_app_length. }
    rewrite D.
    rewrite match_here_unfold. cbn [Re.candidates Re.head_char Re.is_word].
    rewrite last_char_hex by assumption.
    cbn [xorb first_some Re.match_here String.length Py.drop].
    reflexivity. }
  unfold StyleFinder.hex_colors, Re.findall, Re.finditer.
  rewrite scan_at, Hm. cbv zeta. cbn [map fst].
  replace (String.length (String "#" digits) - String.length "") with
    (S (String.length digits)) by (simpl; lia).
  cbn [Py.take].
  assert (T : Py.take (String.length digits) digits = digits).
  { rewrite <- (string_app_nil_r digits) at 2. apply take_app_length. }
  rewrite T. f_equal.
  replace (S (String.length digits) - 1) with (String.length digits) by lia.
  rewrite scan_skip_all. reflexivity.
Qed.

(** C4, amended: a hex token is [#] followed by 3 to 8 hexadecimal
    digits, every length in that range included; hex tokens come first in
    the result, then the [rgb()/rgba()], [hsl()/hsla()] and named-colour
    matches, with nothing removed across the four lists. *)
Theorem hex_tokens_three_to_eight_digits (style_text : string) :
  (forall token,
      In token (StyleFinder.hex_colors style_text) ->
      exists digits,
        token = String "#" digits
        /\ 3 <= String.length digits <= 8
        /\ all_chars hex_digit digits = true)
  /\ (forall digits,
        3 <= String.length digits <= 8 ->
        all_chars hex_digit digits = true ->
        StyleFinder.hex_colors (String "#" digits) = [String "#" digits])
  /\ StyleFinder.extract_colors_from_style style_text
     = StyleFinder.hex_colors style_text ++ StyleFinder.rgb_colors style_text
       ++ StyleFinder.hsl_colors style_text ++ StyleFinder.named_colors style_text.
Proof.
  split; [|split].
  - intros token Hin. unfold StyleFinder.hex_colors, Re.findall, Re.finditer in Hin.
    apply in_map_iff in Hin as ([whole caps] & <- & Hin). cbn [fst].
    apply scan_sound_at in Hin as (before & prev & rest & _ & Hm).
    apply hex_match_shape in Hm as (digits & Hs & Hlen & Hall).
    exists digits. split; [|split; assumption].
    change (String "#" digits ++ rest)%string with (String "#" (digits ++ rest)) in Hs.
    change (String "#" (digits ++ rest)) with (String "#" digits ++ rest)%string in Hs.
    now apply string_app_cancel_r in Hs.
  - exact hex_colors_alone.
  - unfold StyleFinder.extract_colors_from_style. cbn [app].
    now rewrite <- !app_assoc.
Qed.

(** C4 as stated fails: five and seven hex digits are captured too. *)
Lemma hex_five_and_seven_digits_captured :
  In "#12345" (StyleFinder.extract_colors_from_style "a{color:#12345}")
  /\ In "#1234567" (StyleFinder.extract_colors_from_style "a{color:#1234567}")
  /\ ~ In (String.length "12345") [3; 4; 6; 8]
  /\ ~ In (String.length "1234567") [3; 4; 6; 8].
Proof.
  split; [vm_compute; auto | split; [vm_compute; auto | split]];
    simpl; intros H; repeat destruct H as [H | H]; try discriminate H; exact H.
Qed.

(** ** Font families *)

Lemma space_class (c : ascii) : Re.cls_match true Re.space c = Py.isspace c.
Proof. each_char c. Qed.

Lemma not_semicolon_class (c : ascii) :
  Re.cls_match true (Re.not_char ";") c = negb (Ascii.eqb c ";").
Proof. each_char c. Qed.

Lemma run_none_all ic k (d : string) :
  all_chars (Re.cls_match ic k) d = true ->
  Re.run ic k None d = String.length d.
Proof.
  induction d as [|c d IH]; [reflexivity|]. simpl. intros H.
  apply andb_true_iff in H as [Hc H]. rewrite Hc. f_equal. now apply IH.
Qed.

Lemma run_stop ic k hi c s :
  Re.cls_match ic k c = false -> Re.run ic k hi (String c s) = 0.
Proof. intros H. destruct hi as [[|h]|]; simpl; try reflexivity; now rewrite H. Qed.

(** Where the text does not show an [f], [font_pattern] cannot start. *)
Lemma font_no_match prev c s :
  not_f c = true -> Re.match_here true StyleFinder.font_pattern prev (String c s) = None.
Proof.
  intros H. unfold StyleFinder.font_pattern, Re.plain. rewrite match_here_unfold.
  cbn [Re.candidates Re.lit_match].
  replace (Re.chr_eq true "f" c) with false; [reflexivity|].
  unfold not_f in H. apply negb_true_iff in H. unfold Re.chr_eq.
  rewrite Ascii.eqb_sym. symmetry. exact H.
Qed.

Lemma font_scan_prefix prev (pre s : string) :
  all_chars not_f pre = true ->
  Re.scan true StyleFinder.font_pattern prev (pre ++ s) 0
  = Re.scan true StyleFinder.font_pattern (Re.last_char pre prev) s 0.
Proof.
  revert prev. induction pre as [|c pre IH]; intros prev H; [reflexivity|].
  simpl in H. apply andb_true_iff in H as [Hc H].
  change (String c pre ++ s)%string with (String c (pre ++ s)).
  rewrite scan_at, font_no_match by exact Hc. cbn [Re.last_char]. now apply IH.
Qed.

(** A declaration that runs to the end of the text without [;] is
    captured whole. *)
Lemma font_match_to_end prev c (value : string) :
  Py.isspace c = false ->
  all_chars (fun x => negb (Ascii.eqb x ";")) (String c value) = true ->
  Re.match_here true StyleFinder.font_pattern prev ("font-family:" ++ String c value)
  = Some ([String c value], EmptyString).
Proof.
  intros Hsp Hsemi. set (v := String c value).
  assert (Hlen : 1 <= String.length v) by (subst v; simpl; lia).
  unfold StyleFinder.font_pattern, Re.plain, Re.group.
  rewrite match_here_unfold.
  change (Re.candidates true (Re.Lit "font-family") prev ("font-family:" ++ v))
    with ["font-family"].
  cbn [first_some]. change (Py.drop (String.length "font-family") ("font-family:" ++ v))
    with (String ":" v).
  rewrite match_here_unfold. cbn [Re.candidates].
  rewrite run_stop by reflexivity. cbn [Re.down_to Nat.ltb Nat.leb map Py.take first_some
    String.length Py.drop].
  rewrite match_here_unfold.
  change (Re.candidates true (Re.Lit ":") (Re.last_char "" (Re.last_char "font-family" prev))
            (String ":" v)) with [":"].
  cbn [first_some String.length Py.drop].
  rewrite match_here_unfold. cbn [Re.candidates]. subst v.
  rewrite run_stop by (now rewrite space_class).
  cbn [Re.down_to Nat.ltb Nat.leb map Py.take first_some String.length Py.drop].
  set (v := String c value) in *.
  rewrite match_here_unfold. cbn [Re.candidates].
  rewrite run_none_all by (now rewrite (all_chars_ext _ _ _ not_semicolon_class)).
  destruct (down_to_head 1 (String.length v) Hlen) as (l & ->).
  cbn [map first_some].
  assert (T : Py.take (String.length v) v = v).
  { rewrite <- (string_app_nil_r v) at 2. apply take_app_length. }
  assert (D : Py.drop (String.length v) v = EmptyString).
  { rewrite <- (string_app_nil_r v) at 2. apply drop_app_length. }
  rewrite T, D. reflexivity.
Qed.

(** A declaration with no [f] before it, whose value starts with a
    non-blank character and holds no [;], is captured to the end of the
    text, split and cleaned. *)
Lemma font_family_to_end (pre value : string) (c : ascii) :
  all_chars not_f pre = true ->
  Py.isspace c = false ->
  all_chars (fun x => negb (Ascii.eqb x ";")) (String c value) = true ->
  StyleFinder.extract_fonts_from_style (pre ++ "font-family:" ++ String c value)
  = map StyleFinder.clean_font (Py.split "," (String c value)).
Proof.
  intros Hpre Hsp Hsemi.
  unfold StyleFinder.extract_fonts_from_style, Re.findall_groups, Re.finditer.
  rewrite font_scan_prefix by exact Hpre.
  change ("font-family:" ++ String c value)%string
    with (String "f" ("ont-family:" ++ String c value)).
  rewrite scan_at.
  change (String "f" ("ont-family:" ++ String c value))
    with ("font-family:" ++ String c value)%string.
  rewrite font_match_to_end by assumption. cbv zeta.
  replace (String.length ("font-family:" ++ String c value) - String.length "" - 1)
    with (String.length ("ont-family:" ++ String c value)) by (simpl; lia).
  rewrite scan_skip_all.
  cbn [Re.scan map snd flat_map StyleFinder.group1 nth].
  change (Re.match_here true StyleFinder.font_pattern
            (Re.last_char ("ont-family:" ++ String c value) (Some "f"%char)) "")
    with (@None (list string * string)).
  cbn [map snd flat_map StyleFinder.group1 nth]. apply app_nil_r.
Qed.


Lemma run_none_stop ic k (s : string) :
  let n := Re.run ic k None s in
  Py.drop n s = EmptyString
  \/ exists c s', Py.drop n s = String c s' /\ Re.cls_match ic k c = false.
Proof.
  induction s as [|c s IH]; [now left|].
  cbn [Re.run option_map]. destruct (Re.cls_match ic k c) eqn:E.
  - cbn [Py.drop]. exact IH.
  - right. exists c, s. auto.
Qed.

(** A pattern that ends with an unbounded repetition takes the longest
    run. *)
Lemma rep_last_greedy ic k lo prev s caps rest :
  Re.match_here ic [Re.group (Re.Rep k lo None)] prev s = Some (caps, rest) ->
  let n := Re.run ic k None s in
  caps = [Py.take n s] /\ rest = Py.drop n s /\ lo <= n.
Proof.
  unfold Re.group. rewrite match_here_unfold. cbn [Re.candidates].
  destruct (Nat.le_gt_cases lo (Re.run ic k None s)) as [Hle | Hgt].
  - destruct (down_to_head lo _ Hle) as (l & ->). cbn [map first_some Re.match_here].
    rewrite take_length by apply run_length. intros H. injection H as <- <-. auto.
  - replace (Re.down_to lo (Re.run ic k None s)) with (@nil nat); [discriminate|].
    destruct (Re.run ic k None s) as [|n]; simpl.
    + destruct lo; [lia | reflexivity].
    + destruct (Nat.ltb_spec (S n) lo); [reflexivity | lia].
Qed.

(** What a match of [font_pattern] captures: a non-empty value without
    [;] that ends where the text ends or where the next [;] stands. *)
Lemma font_match_shape prev s caps rest :
  Re.match_here true StyleFinder.font_pattern prev s = Some (caps, rest) ->
  exists head value,
    s = (head ++ value ++ rest)%string
    /\ caps = [value]
    /\ value <> EmptyString
    /\ all_chars (fun c => negb (Ascii.eqb c ";")) value = true
    /\ (rest = EmptyString \/ exists rest', rest = String ";" rest').
Proof.
  unfold StyleFinder.font_pattern, Re.plain. intros H.
  apply match_here_cons in H as (w1 & c1 & H1 & H & ->).
  apply match_here_cons in H as (w2 & c2 & H2 & H & ->).
  apply match_here_cons in H as (w3 & c3 & H3 & H & ->).
  apply match_here_cons in H as (w4 & c4 & H4 & H & ->).
  apply candidates_prefix in H1, H2, H3, H4.
  set (s4 := Py.drop (String.length w4) _) in *.
  apply rep_last_greedy in H. cbv zeta in H. destruct H as (-> & -> & Hn).
  exists (w1 ++ w2 ++ w3 ++ w4)%string, (Py.take (Re.run true (Re.not_char ";") None s4) s4).
  split; [|split; [reflexivity|split; [|split]]].
  - rewrite !string_app_assoc, take_drop. rewrite <- H4, <- H3, <- H2. exact H1.
  - intros E. apply (f_equal String.length) in E.
    rewrite take_length in E by apply run_length. simpl in E. lia.
  - rewrite <- (all_chars_ext _ _ _ not_semicolon_class).
    eapply run_all. apply Nat.le_refl.
  - destruct (run_none_stop true (Re.not_char ";") s4) as [E | (c & s' & E & Hc)];
      [now left|].
    right. exists s'. rewrite E. f_equal.
    rewrite not_semicolon_class in Hc. apply negb_false_iff in Hc.
    now apply Ascii.eqb_eq in Hc.
Qed.

(** C10: the value [extract_fonts_from_style] captures after
    [font-family:] runs to the next [;] or, when there is none, to the end
    of the whole text, not to the end of the declaration.  So a style text
    whose declaration is not closed by [;] is captured to its end (shown
    for a declaration with no [f] before it and a value that starts with a
    non-blank character), and [p{font-family:Arial}] gives the single
    token [Arial}]. *)
Theorem font_family_without_semicolon :
  (forall style_text value,
      In value (map StyleFinder.group1
                    (Re.findall_groups true StyleFinder.font_pattern style_text)) ->
      exists before after,
        style_text = (before ++ value ++ after)%string
        /\ value <> EmptyString
        /\ all_chars (fun c => negb (Ascii.eqb c ";")) value = true
        /\ (after = EmptyString \/ exists after', after = String ";" after'))
  /\ (forall pre value c,
        all_chars not_f pre = true ->
        Py.isspace c = false ->
        all_chars (fun x => negb (Ascii.eqb x ";")) (String c value) = true ->
        StyleFinder.extract_fonts_from_style (pre ++ "font-family:" ++ String c value)
        = map StyleFinder.clean_font (Py.split "," (String c value)))
  /\ StyleFinder.extract_fonts_from_style "p{font-family:Arial}" = ["Arial}"].
Proof.
  split; [|split; [exact font_family_to_end | vm_compute; reflexivity]].
  intros style_text value Hin. apply in_map_iff in Hin as (caps & <- & Hin).
  unfold Re.findall_groups, Re.finditer in Hin.
  apply in_map_iff in Hin as ([whole caps'] & E & Hin). cbn [snd] in E. subst caps'.
  apply scan_sound_at in Hin as (before & prev & rest & Hs & Hm).
  apply font_match_shape in Hm as (head & v & Hw & -> & Hne & Hall & Hrest).
  exists (before ++ head)%string, rest. cbn [StyleFinder.group1 nth].
  repeat split; try assumption.
  rewrite Hs, Hw, !string_app_assoc. reflexivity.
Qed.

(** ** Trees *)

Lemma node_forest_ind (P : node -> Prop) (Q : list node -> Prop) :
  Q [] ->
  (forall n l, P n -> Q l -> Q (n :: l)) ->
  (forall s, P (Text s)) ->
  (forall i t cs, Q cs -> P (Element i t cs)) ->
  (forall n, P n) /\ (forall l, Q l).
Proof.
  intros Q_nil Q_cons P_text P_element. split.
  - exact (node_induction P Q Q_nil Q_cons P_text P_element).
  - exact (forest_induction P Q Q_nil Q_cons P_text P_element).
Qed.

Lemma ids_cons (n : node) (l : list node) : ids (n :: l) = node_ids n ++ ids l.
Proof. unfold ids, descendants, node_ids. simpl. now rewrite map_app. Qed.

Lemma ids_app (l1 l2 : list node) : ids (l1 ++ l2) = ids l1 ++ ids l2.
Proof.
  induction l1 as [|n l1 IH]; [reflexivity|].
  simpl. now rewrite !ids_cons, IH, app_assoc.
Qed.

Lemma node_ids_element i t cs : node_ids (Element i t cs) = i :: ids cs.
Proof. reflexivity. Qed.

Lemma first_some_app {A B : Type} (f : A -> option B) (l1 l2 : list A) :
  first_some f (l1 ++ l2)
  = match first_some f l1 with Some y => Some y | None => first_some f l2 end.
Proof.
  induction l1 as [|a l1 IH]; simpl; [reflexivity|]. now destruct (f a).
Qed.

Lemma locate_in_element e i t cs :
  locate_in e (Element i t cs)
  = if i =? e then Some ([], Element i t cs)
    else match first_some (locate_in e) cs with
         | Some (anc, x) => Some (anc ++ [(i, t)], x)
         | None => None
         end.
Proof. reflexivity. Qed.

Lemma locate_cons (n : node) (l : list node) (e : nat) :
  locate (n :: l) e
  = match locate_in e n with Some y => Some y | None => locate l e end.
Proof. reflexivity. Qed.

(** An identity is found exactly when it occurs, and what is found is the
    element carrying it. *)
Lemma locate_iff_in :
  (forall n e, (In e (node_ids n) ->
                exists anc t cs, locate_in e n = Some (anc, Element e t cs))
               /\ (~ In e (node_ids n) -> locate_in e n = None))
  /\ (forall l e, (In e (ids l) ->
                   exists anc t cs, locate l e = Some (anc, Element e t cs))
                  /\ (~ In e (ids l) -> locate l e = None)).
Proof.
  apply (node_forest_ind
           (fun n => forall e,
                (In e (node_ids n) ->
                 exists anc t cs, locate_in e n = Some (anc, Element e t cs))
                /\ (~ In e (node_ids n) -> locate_in e n = None))
           (fun l => forall e,
                (In e (ids l) ->
                 exists anc t cs, locate l e = Some (anc, Element e t cs))
                /\ (~ In e (ids l) -> locate l e = None))).
  - intros e. split; [intros [] | reflexivity].
  - intros n l Hn Hl e. rewrite ids_cons, locate_cons.
    destruct (Hn e) as [Hn1 Hn2]. destruct (Hl e) as [Hl1 Hl2]. split.
    + intros H. destruct (in_dec Nat.eq_dec e (node_ids n)) as [Hi | Hi].
      * destruct (Hn1 Hi) as (anc & t & cs & ->). eauto.
      * rewrite (Hn2 Hi). apply Hl1. apply in_app_or in H. tauto.
    + intros H. rewrite Hn2, Hl2; auto; intros Hi; apply H, in_or_app; auto.
  - intros s e. split; [intros [] | reflexivity].
  - intros i t cs Hcs e. rewrite node_ids_element, locate_in_element.
    destruct (Hcs e) as [H1 H2]. destruct (Nat.eqb_spec i e) as [-> | Hne]; split.
    + intros _. now eexists _, _, _.
    + intros H. exfalso. apply H. now left.
    + intros [-> | H]; [congruence|].
      destruct (H1 H) as (anc & t' & cs' & E). unfold locate in E. rewrite E.
      now eexists _, _, _.
    + intros H. unfold locate in H2. rewrite H2; [reflexivity|].
      intros Hi. apply H. now right.
Qed.

Lemma locate_in_ids (s : soup) (e : nat) :
  In e (ids s) -> exists anc t cs, locate s e = Some (anc, Element e t cs).
Proof. apply locate_iff_in. Qed.

Lemma locate_not_in (s : soup) (e : nat) : ~ In e (ids s) -> locate s e = None.
Proof. apply locate_iff_in. Qed.

Lemma locate_some_in (s : soup) (e : nat) r : locate s e = Some r -> In e (ids s).
Proof.
  intros H. destruct (in_dec Nat.eq_dec e (ids s)) as [Hi | Hi]; [assumption|].
  rewrite (locate_not_in _ _ Hi) in H. discriminate.
Qed.

Lemma locate_element (s : soup) (e : nat) anc x :
  locate s e = Some (anc, x) -> exists t cs, x = Element e t cs.
Proof.
  intros H. pose proof (locate_some_in _ _ _ H) as Hi.
  destruct (locate_in_ids _ _ Hi) as (anc' & t & cs & E).
  rewrite E in H. injection H as _ <-. eauto.
Qed.

Lemma locate_in_not_in (n : node) (e : nat) : ~ In e (node_ids n) -> locate_in e n = None.
Proof. apply locate_iff_in. Qed.

Lemma locate_in_some_in (n : node) (e : nat) r : locate_in e n = Some r -> In e (node_ids n).
Proof.
  intros H. destruct (in_dec Nat.eq_dec e (node_ids n)) as [Hi | Hi]; [assumption|].
  rewrite (locate_in_not_in _ _ Hi) in H. discriminate.
Qed.

(** ** [decompose] *)

Lemma decompose_cons (x : nat) (n : node) (l : list node) :
  decompose x (n :: l) = prune x n ++ decompose x l.
Proof. reflexivity. Qed.

Lemma prune_element x i t cs :
  prune x (Element i t cs)
  = if i =? x then [] else [Element i t (decompose x cs)].
Proof. reflexivity. Qed.

(** What is left after a [decompose] was there before, and the
    decomposed object is not. *)
Lemma decompose_ids :
  (forall n x y, In y (ids (prune x n)) -> In y (node_ids n) /\ y <> x)
  /\ (forall l x y, In y (ids (decompose x l)) -> In y (ids l) /\ y <> x).
Proof.
  apply (node_forest_ind
           (fun n => forall x y, In y (ids (prune x n)) -> In y (node_ids n) /\ y <> x)
           (fun l => forall x y, In y (ids (decompose x l)) -> In y (ids l) /\ y <> x)).
  - intros x y [].
  - intros n l Hn Hl x y. rewrite decompose_cons, ids_app, ids_cons.
    intros H. apply in_app_or in H as [H | H].
    + apply Hn in H as [H1 H2]. split; [apply in_or_app; now left | assumption].
    + apply Hl in H as [H1 H2]. split; [apply in_or_app; now right | assumption].
  - intros s x y [].
  - intros i t cs Hcs x y. rewrite prune_element, node_ids_element.
    destruct (Nat.eqb_spec i x) as [-> | Hne]; [intros []|].
    rewrite ids_cons, node_ids_element, app_nil_r.
    intros [<- | H]; [split; [now left | assumption]|].
    apply Hcs in H as [H1 H2]. split; [now right | assumption].
Qed.

Lemma decompose_ids_incl (s : soup) (x y : nat) :
  In y (ids (decompose x s)) -> In y (ids s) /\ y <> x.
Proof. apply decompose_ids. Qed.

Lemma NoDup_app_inv {A : Type} (l1 l2 : list A) :
  NoDup (l1 ++ l2) ->
  NoDup l1 /\ NoDup l2 /\ (forall a, In a l1 -> ~ In a l2).
Proof.
  induction l1 as [|a l1 IH]; simpl; intros H.
  - repeat split; [constructor | assumption | intros a []].
  - inversion H as [|? ? Hn Hd]; subst. destruct (IH Hd) as (H1 & H2 & H3).
    repeat split; [|assumption|].
    + constructor; [|assumption]. intros Hi. apply Hn, in_or_app. now left.
    + intros b [<- | Hb]; [|now apply H3].
      intros Hi. apply Hn, in_or_app. now right.
Qed.

(** Identities stay distinct. *)
Lemma decompose_NoDup :
  (forall n x, NoDup (node_ids n) -> NoDup (ids (prune x n)))
  /\ (forall l x, NoDup (ids l) -> NoDup (ids (decompose x l))).
Proof.
  apply (node_forest_ind
           (fun n => forall x, NoDup (node_ids n) -> NoDup (ids (prune x n)))
           (fun l => forall x, NoDup (ids l) -> NoDup (ids (decompose x l)))).
  - intros x _. constructor.
  - intros n l Hn Hl x. rewrite decompose_cons, ids_app, ids_cons. intros H.
    apply NoDup_app_inv in H as (H1 & H2 & H3).
    apply NoDup_app; [now apply Hn | now apply Hl |].
    intros a Ha Hb. apply decompose_ids in Ha as [Ha _].
    apply decompose_ids in Hb as [Hb _]. exact (H3 a Ha Hb).
  - intros s x _. change (NoDup (@nil nat)). constructor.
  - intros i t cs Hcs x. rewrite prune_element, node_ids_element. intros H.
    destruct (i =? x); [constructor|].
    rewrite ids_cons, node_ids_element, app_nil_r.
    inversion H as [|? ? Hn Hd]; subst. constructor; [|now apply Hcs].
    intros Hi. apply decompose_ids in Hi as [Hi _]. exact (Hn Hi).
Qed.

Lemma decompose_wf (s : soup) (x : nat) : NoDup (ids s) -> NoDup (ids (decompose x s)).
Proof. apply decompose_NoDup. Qed.

(** Decomposing an object that is not in the tree changes nothing. *)
Lemma decompose_absent :
  (forall n x, ~ In x (node_ids n) -> prune x n = [n])
  /\ (forall l x, ~ In x (ids l) -> decompose x l = l).
Proof.
  apply (node_forest_ind
           (fun n => forall x, ~ In x (node_ids n) -> prune x n = [n])
           (fun l => forall x, ~ In x (ids l) -> decompose x l = l)).
  - reflexivity.
  - intros n l Hn Hl x. rewrite decompose_cons, ids_cons. intros H.
    rewrite Hn, Hl; [reflexivity | |]; intros Hi; apply H, in_or_app; auto.
  - reflexivity.
  - intros i t cs Hcs x. rewrite prune_element, node_ids_element. intros H.
    destruct (Nat.eqb_spec i x) as [-> | Hne]; [exfalso; apply H; now left|].
    rewrite Hcs; [reflexivity|]. intros Hi. apply H. now right.
Qed.

Lemma decompose_gone (s : soup) (x : nat) : ~ In x (ids s) -> decompose x s = s.
Proof. apply decompose_absent. Qed.

(** An element that is neither the decomposed one nor below it keeps its
    place and its ancestors; its contents are pruned. *)
Lemma locate_decompose_other :
  (forall n e x anc t cs,
      locate_in e n = Some (anc, Element e t cs) ->
      x <> e -> ~ In x (map fst anc) ->
      locate (prune x n) e = Some (anc, Element e t (decompose x cs)))
  /\ (forall l e x anc t cs,
        locate l e = Some (anc, Element e t cs) ->
        x <> e -> ~ In x (map fst anc) ->
        locate (decompose x l) e = Some (anc, Element e t (decompose x cs))).
Proof.
  apply (node_forest_ind
           (fun n => forall e x anc t cs,
                locate_in e n = Some (anc, Element e t cs) ->
                x <> e -> ~ In x (map fst anc) ->
                locate (prune x n) e = Some (anc, Element e t (decompose x cs)))
           (fun l => forall e x anc t cs,
                locate l e = Some (anc, Element e t cs) ->
                x <> e -> ~ In x (map fst anc) ->
                locate (decompose x l) e = Some (anc, Element e t (decompose x cs)))).
  - discriminate.
  - intros n l Hn Hl e x anc t cs. rewrite locate_cons, decompose_cons.
    unfold locate. rewrite first_some_app. fold (locate (prune x n) e).
    fold (locate (decompose x l) e).
    destruct (locate_in e n) as [r|] eqn:E.
    + intros H Hx Ha. injection H as ->. now rewrite (Hn _ _ _ _ _ E Hx Ha).
    + intros H Hx Ha. rewrite (Hl _ _ _ _ _ H Hx Ha).
      assert (Hi : ~ In e (ids (prune x n))).
      { intros Hi. apply decompose_ids in Hi as [Hi _].
        destruct (proj1 locate_iff_in n e) as [Hp _].
        destruct (Hp Hi) as (? & ? & ? & E'). congruence. }
      now rewrite (locate_not_in _ _ Hi).
  - discriminate.
  - intros i t0 cs0 Hcs e x anc t cs. rewrite locate_in_element, prune_element.
    destruct (Nat.eqb_spec i e) as [-> | Hne].
    + intros H Hx _. injection H as <- <- <-.
      destruct (Nat.eqb_spec e x); [congruence|].
      rewrite locate_cons, locate_in_element, Nat.eqb_refl. reflexivity.
    + fold (locate cs0 e). destruct (locate cs0 e) as [[anc' n']|] eqn:E; [|discriminate].
      intros H Hx Ha. injection H as <- ->.
      rewrite map_app, in_app_iff in Ha. simpl in Ha.
      destruct (Nat.eqb_spec i x) as [-> | Hix]; [tauto|].
      rewrite locate_cons, locate_in_element.
      destruct (Nat.eqb_spec i e); [congruence|].
      fold (locate (decompose x cs0) e).
      rewrite (Hcs _ _ _ _ _ E Hx); [reflexivity | tauto].
Qed.

(** With distinct identities, decomposing an element or one of its
    ancestors takes the element out of the tree. *)
Lemma locate_decompose_gone :
  (forall n e x anc r,
      NoDup (node_ids n) -> locate_in e n = Some (anc, r) ->
      x = e \/ In x (map fst anc) -> ~ In e (ids (prune x n)))
  /\ (forall l e x anc r,
        NoDup (ids l) -> locate l e = Some (anc, r) ->
        x = e \/ In x (map fst anc) -> ~ In e (ids (decompose x l))).
Proof.
  apply (node_forest_ind
           (fun n => forall e x anc r,
                NoDup (node_ids n) -> locate_in e n = Some (anc, r) ->
                x = e \/ In x (map fst anc) -> ~ In e (ids (prune x n)))
           (fun l => forall e x anc r,
                NoDup (ids l) -> locate l e = Some (anc, r) ->
                x = e \/ In x (map fst anc) -> ~ In e (ids (decompose x l)))).
  - discriminate.
  - intros n l Hn Hl e x anc r. rewrite ids_cons, locate_cons, decompose_cons, ids_app.
    intros Hd H Hx Hi. apply NoDup_app_inv in Hd as (H1 & H2 & H3).
    destruct (locate_in e n) as [r'|] eqn:E.
    + injection H as ->. apply in_app_or in Hi as [Hi | Hi].
      * exact (Hn _ _ _ _ H1 E Hx Hi).
      * apply decompose_ids in Hi as [Hi _].
        exact (H3 e (locate_in_some_in _ _ _ E) Hi).
    + apply in_app_or in Hi as [Hi | Hi].
      * apply decompose_ids in Hi as [Hi _].
        apply (H3 e Hi). exact (locate_some_in _ _ _ H).
      * exact (Hl _ _ _ _ H2 H Hx Hi).
  - discriminate.
  - intros i t0 cs0 Hcs e x anc r. rewrite node_ids_element, locate_in_element, prune_element.
    intros Hd H Hx. inversion Hd as [|? ? Hn Hd']; subst.
    destruct (Nat.eqb_spec i x) as [-> | Hix]; [intros []|].
    rewrite ids_cons, node_ids_element, app_nil_r.
    destruct (Nat.eqb_spec i e) as [-> | Hie].
    + injection H as <- _. simpl in Hx. destruct Hx as [-> | []]. congruence.
    + fold (locate cs0 e) in H.
      destruct (locate cs0 e) as [[anc' n']|] eqn:E; [|discriminate].
      injection H as <- _. rewrite map_app, in_app_iff in Hx. simpl in Hx.
      intros [-> | Hi]; [congruence|].
      apply (Hcs _ _ _ _ Hd' E) in Hi; [assumption|].
      destruct Hx as [-> | [Hx | [-> | []]]]; auto. congruence.
Qed.

(** Where an element is after a [decompose], in one equation. *)
Lemma locate_decompose (s : soup) (e x : nat) :
  NoDup (ids s) ->
  locate (decompose x s) e
  = match locate s e with
    | Some (anc, Element _ t cs) =>
        if (x =? e) || existsb (Nat.eqb x) (map fst anc) then None
        else Some (anc, Element e t (decompose x cs))
    | _ => None
    end.
Proof.
  intros Hd. destruct (locate s e) as [[anc n]|] eqn:E.
  - destruct (locate_element _ _ _ _ E) as (t & cs & ->).
    destruct ((x =? e) || existsb (Nat.eqb x) (map fst anc)) eqn:B.
    + apply locate_not_in. apply (proj2 locate_decompose_gone _ _ _ _ _ Hd E).
      apply orb_true_iff in B as [B | B]; [left; now apply Nat.eqb_eq|].
      right. apply existsb_exists in B as (y & Hy & B). apply Nat.eqb_eq in B. now subst.
    + apply orb_false_iff in B as [B1 B2]. apply Nat.eqb_neq in B1.
      apply (proj2 locate_decompose_other _ _ _ _ _ _ E B1).
      intros Hi. assert (existsb (Nat.eqb x) (map fst anc) = true); [|congruence].
      apply existsb_exists. exists x. split; [assumption | apply Nat.eqb_refl].
  - apply locate_not_in. intros Hi. apply decompose_ids in Hi as [Hi _].
    destruct (locate_in_ids _ _ Hi) as (? & ? & ? & E'). congruence.
Qed.

(** ** Document order *)

Lemma descendants_cons (n : node) (l : list node) :
  descendants (n :: l) = tags_of n ++ descendants l.
Proof. reflexivity. Qed.

Lemma tags_of_element i t cs : tags_of (Element i t cs) = (i, t) :: descendants cs.
Proof. reflexivity. Qed.

Lemma ids_descendants (l : list node) : ids l = map fst (descendants l).
Proof. reflexivity. Qed.

Lemma in_descendants_ids (l : list node) (x : nat) (t : tag) :
  In (x, t) (descendants l) -> In x (ids l).
Proof. intros H. unfold ids. apply in_map_iff. now exists (x, t). Qed.

Lemma in_tags_ids (n : node) (x : nat) (t : tag) :
  In (x, t) (tags_of n) -> In x (node_ids n).
Proof. intros H. unfold node_ids. apply in_map_iff. now exists (x, t). Qed.

(** With distinct identities, an entry of the document-order list is the
    element found under its identity. *)
Lemma descendants_locate :
  (forall n x tx, In (x, tx) (tags_of n) -> NoDup (node_ids n) ->
                  exists anc cs, locate_in x n = Some (anc, Element x tx cs))
  /\ (forall l x tx, In (x, tx) (descendants l) -> NoDup (ids l) ->
                     exists anc cs, locate l x = Some (anc, Element x tx cs)).
Proof.
  apply (node_forest_ind
           (fun n => forall x tx, In (x, tx) (tags_of n) -> NoDup (node_ids n) ->
                                  exists anc cs, locate_in x n = Some (anc, Element x tx cs))
           (fun l => forall x tx, In (x, tx) (descendants l) -> NoDup (ids l) ->
                                  exists anc cs, locate l x = Some (anc, Element x tx cs))).
  - intros x tx [].
  - intros n l Hn Hl x tx. rewrite descendants_cons, ids_cons, locate_cons.
    intros H Hd. apply NoDup_app_inv in Hd as (H1 & H2 & H3).
    apply in_app_or in H as [H | H].
    + destruct (Hn _ _ H H1) as (anc & cs & ->). eauto.
    + rewrite locate_in_not_in.
      * exact (Hl _ _ H H2).
      * intros Hi. exact (H3 _ Hi (in_descendants_ids _ _ _ H)).
  - intros s x tx [].
  - intros i t cs Hcs x tx. rewrite tags_of_element, node_ids_element, locate_in_element.
    intros H Hd. inversion Hd as [|? ? Hn Hd']; subst.
    destruct H as [H | H].
    + injection H as -> ->. rewrite Nat.eqb_refl. eauto.
    + destruct (Nat.eqb_spec i x) as [-> | Hne];
        [exfalso; exact (Hn (in_descendants_ids _ _ _ H))|].
      destruct (Hcs _ _ H Hd') as (anc & cs' & E). unfold locate in E. rewrite E. eauto.
Qed.

(** An element that is found is an entry of the document-order list. *)
Lemma locate_descendants :
  (forall n e anc t cs, locate_in e n = Some (anc, Element e t cs) -> In (e, t) (tags_of n))
  /\ (forall l e anc t cs, locate l e = Some (anc, Element e t cs) -> In (e, t) (descendants l)).
Proof.
  apply (node_forest_ind
           (fun n => forall e anc t cs,
                locate_in e n = Some (anc, Element e t cs) -> In (e, t) (tags_of n))
           (fun l => forall e anc t cs,
                locate l e = Some (anc, Element e t cs) -> In (e, t) (descendants l))).
  - discriminate.
  - intros n l Hn Hl e anc t cs. rewrite locate_cons, descendants_cons. intros H.
    apply in_or_app. destruct (locate_in e n) as [r|] eqn:E.
    + injection H as ->. left. exact (Hn _ _ _ _ E).
    + right. exact (Hl _ _ _ _ H).
  - discriminate.
  - intros i t0 cs0 Hcs e anc t cs. rewrite locate_in_element, tags_of_element.
    destruct (Nat.eqb_spec i e) as [-> | Hne].
    + intros H. injection H as _ <- _. now left.
    + fold (locate cs0 e). destruct (locate cs0 e) as [[anc' n']|] eqn:E; [|discriminate].
      intros H. injection H as _ ->. right. exact (Hcs _ _ _ _ E).
Qed.

(** An ancestor of a found element is itself found, the element is found
    again inside the ancestor's contents, and the ancestors of the
    element are those inside the ancestor, the ancestor, and the
    ancestor's own. *)
Lemma ancestor_split :
  (forall n y x anc r,
      NoDup (node_ids n) -> locate_in y n = Some (anc, r) -> In x (map fst anc) ->
      exists ancx tx csx anc1,
        locate_in x n = Some (ancx, Element x tx csx)
        /\ locate csx y = Some (anc1, r)
        /\ anc = anc1 ++ (x, tx) :: ancx)
  /\ (forall l y x anc r,
        NoDup (ids l) -> locate l y = Some (anc, r) -> In x (map fst anc) ->
        exists ancx tx csx anc1,
          locate l x = Some (ancx, Element x tx csx)
          /\ locate csx y = Some (anc1, r)
          /\ anc = anc1 ++ (x, tx) :: ancx).
Proof.
  apply (node_forest_ind
           (fun n => forall y x anc r,
                NoDup (node_ids n) -> locate_in y n = Some (anc, r) -> In x (map fst anc) ->
                exists ancx tx csx anc1,
                  locate_in x n = Some (ancx, Element x tx csx)
                  /\ locate csx y = Some (anc1, r)
                  /\ anc = anc1 ++ (x, tx) :: ancx)
           (fun l => forall y x anc r,
                NoDup (ids l) -> locate l y = Some (anc, r) -> In x (map fst anc) ->
                exists ancx tx csx anc1,
                  locate l x = Some (ancx, Element x tx csx)
                  /\ locate csx y = Some (anc1, r)
                  /\ anc = anc1 ++ (x, tx) :: ancx)).
  - discriminate.
  - intros n l Hn Hl y x anc r. rewrite ids_cons, !locate_cons. intros Hd H Hx.
    apply NoDup_app_inv in Hd as (H1 & H2 & H3).
    destruct (locate_in y n) as [r'|] eqn:E.
    + injection H as ->.
      destruct (Hn _ _ _ _ H1 E Hx) as (ancx & tx & csx & anc1 & -> & H' & Ha).
      exists ancx, tx, csx, anc1. auto.
    + destruct (Hl _ _ _ _ H2 H Hx) as (ancx & tx & csx & anc1 & E' & H' & Ha).
      rewrite locate_in_not_in; [exists ancx, tx, csx, anc1; auto|].
      intros Hi. exact (H3 _ Hi (locate_some_in _ _ _ E')).
  - discriminate.
  - intros i t cs Hcs y x anc r. rewrite node_ids_element, !locate_in_element.
    intros Hd H Hx. inversion Hd as [|? ? Hn Hd']; subst.
    destruct (Nat.eqb_spec i y) as [-> | Hiy].
    + injection H as <- _. destruct Hx.
    + fold (locate cs y) in H. destruct (locate cs y) as [[anc' r']|] eqn:E; [|discriminate].
      injection H as <- ->. rewrite map_app, in_app_iff in Hx.
      destruct Hx as [Hx | [<- | []]].
      * destruct (Hcs _ _ _ _ Hd' E Hx) as (ancx & tx & csx & anc1 & E' & H' & ->).
        destruct (Nat.eqb_spec i x) as [-> | Hix];
          [exfalso; exact (Hn (locate_some_in _ _ _ E'))|].
        fold (locate cs x). rewrite E'.
        exists (ancx ++ [(i, t)]), tx, csx, anc1. repeat split; [assumption|].
        now rewrite <- app_assoc.
      * cbn [fst]. rewrite Nat.eqb_refl.
        exists [], t, cs, anc'. auto.
Qed.

(** An element below a found element is found through it. *)
Lemma descendant_locate :
  (forall n x y ancx tx csx,
      NoDup (node_ids n) -> locate_in x n = Some (ancx, Element x tx csx) ->
      In y (ids csx) ->
      exists anc1 r, locate_in y n = Some (anc1 ++ (x, tx) :: ancx, r))
  /\ (forall l x y ancx tx csx,
        NoDup (ids l) -> locate l x = Some (ancx, Element x tx csx) ->
        In y (ids csx) ->
        exists anc1 r, locate l y = Some (anc1 ++ (x, tx) :: ancx, r)).
Proof.
  apply (node_forest_ind
           (fun n => forall x y ancx tx csx,
                NoDup (node_ids n) -> locate_in x n = Some (ancx, Element x tx csx) ->
                In y (ids csx) ->
                exists anc1 r, locate_in y n = Some (anc1 ++ (x, tx) :: ancx, r))
           (fun l => forall x y ancx tx csx,
                NoDup (ids l) -> locate l x = Some (ancx, Element x tx csx) ->
                In y (ids csx) ->
                exists anc1 r, locate l y = Some (anc1 ++ (x, tx) :: ancx, r))).
  - discriminate.
  - intros n l Hn Hl x y ancx tx csx. rewrite ids_cons, !locate_cons. intros Hd H Hy.
    apply NoDup_app_inv in Hd as (H1 & H2 & H3).
    destruct (locate_in x n) as [r'|] eqn:E.
    + injection H as ->. destruct (Hn _ _ _ _ _ H1 E Hy) as (anc1 & r & ->). eauto.
    + destruct (Hl _ _ _ _ _ H2 H Hy) as (anc1 & r & E').
      rewrite locate_in_not_in; [eauto|].
      intros Hi. exact (H3 _ Hi (locate_some_in _ _ _ E')).
  - discriminate.
  - intros i t cs Hcs x y ancx tx csx. rewrite node_ids_element, !locate_in_element.
    intros Hd H Hy. inversion Hd as [|? ? Hn Hd']; subst.
    destruct (Nat.eqb_spec i x) as [-> | Hix].
    + injection H as <- <- <-.
      destruct (Nat.eqb_spec x y) as [-> | Hxy]; [contradiction|].
      destruct (locate_in_ids _ _ Hy) as (anc1 & t1 & cs1 & E). unfold locate in E.
      rewrite E. exists anc1, (Element y t1 cs1). reflexivity.
    + fold (locate cs x) in H. destruct (locate cs x) as [[anc' r']|] eqn:E; [|discriminate].
      injection H as <- ->.
      destruct (Hcs _ _ _ _ _ Hd' E Hy) as (anc1 & r & E').
      destruct (Nat.eqb_spec i y) as [-> | Hiy];
        [exfalso; exact (Hn (locate_some_in _ _ _ E'))|].
      fold (locate cs y). rewrite E'. exists anc1, r.
      now rewrite <- app_assoc.
Qed.

Lemma located_NoDup :
  (forall n x anc t cs,
      NoDup (node_ids n) -> locate_in x n = Some (anc, Element x t cs) -> NoDup (ids cs))
  /\ (forall l x anc t cs,
        NoDup (ids l) -> locate l x = Some (anc, Element x t cs) -> NoDup (ids cs)).
Proof.
  apply (node_forest_ind
           (fun n => forall x anc t cs,
                NoDup (node_ids n) -> locate_in x n = Some (anc, Element x t cs) ->
                NoDup (ids cs))
           (fun l => forall x anc t cs,
                NoDup (ids l) -> locate l x = Some (anc, Element x t cs) ->
                NoDup (ids cs))).
  - discriminate.
  - intros n l Hn Hl x anc t cs. rewrite ids_cons, locate_cons. intros Hd H.
    apply NoDup_app_inv in Hd as (H1 & H2 & _).
    destruct (locate_in x n) as [r|] eqn:E.
    + injection H as ->. exact (Hn _ _ _ _ H1 E).
    + exact (Hl _ _ _ _ H2 H).
  - discriminate.
  - intros i t0 cs0 Hcs x anc t cs. rewrite node_ids_element, locate_in_element.
    intros Hd H. inversion Hd as [|? ? _ Hd']; subst.
    destruct (i =? x).
    + injection H as _ _ _ <-. exact Hd'.
    + fold (locate cs0 x) in H.
      destruct (locate cs0 x) as [[anc' r']|] eqn:E; [|discriminate].
      injection H as _ ->. exact (Hcs _ _ _ _ Hd' E).
Qed.

(** In document order an element comes after its ancestors and just
    before what it contains. *)
Lemma preorder_split :
  (forall n e anc t cs,
      locate_in e n = Some (anc, Element e t cs) ->
      exists A B, tags_of n = A ++ (e, t) :: descendants cs ++ B
                  /\ incl (map fst anc) (map fst A))
  /\ (forall l e anc t cs,
        locate l e = Some (anc, Element e t cs) ->
        exists A B, descendants l = A ++ (e, t) :: descendants cs ++ B
                    /\ incl (map fst anc) (map fst A)).
Proof.
  apply (node_forest_ind
           (fun n => forall e anc t cs,
                locate_in e n = Some (anc, Element e t cs) ->
                exists A B, tags_of n = A ++ (e, t) :: descendants cs ++ B
                            /\ incl (map fst anc) (map fst A))
           (fun l => forall e anc t cs,
                locate l e = Some (anc, Element e t cs) ->
                exists A B, descendants l = A ++ (e, t) :: descendants cs ++ B
                            /\ incl (map fst anc) (map fst A))).
  - discriminate.
  - intros n l Hn Hl e anc t cs. rewrite locate_cons, descendants_cons. intros H.
    destruct (locate_in e n) as [r|] eqn:E.
    + injection H as ->. destruct (Hn _ _ _ _ E) as (A & B & -> & Hi).
      exists A, (B ++ descendants l). split; [|assumption].
      rewrite <- !app_assoc. cbn [app]. now rewrite <- !app_assoc.
    + destruct (Hl _ _ _ _ H) as (A & B & -> & Hi).
      exists (tags_of n ++ A), B. split; [now rewrite <- app_assoc|].
      rewrite map_app. now apply incl_appr.
  - discriminate.
  - intros i t0 cs0 Hcs e anc t cs. rewrite locate_in_element, tags_of_element.
    destruct (Nat.eqb_spec i e) as [-> | Hne].
    + intros H. injection H as <- <- <-. exists [], []. split.
      * now rewrite app_nil_r.
      * intros a [].
    + fold (locate cs0 e). destruct (locate cs0 e) as [[anc' n']|] eqn:E; [|discriminate].
      intros H. injection H as <- ->. destruct (Hcs _ _ _ _ E) as (A & B & -> & Hi).
      exists ((i, t0) :: A), B. split; [reflexivity|].
      rewrite map_app. cbn [map fst]. intros a Ha. apply in_app_or in Ha as [Ha | [<- | []]].
      * right. now apply Hi.
      * now left.
Qed.

(** ** Text below an element *)

Lemma join_empty_length (l : list string) :
  String.length (Py.join "" l) = list_sum (map String.length l).
Proof.
  induction l as [|x l IH]; [reflexivity|].
  destruct l as [|y l].
  - simpl. lia.
  - change (Py.join "" (x :: y :: l)) with (x ++ "" ++ Py.join "" (y :: l))%string.
    rewrite string_app_length. cbn [append]. rewrite IH. reflexivity.
Qed.

Lemma stripped_strings_app (a b : list node) :
  stripped_strings (a ++ b) = stripped_strings a ++ stripped_strings b.
Proof. unfold stripped_strings. now rewrite flat_map_app, map_app, filter_app. Qed.

Lemma text_len_app (a b : list node) : text_len (a ++ b) = text_len a + text_len b.
Proof.
  unfold text_len, get_text_strip.
  now rewrite !join_empty_length, stripped_strings_app, map_app, list_sum_app.
Qed.

Lemma text_len_cons (n : node) (l : list node) :
  text_len (n :: l) = text_len [n] + text_len l.
Proof. exact (text_len_app [n] l). Qed.

Lemma text_len_element i t cs : text_len [Element i t cs] = text_len cs.
Proof.
  unfold text_len, get_text_strip, stripped_strings. cbn [flat_map strings].
  now rewrite app_nil_r.
Qed.

Lemma text_len_nil : text_len [] = 0.
Proof. reflexivity. Qed.

(** Decomposing something never adds text. *)
Lemma text_len_decompose :
  (forall n x, text_len (prune x n) <= text_len [n])
  /\ (forall l x, text_len (decompose x l) <= text_len l).
Proof.
  apply (node_forest_ind
           (fun n => forall x, text_len (prune x n) <= text_len [n])
           (fun l => forall x, text_len (decompose x l) <= text_len l)).
  - intros x. apply Nat.le_refl.
  - intros n l Hn Hl x. rewrite decompose_cons, text_len_app, text_len_cons.
    specialize (Hn x). specialize (Hl x). lia.
  - intros s x. apply Nat.le_refl.
  - intros i t cs Hcs x. rewrite prune_element.
    destruct (i =? x); [rewrite text_len_nil; lia|].
    rewrite !text_len_element. apply Hcs.
Qed.


(** ** Loops that only decompose *)

Lemma fold_left_invariant {A B : Type} (f : A -> B -> A) (I : A -> Prop)
    (l : list B) (a : A) :
  I a -> (forall a x, In x l -> I a -> I (f a x)) -> I (fold_left f l a).
Proof.
  revert a. induction l as [|x l IH]; intros a Ha Hf; [exact Ha|].
  simpl. apply IH.
  - apply Hf; [now left | exact Ha].
  - intros a' y Hy. apply Hf. now right.
Qed.

Lemma locate_none_decompose (s : soup) (e x : nat) :
  locate s e = None -> locate (decompose x s) e = None.
Proof.
  intros H. apply locate_not_in. intros Hi. apply decompose_ids in Hi as [Hi _].
  destruct (locate_in_ids _ _ Hi) as (? & ? & ? & E). congruence.
Qed.

Lemma not_in_existsb (x : nat) (l : list nat) :
  ~ In x l -> existsb (Nat.eqb x) l = false.
Proof.
  intros H. destruct (existsb (Nat.eqb x) l) eqn:E; [|reflexivity].
  apply existsb_exists in E as (y & Hy & E). apply Nat.eqb_eq in E. now subst.
Qed.

(** ** The [aria-hidden] rule *)

Lemma hidden_body_cases (s : soup) (x : nat) :
  Scraper.hidden_body s x = s \/ Scraper.hidden_body s x = decompose x s.
Proof.
  unfold Scraper.hidden_body.
  destruct (_ || Scraper.is_in_navigation s x); [now left|].
  destruct (_ <? 10); [now right | now left].
Qed.


Lemma is_in_navigation_located (s : soup) (e : nat) anc r :
  locate s e = Some (anc, r) ->
  Scraper.is_in_navigation s e = Scraper.climb (map snd anc ++ [document]).
Proof. intros H. unfold Scraper.is_in_navigation, parents. now rewrite H. Qed.


Lemma find_all_split (p : tag -> bool) (s : soup) (e : nat) anc t cs :
  locate s e = Some (anc, Element e t cs) ->
  NoDup (ids s) ->
  p t = true ->
  exists l1 l2,
    find_all p s = l1 ++ e :: l2
    /\ (forall x, In x l1 -> x <> e /\ ~ In x (ids cs))
    /\ (forall x, In x l2 -> x <> e /\ ~ In x (map fst anc)).
Proof.
  intros Hloc Hd Hp.
  destruct (proj2 preorder_split _ _ _ _ _ Hloc) as (A & B & HAB & Hanc).
  pose proof Hd as Hd'. rewrite ids_descendants, HAB in Hd'.
  rewrite map_app in Hd'. cbn [map fst] in Hd'. rewrite map_app in Hd'.
  apply NoDup_app_inv in Hd' as (HA & Hrest & Hdisj).
  inversion Hrest as [|? ? He Hrest']; subst.
  set (q := fun it : nat * tag => p (snd it)).
  exists (map fst (filter q A)), (map fst (filter q (descendants cs ++ B))).
  assert (Hsub : forall l x, In x (map fst (filter q l)) -> In x (map fst l)).
  { intros l x H. apply in_map_iff in H as (it & <- & H). apply filter_In in H as [H _].
    now apply in_map. }
  repeat split.
  - unfold find_all. fold q. rewrite HAB, filter_app. cbn [filter].
    replace (q (e, t)) with true by (unfold q; cbn [snd]; now rewrite Hp).
    now rewrite map_app.
  - intros ->. apply Hsub in H. apply (Hdisj e H). now left.
  - intros Hi. apply Hsub in H. apply (Hdisj x H). right.
    apply in_or_app. left. exact Hi.
  - intros ->. apply Hsub in H. rewrite map_app in H. exact (He H).
  - intros Hi. apply Hsub in H. apply Hanc in Hi. apply (Hdisj x Hi). right.
    rewrite <- map_app. exact H.
Qed.



(** So is an element inside navigation. *)
Lemma hidden_body_navigation (s : soup) (e : nat) :
  Scraper.is_in_navigation s e = true -> Scraper.hidden_body s e = s.
Proof. intros H. unfold Scraper.hidden_body. rewrite H. now rewrite orb_true_r. Qed.

(** ** The script rule *)

Lemma locate_elements :
  (forall n e anc t cs,
      locate_in e n = Some (anc, Element e t cs) -> In (t, cs) (elements_of n))
  /\ (forall l e anc t cs,
        locate l e = Some (anc, Element e t cs) -> In (t, cs) (flat_map elements_of l)).
Proof.
  apply (node_forest_ind
           (fun n => forall e anc t cs,
                locate_in e n = Some (anc, Element e t cs) -> In (t, cs) (elements_of n))
           (fun l => forall e anc t cs,
                locate l e = Some (anc, Element e t cs) ->
                In (t, cs) (flat_map elements_of l))).
  - discriminate.
  - intros n l Hn Hl e anc t cs. rewrite locate_cons. cbn [flat_map]. intros H.
    apply in_or_app. destruct (locate_in e n) as [r|] eqn:E.
    + injection H as ->. left. exact (Hn _ _ _ _ E).
    + right. exact (Hl _ _ _ _ H).
  - discriminate.
  - intros i t0 cs0 Hcs e anc t cs. rewrite locate_in_element. cbn [elements_of].
    destruct (Nat.eqb_spec i e) as [-> | Hne].
    + intros H. injection H as _ <- <-. now left.
    + fold (locate cs0 e). destruct (locate cs0 e) as [[anc' n']|] eqn:E; [|discriminate].
      intros H. injection H as _ ->. right. exact (Hcs _ _ _ _ E).
Qed.

Lemma script_leaf (s : soup) (e : nat) anc t cs :
  script_leaves s = true ->
  locate s e = Some (anc, Element e t cs) ->
  name t = "script" ->
  ids cs = [].
Proof.
  intros Hs Hloc Hname. unfold script_leaves in Hs. rewrite forallb_forall in Hs.
  specialize (Hs _ (proj2 locate_elements _ _ _ _ _ Hloc)). cbn [fst snd] in Hs.
  unfold named in Hs. rewrite Hname in Hs. cbn in Hs. unfold ids.
  destruct (descendants cs); [reflexivity | discriminate].
Qed.

Lemma named_script (t : tag) : named "script" t = true <-> name t = "script".
Proof. unfold named. apply String.eqb_eq. Qed.

Lemma find_all_In (p : tag -> bool) (s : soup) (x : nat) :
  In x (find_all p s) -> exists t, In (x, t) (descendants s) /\ p t = true.
Proof.
  unfold find_all. intros H. apply in_map_iff in H as ([y t] & <- & H).
  apply filter_In in H as [H1 H2]. now exists t.
Qed.

Lemma find_all_NoDup (p : tag -> bool) (s : soup) :
  NoDup (ids s) -> NoDup (find_all p s).
Proof.
  unfold ids, find_all. generalize (descendants s). intros l.
  induction l as [|[y t] l IH]; simpl; intros H; [constructor|].
  inversion H as [|? ? Hn Hd]; subst. destruct (p t); [|now apply IH].
  simpl. constructor; [|now apply IH].
  intros Hi. apply Hn. apply in_map_iff in Hi as (it & <- & Hi).
  apply filter_In in Hi as [Hi _]. now apply in_map.
Qed.

Section Scripts.
Variable s0 : soup.
Hypothesis wf0 : NoDup (ids s0).
Hypothesis leaves0 : script_leaves s0 = true.

Lemma script_located (x : nat) :
  In x (find_all (named "script") s0) ->
  exists anc t cs,
    locate s0 x = Some (anc, Element x t cs) /\ name t = "script" /\ ids cs = [].
Proof.
  intros H. apply find_all_In in H as (t & H & Hn). apply named_script in Hn.
  destruct (proj2 descendants_locate _ _ _ H wf0) as (anc & cs & E).
  exists anc, t, cs. repeat split; [assumption | assumption |].
  exact (script_leaf _ _ _ _ _ leaves0 E Hn).
Qed.

(** A script is not an ancestor of anything. *)
Lemma script_not_ancestor (x y : nat) anc r :
  In x (find_all (named "script") s0) ->
  locate s0 y = Some (anc, r) -> ~ In x (map fst anc).
Proof.
  intros Hx Hy Hi.
  destruct (proj2 ancestor_split _ _ _ _ _ wf0 Hy Hi)
    as (ancx & tx & csx & anc1 & Ex & Ey & _).
  destruct (script_located x Hx) as (anc' & t' & cs' & E' & _ & Hnil).
  rewrite E' in Ex. injection Ex as _ _ <-.
  apply locate_some_in in Ey. rewrite Hnil in Ey. exact Ey.
Qed.

(** Decomposing one script leaves every other script as it was. *)
Lemma script_frame (s : soup) (x z : nat) :
  NoDup (ids s) ->
  In x (find_all (named "script") s0) -> In z (find_all (named "script") s0) ->
  x <> z ->
  (locate s z = locate s0 z -> locate (decompose x s) z = locate s0 z)
  /\ (locate s z = None -> locate (decompose x s) z = None).
Proof.
  intros Hd Hx Hz Hne. split; [|apply locate_none_decompose].
  intros E. destruct (script_located z Hz) as (anc & t & cs & E0 & _ & Hnil).
  rewrite (locate_decompose _ _ _ Hd), E, E0.
  destruct (Nat.eqb_spec x z); [contradiction|].
  rewrite (not_in_existsb _ _ (script_not_ancestor x z anc _ Hx E0)). cbn [orb].
  rewrite decompose_gone; [reflexivity|]. rewrite Hnil. intros [].
Qed.

Lemma script_loop (rem : list nat) :
  forall s,
    NoDup rem -> incl rem (find_all (named "script") s0) -> NoDup (ids s) ->
    (forall y, In y rem -> locate s y = locate s0 y) ->
    exists s',
      for_each Scraper.script_body rem s = Ok s'
      /\ NoDup (ids s')
      /\ (forall y, In y rem -> settled s0 s' y)
      /\ (forall z, In z (find_all (named "script") s0) -> ~ In z rem ->
                    (locate s z = locate s0 z -> locate s' z = locate s0 z)
                    /\ (locate s z = None -> locate s' z = None)).
Proof.
  induction rem as [|x rem IH]; intros s Hnd Hincl Hd Hrem.
  - exists s. repeat split; auto. intros y [].
  - inversion Hnd as [|? ? Hx Hnd']; subst.
    assert (Hxs : In x (find_all (named "script") s0)) by (apply Hincl; now left).
    destruct (script_located x Hxs) as (anc & t & cs & E0 & _ & _).
    assert (Ex : locate s x = Some (anc, Element x t cs)).
    { rewrite Hrem; [assumption | now left]. }
    cbn [for_each]. unfold Scraper.script_body at 1, tag_of, contents_of.
    rewrite Ex. cbn [bind].
    assert (Hgen : forall s1,
               NoDup (ids s1) ->
               (forall z, In z (find_all (named "script") s0) -> x <> z ->
                          (locate s z = locate s0 z -> locate s1 z = locate s0 z)
                          /\ (locate s z = None -> locate s1 z = None)) ->
               settled s0 s1 x ->
               exists s',
                 for_each Scraper.script_body rem s1 = Ok s'
                 /\ NoDup (ids s')
                 /\ (forall y, In y (x :: rem) -> settled s0 s' y)
                 /\ (forall z, In z (find_all (named "script") s0) -> ~ In z (x :: rem) ->
                               (locate s z = locate s0 z -> locate s' z = locate s0 z)
                               /\ (locate s z = None -> locate s' z = None))).
    { intros s1 Hd1 Hframe Hx1.
      destruct (IH s1 Hnd') as (s' & Hrun & Hd' & Hset & Hfr).
      { intros y Hy. apply Hincl. now right. }
      { exact Hd1. }
      { intros y Hy. apply Hframe.
        - apply Hincl. now right.
        - intros ->. contradiction.
        - apply Hrem. now right. }
      exists s'. split; [assumption|]. split; [assumption|]. split.
      - intros y [<- | Hy]; [|now apply Hset].
        destruct (Hfr x Hxs Hx) as [Hk Hg]. unfold settled in *.
        destruct (verdict s0 x); [now apply Hg | now apply Hk].
      - intros z Hz Hnz.
        assert (Hxz : x <> z) by (intros ->; apply Hnz; now left).
        assert (Hzr : ~ In z rem) by (intros Hi; apply Hnz; now right).
        destruct (Hframe z Hz Hxz) as [Hk Hg]. destruct (Hfr z Hz Hzr) as [Hk' Hg'].
        split; intros E; [apply Hk', Hk | apply Hg', Hg]; exact E. }
    assert (Hv : verdict s0 x = Scraper.tracking_script t (get_text cs)).
    { unfold verdict. now rewrite E0. }
    destruct (Scraper.tracking_script t (get_text cs)) eqn:Tr; cbn [bind].
    + apply Hgen.
      * now apply decompose_wf.
      * intros z Hz Hne. now apply script_frame.
      * unfold settled. rewrite Hv.
        rewrite (locate_decompose _ _ _ Hd), Ex, Nat.eqb_refl. reflexivity.
    + apply Hgen.
      * assumption.
      * intros z Hz Hne. now split.
      * unfold settled. rewrite Hv. apply Hrem. now left.
Qed.

Lemma remove_scripts_settles :
  exists s',
    Scraper.remove_scripts s0 = Ok s'
    /\ forall y, In y (find_all (named "script") s0) -> settled s0 s' y.
Proof.
  destruct (script_loop (find_all (named "script") s0) s0) as (s' & Hrun & _ & Hset & _).
  - now apply find_all_NoDup.
  - apply incl_refl.
  - exact wf0.
  - reflexivity.
  - exists s'. split; assumption.
Qed.
End Scripts.

(** ** Attribute stripping *)

Lemma tag_eta (t : tag) : Tag (name t) (attrs t) = t.
Proof. now destruct t. Qed.

Lemma assoc_none_filter (k : string) (l : list (string * string)) :
  assoc k l = None -> filter (fun kv => negb (String.eqb (fst kv) k)) l = l.
Proof.
  induction l as [|[k' v] l IH]; simpl; [reflexivity|].
  destruct (String.eqb k' k); [discriminate|]. intros H. simpl. now rewrite IH.
Qed.

Lemma del_if_has (k : string) (t : tag) :
  (if has_attr t k then del_attr k t else t) = del_attr k t.
Proof.
  unfold has_attr, get, del_attr. destruct (assoc k (attrs t)) eqn:E; [reflexivity|].
  rewrite (assoc_none_filter _ _ E). symmetry. apply tag_eta.
Qed.

Lemma fold_del (ks : list string) (t : tag) :
  fold_left (fun t k => if has_attr t k then del_attr k t else t) ks t
  = without ks t.
Proof.
  revert t. induction ks as [|k ks IH]; intros t.
  - unfold without, Py.mem. cbn [fold_left existsb negb]. rewrite filter_true.
    symmetry. apply tag_eta.
  - cbn [fold_left]. rewrite del_if_has, IH. unfold without, del_attr. cbn [name attrs].
    f_equal. induction (attrs t) as [|[k' v] l IHl]; [reflexivity|].
    cbn [filter fst Py.mem existsb]. rewrite (String.eqb_sym k' k).
    destruct (String.eqb k k'); cbn [negb orb filter fst]; [exact IHl|].
    fold (Py.mem k' ks). destruct (Py.mem k' ks); cbn [negb]; [exact IHl | now rewrite IHl].
Qed.

Lemma mem_app (x : string) (a b : list string) :
  Py.mem x (a ++ b) = Py.mem x a || Py.mem x b.
Proof. apply existsb_app. Qed.

Lemma without_without (ks ks' : list string) (t : tag) :
  without ks' (without ks t) = without (ks ++ ks') t.
Proof.
  unfold without. cbn [name attrs]. f_equal.
  induction (attrs t) as [|[k v] l IH]; [reflexivity|].
  cbn [filter fst]. rewrite mem_app.
  destruct (Py.mem k ks); cbn [negb orb]; [exact IH|].
  cbn [filter fst]. destruct (Py.mem k ks'); cbn [negb]; [exact IH | now rewrite IH].
Qed.

Lemma without_idempotent (ks : list string) (t : tag) :
  without ks (without ks t) = without ks t.
Proof.
  unfold without. cbn [name attrs]. f_equal.
  induction (attrs t) as [|[k v] l IH]; [reflexivity|].
  cbn [filter fst]. destruct (Py.mem k ks) eqn:E; cbn [negb]; [exact IH|].
  cbn [filter fst]. rewrite E. cbn [negb]. now rewrite IH.
Qed.

Lemma without_get (ks : list string) (t : tag) (k : string) :
  Py.mem k ks = false -> get (without ks t) k = get t k.
Proof.
  intros Hk. unfold get, without. cbn [attrs].
  induction (attrs t) as [|[k' v] l IH]; [reflexivity|].
  cbn [filter fst assoc]. destruct (String.eqb_spec k' k) as [-> | Hne].
  - rewrite Hk. cbn [negb assoc]. now rewrite String.eqb_refl.
  - destruct (Py.mem k' ks); cbn [negb assoc]; [exact IH|].
    destruct (String.eqb_spec k' k); [contradiction | exact IH].
Qed.

Lemma strip_tag_without (in_nav : bool) (t : tag) :
  Scraper.strip_tag in_nav t = without (stripped_attrs in_nav) t.
Proof.
  unfold Scraper.strip_tag, stripped_attrs. destruct in_nav; cbn [negb andb].
  - apply fold_del.
  - rewrite del_if_has, fold_del.
    replace (del_attr "style" t) with (without ["style"] t).
    + now rewrite without_without.
    + unfold without, del_attr. f_equal. apply filter_ext. intros [k v]. cbn [fst].
      unfold Py.mem. cbn [existsb]. now rewrite orb_false_r.
Qed.

Lemma strip_tag_idempotent (b : bool) (t : tag) :
  Scraper.strip_tag b (Scraper.strip_tag b t) = Scraper.strip_tag b t.
Proof. rewrite !strip_tag_without. apply without_idempotent. Qed.

(** Stripping does not change what the navigation classifier reads. *)
Lemma strip_tag_nav_parent (b : bool) (t : tag) :
  nav_parent (Scraper.strip_tag b t) = nav_parent t.
Proof.
  rewrite strip_tag_without.
  unfold nav_parent, Scraper.nav_class, Scraper.nav_id, get_list.
  rewrite !without_get by (now destruct b). reflexivity.
Qed.

Lemma climb_strip (chain : list tag) (f : tag -> tag) :
  (forall t, nav_parent (f t) = nav_parent t) ->
  Scraper.climb (map f chain) = Scraper.climb chain.
Proof.
  intros Hf. rewrite !climb_existsb. induction chain as [|t c IH]; [reflexivity|].
  simpl. now rewrite Hf, IH.
Qed.

(** ** Rewriting tags *)

Lemma retag_ids :
  (forall n f, node_ids (retag f n) = node_ids n)
  /\ (forall l f, ids (map (retag f) l) = ids l).
Proof.
  apply (node_forest_ind
           (fun n => forall f, node_ids (retag f n) = node_ids n)
           (fun l => forall f, ids (map (retag f) l) = ids l)).
  - reflexivity.
  - intros n l Hn Hl f. cbn [map]. now rewrite !ids_cons, Hn, Hl.
  - reflexivity.
  - intros i t cs Hcs f. cbn [retag]. now rewrite !node_ids_element, Hcs.
Qed.

Lemma locate_retag :
  (forall n f e, locate_in e (retag f n) = option_map (retag_found f) (locate_in e n))
  /\ (forall l f e, locate (map (retag f) l) e = option_map (retag_found f) (locate l e)).
Proof.
  apply (node_forest_ind
           (fun n => forall f e,
                locate_in e (retag f n) = option_map (retag_found f) (locate_in e n))
           (fun l => forall f e,
                locate (map (retag f) l) e = option_map (retag_found f) (locate l e))).
  - reflexivity.
  - intros n l Hn Hl f e. cbn [map]. rewrite !locate_cons, Hn, Hl.
    now destruct (locate_in e n).
  - reflexivity.
  - intros i t cs Hcs f e. cbn [retag]. rewrite !locate_in_element.
    destruct (i =? e); [reflexivity|].
    fold (locate (map (retag f) cs) e). fold (locate cs e). rewrite Hcs.
    destruct (locate cs e) as [[anc x]|]; [|reflexivity].
    unfold retag_found. cbn [option_map fst snd]. now rewrite map_app.
Qed.

Lemma retag_retag :
  (forall n f g, retag g (retag f n) = retag (fun i t => g i (f i t)) n)
  /\ (forall l f g, map (retag g) (map (retag f) l) = map (retag (fun i t => g i (f i t))) l).
Proof.
  apply (node_forest_ind
           (fun n => forall f g, retag g (retag f n) = retag (fun i t => g i (f i t)) n)
           (fun l => forall f g,
                map (retag g) (map (retag f) l)
                = map (retag (fun i t => g i (f i t))) l)).
  - reflexivity.
  - intros n l Hn Hl f g. cbn [map]. now rewrite Hn, Hl.
  - reflexivity.
  - intros i t cs Hcs f g. cbn [retag]. now rewrite Hcs.
Qed.

Lemma retag_ext :
  (forall n f g, (forall i t, In (i, t) (tags_of n) -> f i t = g i t) ->
                 retag f n = retag g n)
  /\ (forall l f g, (forall i t, In (i, t) (descendants l) -> f i t = g i t) ->
                    map (retag f) l = map (retag g) l).
Proof.
  apply (node_forest_ind
           (fun n => forall f g, (forall i t, In (i, t) (tags_of n) -> f i t = g i t) ->
                                 retag f n = retag g n)
           (fun l => forall f g, (forall i t, In (i, t) (descendants l) -> f i t = g i t) ->
                                 map (retag f) l = map (retag g) l)).
  - reflexivity.
  - intros n l Hn Hl f g H. cbn [map]. rewrite (Hn f g), (Hl f g); [reflexivity | |];
      intros i t Hi; apply H; rewrite descendants_cons; apply in_or_app; auto.
  - reflexivity.
  - intros i t cs Hcs f g H. cbn [retag]. rewrite (Hcs f g), (H i t); [reflexivity | |].
    + rewrite tags_of_element. now left.
    + intros j u Hj. apply H. rewrite tags_of_element. now right.
Qed.

Lemma retag_id :
  (forall n, retag (fun _ t => t) n = n)
  /\ (forall l, map (retag (fun _ t => t)) l = l).
Proof.
  apply (node_forest_ind
           (fun n => retag (fun _ t => t) n = n)
           (fun l => map (retag (fun _ t => t)) l = l)).
  - reflexivity.
  - intros n l Hn Hl. cbn [map]. now rewrite Hn, Hl.
  - reflexivity.
  - intros i t cs Hcs. cbn [retag]. now rewrite Hcs.
Qed.

(** ** The stripping pass as one rewriting of the tree *)

Lemma strip_done_nav_parent s0 done i t :
  nav_parent (strip_done s0 done i t) = nav_parent t.
Proof.
  unfold strip_done. destruct (existsb _ _); [apply strip_tag_nav_parent | reflexivity].
Qed.

Lemma existsb_nav_retag (f : nat -> tag -> tag) (anc : list (nat * tag)) :
  (forall i t, nav_parent (f i t) = nav_parent t) ->
  existsb nav_parent (map snd (map (retag_entry f) anc))
  = existsb nav_parent (map snd anc).
Proof.
  intros Hf. induction anc as [|[i t] anc IH]; [reflexivity|].
  cbn [map existsb retag_entry fst snd]. now rewrite Hf, IH.
Qed.

Lemma is_in_navigation_retag (f : nat -> tag -> tag) (s : soup) (e : nat) :
  (forall i t, nav_parent (f i t) = nav_parent t) ->
  Scraper.is_in_navigation (map (retag f) s) e = Scraper.is_in_navigation s e.
Proof.
  intros Hf. unfold Scraper.is_in_navigation, parents.
  rewrite (proj2 locate_retag). destruct (locate s e) as [[anc n]|]; [|reflexivity].
  cbn [option_map retag_found fst]. rewrite !climb_existsb, !existsb_app.
  now rewrite existsb_nav_retag.
Qed.

Lemma tag_of_attached (s : soup) (e : nat) :
  In e (ids s) -> exists t, tag_of s e = Some t.
Proof.
  intros H. destruct (locate_in_ids _ _ H) as (anc & t & cs & E).
  exists t. unfold tag_of. now rewrite E.
Qed.

Lemma strip_loop (s0 : soup) (rem : list nat) :
  forall done,
    incl rem (ids s0) ->
    for_each Scraper.strip_body rem (map (retag (strip_done s0 done)) s0)
    = Ok (map (retag (strip_done s0 (rem ++ done))) s0).
Proof.
  induction rem as [|x rem IH]; intros done Hincl; [reflexivity|].
  cbn [for_each]. unfold Scraper.strip_body at 1.
  destruct (tag_of_attached (map (retag (strip_done s0 done)) s0) x) as (tx & ->).
  { rewrite (proj2 retag_ids). apply Hincl. now left. }
  cbn [bind]. unfold update. rewrite (proj2 retag_retag).
  rewrite is_in_navigation_retag by (intros; apply strip_done_nav_parent).
  rewrite (proj2 retag_ext _ _ (strip_done s0 (x :: done))).
  - rewrite IH by (intros y Hy; apply Hincl; now right).
    f_equal. apply (proj2 retag_ext). intros i t _. unfold strip_done.
    rewrite !existsb_app. cbn [existsb].
    destruct (existsb (Nat.eqb i) rem), (i =? x), (existsb (Nat.eqb i) done); reflexivity.
  - intros i t _. unfold strip_done. cbn [existsb].
    destruct (Nat.eqb_spec i x) as [-> | Hne]; cbn [orb]; [|reflexivity].
    destruct (existsb (Nat.eqb x) done); [apply strip_tag_idempotent | reflexivity].
Qed.

Lemma find_all_everything (s : soup) : find_all (fun _ => true) s = ids s.
Proof. unfold find_all, ids. now rewrite filter_true. Qed.

(** The stripping loop never raises, and rewrites every tag according to
    the element's place in the tree. *)
Lemma strip_attributes_all (s : soup) : Scraper.strip_attributes s = Ok (strip_all s).
Proof.
  unfold Scraper.strip_attributes. rewrite find_all_everything.
  rewrite <- (proj2 retag_id s) at 2.
  rewrite (proj2 retag_ext s _ (strip_done s [])) by reflexivity.
  rewrite strip_loop by apply incl_refl.
  f_equal. apply (proj2 retag_ext). intros i t Hi. unfold strip_done.
  rewrite app_nil_r.
  replace (existsb (Nat.eqb i) (ids s)) with true; [reflexivity|].
  symmetry. apply existsb_exists. exists i. split; [|apply Nat.eqb_refl].
  exact (in_descendants_ids _ _ _ Hi).
Qed.

Lemma strip_all_ids (s : soup) : ids (strip_all s) = ids s.
Proof. apply retag_ids. Qed.

Lemma strip_all_stripped (s : soup) : stripped (strip_all s).
Proof.
  intros e anc t cs H. unfold strip_all in H. rewrite (proj2 locate_retag) in H.
  destruct (locate s e) as [[anc0 n0]|] eqn:E; [|discriminate].
  destruct (locate_element _ _ _ _ E) as (t0 & cs0 & ->).
  cbn [option_map retag_found fst snd retag] in H. injection H as <- <- _.
  rewrite climb_existsb, existsb_app, existsb_nav_retag
    by (intros; apply strip_tag_nav_parent).
  rewrite <- existsb_app, <- climb_existsb.
  rewrite <- (is_in_navigation_located _ _ _ _ E).
  apply strip_tag_idempotent.
Qed.

Lemma strip_all_fixed (s : soup) : NoDup (ids s) -> stripped s -> strip_all s = s.
Proof.
  intros Hd Hs. unfold strip_all.
  rewrite (proj2 retag_ext s _ (fun _ t => t)); [apply retag_id|].
  intros i t Hi. destruct (proj2 descendants_locate _ _ _ Hi Hd) as (anc & cs & E).
  rewrite (is_in_navigation_located _ _ _ _ E). exact (Hs _ _ _ _ E).
Qed.

(** ** Trees obtained by decomposing *)

Lemma prunes_refl (s : soup) : prunes s s.
Proof. now exists []. Qed.

Lemma prunes_trans (a b c : soup) : prunes a b -> prunes b c -> prunes a c.
Proof.
  intros (l1 & ->) (l2 & ->). exists (l1 ++ l2). unfold decompose_all.
  now rewrite fold_left_app.
Qed.

Lemma prunes_decompose (s : soup) (x : nat) : prunes s (decompose x s).
Proof. now exists [x]. Qed.

Lemma prunes_decompose_all (l : list nat) (s : soup) : prunes s (decompose_all l s).
Proof. now exists l. Qed.

Lemma prunes_fold {B : Type} (f : soup -> B -> soup) (l : list B) (s : soup) :
  (forall a x, prunes a (f a x)) -> prunes s (fold_left f l s).
Proof.
  intros Hf. apply (fold_left_invariant f (prunes s)); [apply prunes_refl|].
  intros a x _ Ha. exact (prunes_trans _ _ _ Ha (Hf a x)).
Qed.

Lemma prunes_for_each (body : nat -> soup -> result soup) (l : list nat) :
  (forall x a a', body x a = Ok a' -> prunes a a') ->
  forall s s', for_each body l s = Ok s' -> prunes s s'.
Proof.
  intros Hb. induction l as [|x l IH]; intros s s' H.
  - injection H as <-. apply prunes_refl.
  - cbn [for_each] in H. destruct (body x s) as [a|] eqn:E; [|discriminate].
    cbn [bind] in H. exact (prunes_trans _ _ _ (Hb _ _ _ E) (IH _ _ H)).
Qed.

Lemma prunes_wf (s s' : soup) : prunes s s' -> NoDup (ids s) -> NoDup (ids s').
Proof.
  intros (l & ->). revert s. induction l as [|x l IH]; intros s H; [exact H|].
  apply IH. now apply decompose_wf.
Qed.

(** What is still in a pruned tree was there, under the same ancestors
    and with the same tag. *)
Lemma prunes_locate (s s' : soup) (e : nat) anc t cs' :
  prunes s s' -> NoDup (ids s) ->
  locate s' e = Some (anc, Element e t cs') ->
  exists cs, locate s e = Some (anc, Element e t cs).
Proof.
  intros (l & ->). revert s. induction l as [|x l IH]; intros s Hd H; [eauto|].
  cbn [decompose_all fold_left] in H. fold (decompose_all l (decompose x s)) in H.
  destruct (IH _ (decompose_wf _ x Hd) H) as (cs1 & H1).
  rewrite (locate_decompose _ _ _ Hd) in H1.
  destruct (locate s e) as [[anc0 n0]|] eqn:E; [|discriminate].
  destruct (locate_element _ _ _ _ E) as (t0 & cs0 & ->).
  destruct (_ || _); [discriminate|]. injection H1 as <- <- _. eauto.
Qed.

Lemma prunes_tag_of (s s' : soup) (e : nat) (t : tag) :
  prunes s s' -> NoDup (ids s) -> tag_of s' e = Some t -> tag_of s e = Some t.
Proof.
  intros Hp Hd H. unfold tag_of in H.
  destruct (locate s' e) as [[anc n]|] eqn:E; [|discriminate].
  destruct (locate_element _ _ _ _ E) as (t' & cs' & ->). injection H as ->.
  destruct (prunes_locate _ _ _ _ _ _ Hp Hd E) as (cs & E0).
  unfold tag_of. now rewrite E0.
Qed.

Lemma prunes_stripped (s s' : soup) :
  prunes s s' -> NoDup (ids s) -> stripped s -> stripped s'.
Proof.
  intros Hp Hd Hs e anc t cs' H.
  destruct (prunes_locate _ _ _ _ _ _ Hp Hd H) as (cs & E). exact (Hs _ _ _ _ E).
Qed.

(** ** Every removal rule only decomposes *)

Lemma remove_unwanted_prunes (s : soup) : prunes s (Scraper.remove_unwanted s).
Proof. apply prunes_fold. intros a tg. apply prunes_decompose_all. Qed.

Lemma remove_headers_prunes (s s' : soup) :
  Scraper.remove_headers s = Ok s' -> prunes s s'.
Proof.
  apply prunes_for_each. intros x a a'. unfold Scraper.header_body.
  destruct (tag_of a x); [|discriminate].
  destruct (_ && _); intros H; injection H as <-;
    [apply prunes_decompose | apply prunes_refl].
Qed.

Lemma remove_scripts_prunes (s s' : soup) :
  Scraper.remove_scripts s = Ok s' -> prunes s s'.
Proof.
  apply prunes_for_each. intros x a a'. unfold Scraper.script_body.
  destruct (tag_of a x); [|discriminate].
  destruct (Scraper.tracking_script _ _); intros H; injection H as <-;
    [apply prunes_decompose | apply prunes_refl].
Qed.

Lemma remove_extensions_prunes (s : soup) : prunes s (Scraper.remove_extensions s).
Proof.
  unfold Scraper.remove_extensions.
  eapply prunes_trans; apply prunes_decompose_all.
Qed.

Lemma remove_links_prunes (rels : list string) (s : soup) :
  prunes s (Scraper.remove_links rels s).
Proof. apply prunes_decompose_all. Qed.

Lemma remove_meta_prunes (s s' : soup) :
  Scraper.remove_meta s = Ok s' -> prunes s s'.
Proof.
  apply prunes_for_each. intros x a a'. unfold Scraper.meta_body.
  destruct (tag_of a x); [|discriminate].
  destruct (negb _); intros H; injection H as <-;
    [apply prunes_decompose | apply prunes_refl].
Qed.

Lemma remove_consent_prunes (s : soup) : prunes s (Scraper.remove_consent s).
Proof.
  apply prunes_fold. intros a element_id.
  destruct (find _ a); [apply prunes_decompose | apply prunes_refl].
Qed.

Lemma remove_cookie_classes_prunes (s : soup) :
  prunes s (Scraper.remove_cookie_classes s).
Proof. apply prunes_fold. intros a c. apply prunes_decompose_all. Qed.

Lemma remove_hidden_prunes (s : soup) : prunes s (Scraper.remove_hidden s).
Proof.
  apply prunes_fold. intros a x.
  destruct (hidden_body_cases a x) as [-> | ->];
    [apply prunes_refl | apply prunes_decompose].
Qed.

Lemma remove_display_none_prunes (s s' : soup) :
  Scraper.remove_display_none s = Ok s' -> prunes s s'.
Proof.
  apply prunes_for_each. intros x a a'. unfold Scraper.display_none_body.
  destruct (tag_of a x); [|discriminate].
  destruct (Re.search _ _ _); [destruct (_ <? 10)|]; intros H; injection H as <-;
    try apply prunes_refl; apply prunes_decompose.
Qed.

Lemma empty_body_cases (s : soup) (x : nat) :
  Scraper.empty_body s x = s \/ Scraper.empty_body s x = decompose x s.
Proof.
  unfold Scraper.empty_body.
  destruct (Scraper.is_in_navigation s x || _); [now left|].
  destruct (_ && _); [now right | now left].
Qed.

Lemma remove_empty_prunes (s : soup) : prunes s (Scraper.remove_empty s).
Proof.
  apply prunes_fold. intros a x.
  destruct (empty_body_cases a x) as [-> | ->];
    [apply prunes_refl | apply prunes_decompose].
Qed.

(** The shape of a successful run: decompositions, then the stripping
    pass, then the empty-container rule. *)
Lemma clean_tree_shape (s s1 : soup) :
  Scraper.clean_tree s = Ok s1 ->
  exists a, prunes s a /\ s1 = Scraper.remove_empty (strip_all a).
Proof.
  unfold Scraper.clean_tree. intros H.
  pose proof (remove_unwanted_prunes s) as P1.
  destruct (Scraper.remove_headers _) as [s2|] eqn:E2; [|discriminate].
  apply remove_headers_prunes in E2. cbn [bind] in H.
  destruct (Scraper.remove_scripts _) as [s3|] eqn:E3; [|discriminate].
  apply remove_scripts_prunes in E3. cbn [bind] in H.
  pose proof (remove_extensions_prunes s3) as P4.
  pose proof (remove_links_prunes ["preload"; "prefetch"]
                (Scraper.remove_extensions s3)) as P5.
  destruct (Scraper.remove_meta _) as [s6|] eqn:E6; [|discriminate].
  apply remove_meta_prunes in E6. cbn [bind] in H.
  pose proof (remove_links_prunes ["canonical"; "alternate"] s6) as P7.
  set (s7 := Scraper.remove_links ["canonical"; "alternate"] s6) in *.
  pose proof (remove_consent_prunes s7) as P8.
  pose proof (remove_cookie_classes_prunes (Scraper.remove_consent s7)) as P9.
  pose proof (remove_hidden_prunes
                (Scraper.remove_cookie_classes (Scraper.remove_consent s7))) as P10.
  destruct (Scraper.remove_display_none _) as [s11|] eqn:E11; [|discriminate].
  apply remove_display_none_prunes in E11. cbn [bind] in H.
  rewrite strip_attributes_all in H. cbn [bind] in H. injection H as <-.
  exists s11. split; [|reflexivity].
  eapply prunes_trans; [|exact E11].
  eapply prunes_trans; [|exact P10].
  eapply prunes_trans; [|exact P9].
  eapply prunes_trans; [|exact P8].
  eapply prunes_trans; [|exact P7].
  eapply prunes_trans; [|exact E6].
  eapply prunes_trans; [|exact P5].
  eapply prunes_trans; [|exact P4].
  eapply prunes_trans; [|exact E3].
  eapply prunes_trans; [|exact E2].
  exact P1.
Qed.

(** ** Rules that skip elements inside navigation *)

Lemma climb_nav (chain : list tag) (t : tag) :
  In t chain -> name t = "nav" -> Scraper.climb chain = true.
Proof.
  intros Hin Hn. rewrite climb_existsb. apply existsb_exists. exists t.
  split; [assumption|]. apply nav_parent_spec. now left.
Qed.

Lemma guarded_keeps_nav_contents (body : soup -> nat -> soup) (l : list nat)
    (s : soup) (e n : nat) anc r tn :
  guarded body ->
  NoDup (ids s) ->
  locate s e = Some (anc, r) ->
  In (n, tn) anc -> name tn = "nav" ->
  attached (fold_left body l s) n = true ->
  attached (fold_left body l s) e = true.
Proof.
  intros Hg Hd Hloc Hn Hname.
  set (I := fun s' : soup =>
              NoDup (ids s')
              /\ (locate s' n = None \/ exists r', locate s' e = Some (anc, r'))).
  assert (HI : I (fold_left body l s)).
  { apply fold_left_invariant; [split; eauto|].
    intros a x _ [Ha1 Ha2]. destruct (Hg a x) as [-> | [-> Hnav]]; [now split|].
    split; [now apply decompose_wf|].
    destruct Ha2 as [Ha2 | (r' & Ha2)]; [left; now apply locate_none_decompose|].
    destruct (locate_element _ _ _ _ Ha2) as (t' & cs' & ->).
    destruct (Nat.eq_dec x e) as [-> | Hxe].
    { rewrite (is_in_navigation_located _ _ _ _ Ha2) in Hnav.
      rewrite (climb_nav _ tn) in Hnav; [discriminate | | assumption].
      apply in_or_app. left. apply in_map_iff. now exists (n, tn). }
    destruct (in_dec Nat.eq_dec x (map fst anc)) as [Hxa | Hxa].
    - left.
      destruct (proj2 ancestor_split _ _ _ _ _ Ha1 Ha2 Hxa)
        as (ancx & tx & csx & anc1 & Ex & Ee & Hanc).
      rewrite (is_in_navigation_located _ _ _ _ Ex) in Hnav.
      rewrite Hanc in Hn. apply in_app_or in Hn as [Hn | [Hn | Hn]].
      + assert (Hin : In n (ids csx)).
        { assert (Hi : In n (map fst anc1)) by (apply in_map_iff; now exists (n, tn)).
          destruct (proj2 ancestor_split _ _ _ _ _
                      (proj2 located_NoDup _ _ _ _ _ Ha1 Ex) Ee Hi)
            as (? & ? & ? & ? & En & _).
          exact (locate_some_in _ _ _ En). }
        destruct (proj2 descendant_locate _ _ _ _ _ _ Ha1 Ex Hin) as (anc1' & rn & En).
        rewrite (locate_decompose _ _ _ Ha1), En.
        destruct (locate_element _ _ _ _ En) as (? & ? & ->).
        replace (existsb (Nat.eqb x) (map fst (anc1' ++ (x, tx) :: ancx))) with true;
          [now rewrite orb_true_r|].
        symmetry. apply existsb_exists. exists x. split; [|apply Nat.eqb_refl].
        rewrite map_app. apply in_or_app. right. now left.
      + injection Hn as -> ->. apply locate_not_in. intros Hi.
        apply decompose_ids in Hi as [_ Hi]. congruence.
      + rewrite (climb_nav _ tn) in Hnav; [discriminate | | assumption].
        apply in_or_app. left. apply in_map_iff. now exists (n, tn).
    - right. rewrite (locate_decompose _ _ _ Ha1), Ha2.
      destruct (Nat.eqb_spec x e); [contradiction|].
      rewrite (not_in_existsb _ _ Hxa). cbn [orb]. eauto. }
  destruct HI as [_ [HI | (r' & HI)]]; unfold attached.
  - rewrite HI. discriminate.
  - now rewrite HI.
Qed.

Lemma place_cons (n : node) (l : list node) (e : nat) :
  place (n :: l) e = match place [n] e with Some p => Some p | None => place l e end.
Proof.
  unfold place. rewrite !locate_cons. cbn [locate first_some].
  destruct (locate_in e n) as [[anc x]|] eqn:E; [|reflexivity].
  assert (H : locate [n] e = Some (anc, x)) by (unfold locate; cbn; now rewrite E).
  destruct (locate_element _ _ _ _ H) as (t & cs & ->). reflexivity.
Qed.

Lemma place_app (a b : list node) (e : nat) :
  place (a ++ b) e = match place a e with Some p => Some p | None => place b e end.
Proof.
  induction a as [|n a IH]; [reflexivity|].
  cbn [app]. rewrite (place_cons n (a ++ b)), (place_cons n a), IH.
  now destruct (place [n] e).
Qed.

Lemma place_element (i : nat) (t : tag) (cs : list node) (e : nat) :
  place [Element i t cs] e
  = if i =? e then Some ([], t) else option_map (under i t) (place cs e).
Proof.
  unfold place at 1. rewrite locate_cons, locate_in_element. cbn [locate first_some].
  destruct (i =? e); [reflexivity|].
  fold (locate cs e). unfold place.
  destruct (locate cs e) as [[anc x]|] eqn:E; [|reflexivity].
  destruct (locate_element _ _ _ _ E) as (t' & cs' & ->). reflexivity.
Qed.

Lemma place_skeleton :
  (forall n e, place (skeleton n) e = place [n] e)
  /\ (forall l e, place (flat_map skeleton l) e = place l e).
Proof.
  apply (node_forest_ind
           (fun n => forall e, place (skeleton n) e = place [n] e)
           (fun l => forall e, place (flat_map skeleton l) e = place l e)).
  - reflexivity.
  - intros n l Hn Hl e. cbn [flat_map]. now rewrite place_app, place_cons, Hn, Hl.
  - reflexivity.
  - intros i t cs Hcs e. cbn [skeleton]. now rewrite !place_element, Hcs.
Qed.

Lemma same_elements_place (a b : soup) (e : nat) :
  same_elements a b -> place a e = place b e.
Proof.
  intros H. rewrite <- (proj2 place_skeleton a), <- (proj2 place_skeleton b).
  now rewrite H.
Qed.

Lemma place_in_ids (s : soup) (e : nat) : In e (ids s) <-> place s e <> None.
Proof.
  unfold place. split.
  - intros H. destruct (locate_in_ids _ _ H) as (anc & t & cs & ->). discriminate.
  - intros H. destruct (locate s e) as [r|] eqn:E; [|congruence].
    exact (locate_some_in _ _ _ E).
Qed.

Lemma skeleton_ids :
  (forall n, ids (skeleton n) = node_ids n)
  /\ (forall l, ids (flat_map skeleton l) = ids l).
Proof.
  apply (node_forest_ind
           (fun n => ids (skeleton n) = node_ids n)
           (fun l => ids (flat_map skeleton l) = ids l)).
  - reflexivity.
  - intros n l Hn Hl. cbn [flat_map]. now rewrite ids_app, ids_cons, Hn, Hl.
  - reflexivity.
  - intros i t cs Hcs. cbn [skeleton].
    now rewrite ids_cons, !node_ids_element, Hcs, app_nil_r.
Qed.

Lemma same_elements_ids (a b : soup) : same_elements a b -> ids a = ids b.
Proof.
  intros H. rewrite <- (proj2 skeleton_ids a), <- (proj2 skeleton_ids b). now rewrite H.
Qed.

Lemma stripped_place (s : soup) :
  stripped s <->
  forall e anc t, place s e = Some (anc, t) ->
                  Scraper.strip_tag (Scraper.climb (map snd anc ++ [document])) t = t.
Proof.
  unfold stripped, place. split.
  - intros H e anc t Hp. destruct (locate s e) as [[anc' x]|] eqn:E; [|discriminate].
    destruct (locate_element _ _ _ _ E) as (t' & cs' & ->). injection Hp as -> ->.
    exact (H _ _ _ _ E).
  - intros H e anc t cs E. apply (H e). now rewrite E.
Qed.

Lemma same_elements_stripped (a b : soup) :
  same_elements a b -> stripped a -> stripped b.
Proof.
  intros H Ha. apply stripped_place. intros e anc t Hp.
  rewrite <- (same_elements_place _ _ e H) in Hp.
  exact (proj1 (stripped_place a) Ha _ _ _ Hp).
Qed.

Lemma tag_of_place (s : soup) (e : nat) : tag_of s e = option_map snd (place s e).
Proof.
  unfold tag_of, place. destruct (locate s e) as [[anc [|i t cs]]|]; reflexivity.
Qed.

(** The result of a run is fixed by the stripping pass, and so is every
    tree with the same elements. *)
Lemma clean_tree_stripped (s s1 : soup) :
  NoDup (ids s) -> Scraper.clean_tree s = Ok s1 -> NoDup (ids s1) /\ stripped s1.
Proof.
  intros Hd H. destruct (clean_tree_shape _ _ H) as (a & Pa & ->).
  assert (Hda : NoDup (ids (strip_all a))).
  { rewrite strip_all_ids. exact (prunes_wf _ _ Pa Hd). }
  split.
  - exact (prunes_wf _ _ (remove_empty_prunes _) Hda).
  - exact (prunes_stripped _ _ (remove_empty_prunes _) Hda (strip_all_stripped a)).
Qed.

Lemma clean_tree_of_stripped (s s' : soup) :
  NoDup (ids s) -> stripped s -> Scraper.clean_tree s = Ok s' -> prunes s s'.
Proof.
  intros Hd Hs H. destruct (clean_tree_shape _ _ H) as (a & Pa & ->).
  rewrite strip_all_fixed.
  - exact (prunes_trans _ _ _ Pa (remove_empty_prunes a)).
  - exact (prunes_wf _ _ Pa Hd).
  - exact (prunes_stripped _ _ Pa Hd Hs).
Qed.

(** ** The claims about the cleaner *)

Lemma hidden_body_guarded : guarded Scraper.hidden_body.
Proof.
  intros s x. unfold Scraper.hidden_body.
  destruct (Scraper.is_in_navigation s x); [left; now rewrite orb_true_r|].
  rewrite orb_false_r.
  destruct (match name_of s x with Some nm => (nm =? "svg")%string | None => false end);
    [now left|].
  destruct (_ <? 10); [right; now split | now left].
Qed.

Lemma empty_body_guarded : guarded Scraper.empty_body.
Proof.
  intros s x. unfold Scraper.empty_body.
  destruct (Scraper.is_in_navigation s x); [now left|]. cbn [orb].
  destruct (find (named "svg") (contents_of s x)); [now left|].
  destruct (_ && _); [right; now split | now left].
Qed.

(** C1 as stated fails: the rule that removes every [noscript] takes the
    [noscript] under the [nav], and the image in it, out of the tree. *)
Lemma nav_descendant_deleted :
  parents menu_page 4 = [Tag "noscript" []; Tag "nav" []; document]
  /\ Scraper.clean_tree menu_page = Ok menu_cleaned
  /\ attached menu_cleaned 3 = false
  /\ attached menu_cleaned 4 = false.
Proof. repeat split; vm_compute; reflexivity. Qed.

(** C1, amended: the [aria-hidden] rule and the empty-container rule
    delete nothing below a [nav] that stays in the tree: an element with
    a [nav] among its ancestors is still in the tree after either rule
    whenever that [nav] is, also when the element meets the rule's
    removal condition. *)
Theorem navigation_survives_guarded_rules (s : soup) (e n : nat)
    (anc : list (nat * tag)) (r : node) (tn : tag) :
  NoDup (ids s) ->
  locate s e = Some (anc, r) ->
  In (n, tn) anc ->
  name tn = "nav" ->
  (attached (Scraper.remove_hidden s) n = true ->
   attached (Scraper.remove_hidden s) e = true)
  /\ (attached (Scraper.remove_empty s) n = true ->
      attached (Scraper.remove_empty s) e = true).
Proof.
  intros Hd Hloc Hn Hname. split.
  - exact (guarded_keeps_nav_contents _ _ _ _ _ _ _ _ hidden_body_guarded Hd Hloc Hn Hname).
  - exact (guarded_keeps_nav_contents _ _ _ _ _ _ _ _ empty_body_guarded Hd Hloc Hn Hname).
Qed.

Lemma navigation_survives_guarded_rules_witness :
  (attached (Scraper.remove_hidden guarded_page) 1 = true ->
   attached (Scraper.remove_hidden guarded_page) 2 = true)
  /\ (attached (Scraper.remove_empty guarded_page) 1 = true ->
      attached (Scraper.remove_empty guarded_page) 2 = true).
Proof.
  apply (navigation_survives_guarded_rules guarded_page 2 1
           [(1, Tag "nav" [])]
           (Element 2 (Tag "span" [("aria-hidden", "true")]) [])
           (Tag "nav" [])).
  - change (NoDup [1; 2; 3]). distinct_ids.
  - reflexivity.
  - now left.
  - reflexivity.
Defined.

Example guarded_page_cleaned : Scraper.clean_tree guarded_page = Ok guarded_page.
Proof. vm_compute. reflexivity. Qed.

(** The [display:none] rule has no such guard: the hidden drop-down under
    the [nav] goes, with the link in it. *)
Example nav_display_none_deleted :
  Scraper.is_in_navigation dropdown_page 2 = true
  /\ Scraper.clean_tree dropdown_page = Ok [Element 1 (Tag "nav" []) []].
Proof. split; vm_compute; reflexivity. Qed.





(** C3 as stated fails: the first run keeps the block (10 characters)
    and then deletes its [display:none] child; the second run, on that
    output or on its re-parsed form, finds 5 characters and deletes the
    block. *)
Lemma second_run_deletes_more :
  Scraper.clean_tree teaser_page = Ok teaser_cleaned
  /\ attached teaser_cleaned 1 = true
  /\ Scraper.clean_tree teaser_cleaned = Ok []
  /\ same_elements teaser_cleaned teaser_reparsed
  /\ Scraper.clean_tree teaser_reparsed = Ok [Text " "].
Proof. repeat split; vm_compute; reflexivity. Qed.

(** C3, amended: a second run, on a tree with the elements of the first
    run's output (the strings may differ, as they do after serializing and
    parsing again), only decomposes elements: it strips no attribute, and
    every element left after it has the tag it had after the first run.
    (It may delete further elements.) *)
Theorem second_run_only_decomposes (s s1 s1' s2 : soup) :
  NoDup (ids s) ->
  Scraper.clean_tree s = Ok s1 ->
  same_elements s1 s1' ->
  Scraper.clean_tree s1' = Ok s2 ->
  (exists l, s2 = decompose_all l s1')
  /\ (forall e t, tag_of s2 e = Some t -> tag_of s1 e = Some t).
Proof.
  intros Hd H1 Hsame H2.
  destruct (clean_tree_stripped _ _ Hd H1) as [Hd1 Hs1].
  assert (Hd1' : NoDup (ids s1')) by (now rewrite <- (same_elements_ids _ _ Hsame)).
  assert (Hs1' : stripped s1') by exact (same_elements_stripped _ _ Hsame Hs1).
  pose proof (clean_tree_of_stripped _ _ Hd1' Hs1' H2) as P.
  split; [exact P|]. intros e t Ht.
  apply (prunes_tag_of _ _ _ _ P Hd1') in Ht.
  rewrite tag_of_place in Ht |- *. now rewrite (same_elements_place _ _ e Hsame).
Qed.

Lemma second_run_only_decomposes_witness :
  (exists l, styled_reparsed = decompose_all l styled_reparsed)
  /\ (forall e t, tag_of styled_reparsed e = Some t -> tag_of styled_cleaned e = Some t).
Proof.
  apply (second_run_only_decomposes styled_page styled_cleaned styled_reparsed
           styled_reparsed).
  - change (NoDup [1; 2; 3]). distinct_ids.
  - vm_compute. reflexivity.
  - reflexivity.
  - vm_compute. reflexivity.
Defined.

(** C5: on a parsed page (identities distinct, scripts holding text
    only) the script loop ends normally; every script whose lower-cased
    [src] contains a deny-listed fragment is gone afterwards, and every
    script that meets none of the removal conditions is still there,
    unchanged.  [googletagmanager.com/gtm.js] is deny-listed and [/app.js]
    is not. *)
Theorem script_filtering (s : soup) :
  NoDup (ids s) ->
  script_leaves s = true ->
  exists s',
    Scraper.remove_scripts s = Ok s'
    /\ (forall script anc t cs,
           locate s script = Some (anc, Element script t cs) ->
           name t = "script" ->
           (Py.any_in Scraper.trackers (Py.lower (get_or t "src" "")) = true ->
            attached s' script = false)
           /\ (Py.any_in Scraper.trackers (Py.lower (get_or t "src" "")) = false ->
               Py.contains "utag" (get_or t "id" "") = false ->
               Py.contains "BOOMR" (get_text cs) = false ->
               get t "type" <> Some "application/ld+json" ->
               Py.any_in ["utag_data"; "fbq("; "gtag("; "_linkedin_data_partner_ids"]
                         (get_text cs) = false ->
               locate s' script = Some (anc, Element script t cs)))
    /\ Py.any_in Scraper.trackers (Py.lower "https://www.googletagmanager.com/gtm.js") = true
    /\ Py.any_in Scraper.trackers (Py.lower "/app.js") = false.
Proof.
  intros Hd Hl. destruct (remove_scripts_settles s Hd Hl) as (s' & Hrun & Hset).
  exists s'. split; [exact Hrun|]. split; [|split; vm_compute; reflexivity].
  intros script anc t cs Hloc Hname.
  assert (Hin : In script (find_all (named "script") s)).
  { unfold find_all. apply in_map_iff. exists (script, t). split; [reflexivity|].
    apply filter_In. split; [exact (proj2 locate_descendants _ _ _ _ _ Hloc)|].
    now apply named_script. }
  specialize (Hset _ Hin). unfold settled, verdict in Hset. rewrite Hloc in Hset.
  unfold Scraper.tracking_script in Hset. split.
  - intros Hsrc. rewrite Hsrc in Hset. cbn [orb] in Hset. unfold attached. now rewrite Hset.
  - intros Hsrc Hid Hboomr Htype Hkw. rewrite Hsrc, Hid, Hboomr in Hset.
    cbn [orb] in Hset.
    change Scraper.inline_keywords
      with ["utag_data"; "fbq("; "gtag("; "_linkedin_data_partner_ids"] in Hset.
    rewrite Hkw in Hset.
    destruct (get t "type") as [ty|]; [|exact Hset].
    destruct (String.eqb ty "application/ld+json") eqn:Ety; [|exact Hset].
    apply String.eqb_eq in Ety. subst ty. congruence.
Qed.

Lemma script_filtering_witness :
  exists s',
    Scraper.remove_scripts script_page = Ok s'
    /\ (forall script anc t cs,
           locate script_page script = Some (anc, Element script t cs) ->
           name t = "script" ->
           (Py.any_in Scraper.trackers (Py.lower (get_or t "src" "")) = true ->
            attached s' script = false)
           /\ (Py.any_in Scraper.trackers (Py.lower (get_or t "src" "")) = false ->
               Py.contains "utag" (get_or t "id" "") = false ->
               Py.contains "BOOMR" (get_text cs) = false ->
               get t "type" <> Some "application/ld+json" ->
               Py.any_in ["utag_data"; "fbq("; "gtag("; "_linkedin_data_partner_ids"]
                         (get_text cs) = false ->
               locate s' script = Some (anc, Element script t cs)))
    /\ Py.any_in Scraper.trackers (Py.lower "https://www.googletagmanager.com/gtm.js") = true
    /\ Py.any_in Scraper.trackers (Py.lower "/app.js") = false.
Proof.
  apply (script_filtering script_page).
  - change (NoDup [1; 2; 3; 4]). distinct_ids.
  - vm_compute. reflexivity.
Defined.

Example script_page_filtered :
  Scraper.remove_scripts script_page
  = Ok [Element 2 (Tag "script" [("src", "/app.js")]) [];
        Element 4 (Tag "p" []) [Text "Hello"]].
Proof. vm_compute. reflexivity. Qed.

(** ** What a run leaves in the tree *)

Lemma decompose_descendants :
  (forall n x i t, In (i, t) (descendants (prune x n)) -> In (i, t) (tags_of n) /\ i <> x)
  /\ (forall l x i t,
        In (i, t) (descendants (decompose x l)) -> In (i, t) (descendants l) /\ i <> x).
Proof.
  apply (node_forest_ind
           (fun n => forall x i t,
                In (i, t) (descendants (prune x n)) -> In (i, t) (tags_of n) /\ i <> x)
           (fun l => forall x i t,
                In (i, t) (descendants (decompose x l))
                -> In (i, t) (descendants l) /\ i <> x)).
  - intros x i t [].
  - intros n l Hn Hl x i t. rewrite decompose_cons, descendants_cons.
    unfold descendants at 1. rewrite flat_map_app. intros H.
    apply in_app_or in H as [H | H].
    + apply Hn in H as [H1 H2]. split; [apply in_or_app; now left | assumption].
    + apply Hl in H as [H1 H2]. split; [apply in_or_app; now right | assumption].
  - intros s x i t [].
  - intros j tj cs Hcs x i t. rewrite prune_element, tags_of_element.
    destruct (Nat.eqb_spec j x) as [-> | Hne]; [intros []|].
    rewrite descendants_cons, tags_of_element. cbn [descendants flat_map]. rewrite app_nil_r.
    intros [H | H].
    + injection H as <- <-. split; [now left | assumption].
    + apply Hcs in H as [H1 H2]. split; [now right | assumption].
Qed.

Lemma prunes_descendants (s s' : soup) (i : nat) (t : tag) :
  prunes s s' -> In (i, t) (descendants s') -> In (i, t) (descendants s).
Proof.
  intros (l & ->). revert s. induction l as [|x l IH]; intros s H; [exact H|].
  cbn [decompose_all fold_left] in H. fold (decompose_all l (decompose x s)) in H.
  apply IH in H. now apply (proj2 decompose_descendants) in H.
Qed.

Lemma prunes_ids (s s' : soup) (i : nat) : prunes s s' -> In i (ids s') -> In i (ids s).
Proof.
  intros (l & ->). revert s. induction l as [|x l IH]; intros s H; [exact H|].
  cbn [decompose_all fold_left] in H. fold (decompose_all l (decompose x s)) in H.
  apply IH in H. now apply decompose_ids_incl in H.
Qed.

(** A decomposed object never comes back. *)
Lemma decompose_all_gone (l : list nat) (s : soup) (x : nat) :
  In x l -> ~ In x (ids (decompose_all l s)).
Proof.
  revert s. induction l as [|y l IH]; intros s []; subst.
  - intros H. cbn [decompose_all fold_left] in H.
    fold (decompose_all l (decompose x s)) in H.
    apply (prunes_ids (decompose x s)) in H; [|apply prunes_decompose_all].
    apply decompose_ids_incl in H. now destruct H.
  - now apply IH.
Qed.

Lemma find_all_nil (p : tag -> bool) (s : soup) :
  find_all p s = [] <-> forall i t, In (i, t) (descendants s) -> p t = false.
Proof.
  unfold find_all. split.
  - intros H i t Hi. destruct (p t) eqn:E; [|reflexivity].
    assert (Hin : In (i, t) (filter (fun it => p (snd it)) (descendants s))).
    { apply filter_In. now split. }
    apply (in_map fst) in Hin. rewrite H in Hin. destruct Hin.
  - intros H. induction (descendants s) as [|[i t] l IH]; [reflexivity|].
    cbn [filter snd]. rewrite (H i t) by now left.
    apply IH. intros j u Hj. apply (H j u). now right.
Qed.

Lemma find_all_intro (p : tag -> bool) (s : soup) (i : nat) (t : tag) :
  In (i, t) (descendants s) -> p t = true -> In i (find_all p s).
Proof.
  intros Hi Hp. unfold find_all.
  change i with (fst (i, t)). apply in_map. apply filter_In. now split.
Qed.

(** [for x in soup.find_all(p): x.decompose()] leaves nothing that passes
    [p]. *)
Lemma decompose_all_find_all (p : tag -> bool) (s : soup) :
  find_all p (decompose_all (find_all p s) s) = [].
Proof.
  apply find_all_nil. intros i t Hi. destruct (p t) eqn:E; [|reflexivity].
  exfalso. apply (decompose_all_gone (find_all p s) s i).
  - apply (find_all_intro p s i t); [|exact E].
    exact (prunes_descendants _ _ _ _ (prunes_decompose_all _ _) Hi).
  - exact (in_descendants_ids _ _ _ Hi).
Qed.

Lemma find_all_nil_prunes (p : tag -> bool) (s s' : soup) :
  prunes s s' -> find_all p s = [] -> find_all p s' = [].
Proof.
  intros Hp H. apply find_all_nil. intros i t Hi.
  apply (proj1 (find_all_nil p s) H i t). exact (prunes_descendants _ _ _ _ Hp Hi).
Qed.

Lemma retag_descendants :
  (forall n f, tags_of (retag f n) = map (retag_entry f) (tags_of n))
  /\ (forall l f, descendants (map (retag f) l) = map (retag_entry f) (descendants l)).
Proof.
  apply (node_forest_ind
           (fun n => forall f, tags_of (retag f n) = map (retag_entry f) (tags_of n))
           (fun l => forall f,
                descendants (map (retag f) l) = map (retag_entry f) (descendants l))).
  - reflexivity.
  - intros n l Hn Hl f. cbn [map]. now rewrite !descendants_cons, map_app, Hn, Hl.
  - reflexivity.
  - intros i t cs Hcs f. cbn [retag]. rewrite !tags_of_element. cbn [map].
    now rewrite Hcs.
Qed.

(** A test that does not look at the stripped attributes gives the same
    answers after the stripping pass. *)
Lemma find_all_strip_all (p : tag -> bool) (s : soup) :
  (forall b t, p (Scraper.strip_tag b t) = p t) ->
  find_all p (strip_all s) = find_all p s.
Proof.
  intros Hp. unfold find_all, strip_all. rewrite (proj2 retag_descendants).
  induction (descendants s) as [|[i t] l IH]; [reflexivity|].
  cbn [map filter retag_entry fst snd]. rewrite Hp.
  destruct (p t); cbn [map fst]; now rewrite IH.
Qed.

(** The stages of a successful run. *)
Lemma clean_tree_stages (s s1 : soup) :
  Scraper.clean_tree s = Ok s1 ->
  exists h sc m d,
    Scraper.remove_headers (Scraper.remove_unwanted s) = Ok h
    /\ Scraper.remove_scripts h = Ok sc
    /\ Scraper.remove_meta
         (Scraper.remove_links ["preload"; "prefetch"] (Scraper.remove_extensions sc))
       = Ok m
    /\ Scraper.remove_display_none
         (Scraper.remove_hidden
            (Scraper.remove_cookie_classes
               (Scraper.remove_consent
                  (Scraper.remove_links ["canonical"; "alternate"] m))))
       = Ok d
    /\ s1 = Scraper.remove_empty (strip_all d).
Proof.
  unfold Scraper.clean_tree. intros H.
  destruct (Scraper.remove_headers _) as [h|] eqn:E2; [|discriminate]. cbn [bind] in H.
  destruct (Scraper.remove_scripts _) as [sc|] eqn:E3; [|discriminate]. cbn [bind] in H.
  destruct (Scraper.remove_meta _) as [m|] eqn:E6; [|discriminate]. cbn [bind] in H.
  destruct (Scraper.remove_display_none _) as [d|] eqn:E11; [|discriminate].
  cbn [bind] in H. rewrite strip_attributes_all in H. cbn [bind] in H.
  injection H as <-. exists h, sc, m, d. repeat split; assumption.
Qed.

(** What holds of no element at some stage, for a test the stripping pass
    does not disturb, holds of no element of the result. *)
Lemma absent_to_the_end (p : tag -> bool) (a d : soup) :
  (forall b t, p (Scraper.strip_tag b t) = p t) ->
  prunes a d -> find_all p a = [] ->
  find_all p (Scraper.remove_empty (strip_all d)) = [].
Proof.
  intros Hp Had Ha.
  apply (find_all_nil_prunes p (strip_all d)); [apply remove_empty_prunes|].
  rewrite find_all_strip_all by exact Hp.
  exact (find_all_nil_prunes p a d Had Ha).
Qed.

Lemma strip_tag_name (b : bool) (t : tag) : name (Scraper.strip_tag b t) = name t.
Proof. now rewrite strip_tag_without. Qed.

Lemma strip_tag_get (b : bool) (t : tag) (k : string) :
  Py.mem k (stripped_attrs true) = false -> Py.mem k (stripped_attrs false) = false ->
  get (Scraper.strip_tag b t) k = get t k.
Proof.
  intros H1 H2. rewrite strip_tag_without. apply without_get. now destruct b.
Qed.

Lemma named_strip (nm : string) (b : bool) (t : tag) :
  named nm (Scraper.strip_tag b t) = named nm t.
Proof. unfold named. now rewrite strip_tag_name. Qed.

Lemma named_any_strip (nms : list string) (b : bool) (t : tag) :
  named_any nms (Scraper.strip_tag b t) = named_any nms t.
Proof. unfold named_any. now rewrite strip_tag_name. Qed.

Lemma link_rel_strip (rels : list string) (b : bool) (t : tag) :
  Scraper.link_rel rels (Scraper.strip_tag b t) = Scraper.link_rel rels t.
Proof.
  unfold Scraper.link_rel, list_attr_in, get_list.
  now rewrite named_strip, strip_tag_get by reflexivity.
Qed.

Lemma has_class_strip (c : string) (b : bool) (t : tag) :
  has_class c (Scraper.strip_tag b t) = has_class c t.
Proof.
  unfold has_class, list_attr_in, get_list. now rewrite strip_tag_get by reflexivity.
Qed.

Lemma class_matches_strip (r : Re.regex) (b : bool) (t : tag) :
  class_matches r (Scraper.strip_tag b t) = class_matches r t.
Proof.
  unfold class_matches, get_list. now rewrite strip_tag_get by reflexivity.
Qed.

(** The stages of a run, each a pruning of the one before. *)
Lemma remove_unwanted_absent (s : soup) (tg : string) :
  In tg Scraper.unwanted_tags -> find_all (named tg) (Scraper.remove_unwanted s) = [].
Proof.
  unfold Scraper.remove_unwanted. generalize Scraper.unwanted_tags as l.
  intros l. revert s. induction l as [|u l IH] using rev_ind; intros s; [intros []|].
  rewrite fold_left_app. cbn [fold_left]. intros H. apply in_app_or in H as [H | [<- | []]].
  - eapply find_all_nil_prunes; [apply prunes_decompose_all|]. now apply IH.
  - apply decompose_all_find_all.
Qed.

(** Each stage of a run prunes the tree it is given. *)
Lemma stage_unwanted (a s : soup) : prunes a s -> prunes a (Scraper.remove_unwanted s).
Proof. intros H. exact (prunes_trans _ _ _ H (remove_unwanted_prunes s)). Qed.

Lemma stage_headers (a s h : soup) :
  Scraper.remove_headers s = Ok h -> prunes a s -> prunes a h.
Proof. intros E H. exact (prunes_trans _ _ _ H (remove_headers_prunes _ _ E)). Qed.

Lemma stage_scripts (a s sc : soup) :
  Scraper.remove_scripts s = Ok sc -> prunes a s -> prunes a sc.
Proof. intros E H. exact (prunes_trans _ _ _ H (remove_scripts_prunes _ _ E)). Qed.

Lemma stage_extensions (a s : soup) : prunes a s -> prunes a (Scraper.remove_extensions s).
Proof. intros H. exact (prunes_trans _ _ _ H (remove_extensions_prunes s)). Qed.

Lemma stage_links (rels : list string) (a s : soup) :
  prunes a s -> prunes a (Scraper.remove_links rels s).
Proof. intros H. exact (prunes_trans _ _ _ H (remove_links_prunes rels s)). Qed.

Lemma stage_meta (a s m : soup) :
  Scraper.remove_meta s = Ok m -> prunes a s -> prunes a m.
Proof. intros E H. exact (prunes_trans _ _ _ H (remove_meta_prunes _ _ E)). Qed.

Lemma stage_consent (a s : soup) : prunes a s -> prunes a (Scraper.remove_consent s).
Proof. intros H. exact (prunes_trans _ _ _ H (remove_consent_prunes s)). Qed.

Lemma stage_cookie_classes (a s : soup) :
  prunes a s -> prunes a (Scraper.remove_cookie_classes s).
Proof. intros H. exact (prunes_trans _ _ _ H (remove_cookie_classes_prunes s)). Qed.

Lemma stage_hidden (a s : soup) : prunes a s -> prunes a (Scraper.remove_hidden s).
Proof. intros H. exact (prunes_trans _ _ _ H (remove_hidden_prunes s)). Qed.

Lemma stage_display_none (a s d : soup) :
  Scraper.remove_display_none s = Ok d -> prunes a s -> prunes a d.
Proof. intros E H. exact (prunes_trans _ _ _ H (remove_display_none_prunes _ _ E)). Qed.

Lemma stage_empty (a s : soup) : prunes a s -> prunes a (Scraper.remove_empty s).
Proof. intros H. exact (prunes_trans _ _ _ H (remove_empty_prunes s)). Qed.

Create HintDb stages.
#[local] Hint Resolve prunes_refl stage_unwanted stage_headers stage_scripts
  stage_extensions stage_links stage_meta stage_consent stage_cookie_classes
  stage_hidden stage_display_none stage_empty : stages.

(** Decomposing adds no string. *)
Lemma decompose_strings :
  (forall n x str, In str (flat_map strings (prune x n)) -> In str (strings n))
  /\ (forall l x str,
        In str (flat_map strings (decompose x l)) -> In str (flat_map strings l)).
Proof.
  apply (node_forest_ind
           (fun n => forall x str,
                In str (flat_map strings (prune x n)) -> In str (strings n))
           (fun l => forall x str,
                In str (flat_map strings (decompose x l))
                -> In str (flat_map strings l))).
  - intros x str [].
  - intros n l Hn Hl x str. rewrite decompose_cons, flat_map_app. cbn [flat_map].
    intros H. apply in_app_or in H as [H | H]; apply in_or_app; eauto.
  - intros s x str H. exact H.
  - intros i t cs Hcs x str. rewrite prune_element.
    destruct (i =? x); [intros []|]. cbn [flat_map strings]. rewrite app_nil_r.
    apply Hcs.
Qed.

Lemma prunes_strings (s s' : soup) (str : string) :
  prunes s s' -> In str (flat_map strings s') -> In str (flat_map strings s).
Proof.
  intros (l & ->). revert s. induction l as [|x l IH]; intros s H; [exact H|].
  cbn [decompose_all fold_left] in H. fold (decompose_all l (decompose x s)) in H.
  apply IH in H. now apply (proj2 decompose_strings) in H.
Qed.

Lemma for_each_app (body : nat -> soup -> result soup) (l1 l2 : list nat) :
  forall s s',
    for_each body (l1 ++ l2) s = Ok s' ->
    exists a, for_each body l1 s = Ok a /\ for_each body l2 a = Ok s'.
Proof.
  induction l1 as [|x l1 IH]; intros s s' H; [now exists s|].
  cbn [app for_each] in *. destruct (body x s) as [a|]; [|discriminate].
  cbn [bind] in *. now apply IH.
Qed.

(** A loop whose body deletes its element whenever the element's tag
    passes [q]: if the loop comes to its end, no element the loop visited
    passes [q]. *)
Lemma for_each_selective (body : nat -> soup -> result soup) (p q : tag -> bool)
    (s s' : soup) :
  (forall x a a', body x a = Ok a' ->
     exists t, tag_of a x = Some t
               /\ (a' = a \/ a' = decompose x a)
               /\ (q t = true -> a' = decompose x a)) ->
  NoDup (ids s) ->
  for_each body (find_all p s) s = Ok s' ->
  forall i t, In (i, t) (descendants s') -> p t = true -> q t = false.
Proof.
  intros Hb Hd H i t Hi Hp. destruct (q t) eqn:Hq; [exfalso|reflexivity].
  assert (Hstep : forall x a a', body x a = Ok a' -> prunes a a').
  { intros x a a' E. destruct (Hb _ _ _ E) as (_ & _ & [-> | ->] & _);
      [apply prunes_refl | apply prunes_decompose]. }
  pose proof (prunes_for_each body _ Hstep _ _ H) as Hss'.
  pose proof (prunes_descendants _ _ _ _ Hss' Hi) as Hi0.
  destruct (in_split _ _ (find_all_intro p s i t Hi0 Hp)) as (l1 & l2 & El).
  rewrite El in H. apply for_each_app in H as (a & H1 & H2).
  cbn [for_each] in H2. destruct (body i a) as [a1|] eqn:E; [|discriminate].
  cbn [bind] in H2. destruct (Hb _ _ _ E) as (t0 & Et0 & _ & Hdel).
  pose proof (prunes_for_each body _ Hstep _ _ H1) as Hsa.
  apply (prunes_tag_of _ _ _ _ Hsa Hd) in Et0.
  destruct (proj2 descendants_locate _ _ _ Hi0 Hd) as (anc & cs & El0).
  unfold tag_of in Et0. rewrite El0 in Et0. injection Et0 as <-.
  rewrite (Hdel Hq) in H2.
  pose proof (prunes_for_each body _ Hstep _ _ H2) as Ha1.
  apply in_descendants_ids in Hi. apply (prunes_ids _ _ _ Ha1) in Hi.
  apply decompose_ids_incl in Hi. now destruct Hi.
Qed.

(** The [meta] test, and the part of the [script] test that reads the tag
    only. *)
Lemma meta_body_cases (x : nat) (a a' : soup) :
  Scraper.meta_body x a = Ok a' ->
  exists t, tag_of a x = Some t
            /\ (a' = a \/ a' = decompose x a)
            /\ (negb (kept_meta t) = true -> a' = decompose x a).
Proof.
  unfold Scraper.meta_body, kept_meta. destruct (tag_of a x) as [t|]; [|discriminate].
  intros H. exists t. split; [reflexivity|].
  destruct (negb _); injection H as <-; split; auto; discriminate.
Qed.

Lemma script_body_cases (x : nat) (a a' : soup) :
  Scraper.script_body x a = Ok a' ->
  exists t, tag_of a x = Some t
            /\ (a' = a \/ a' = decompose x a)
            /\ (tracking_tag t = true -> a' = decompose x a).
Proof.
  unfold Scraper.script_body, Scraper.tracking_script, tracking_tag.
  destruct (tag_of a x) as [t|]; [|discriminate].
  intros H. exists t. split; [reflexivity|].
  destruct (Py.any_in Scraper.trackers _); cbn [orb] in *.
  { injection H as <-. auto. }
  destruct (Py.contains "utag" _); cbn [orb] in *.
  { injection H as <-. auto. }
  destruct (Py.contains "BOOMR" _); cbn [orb] in *.
  { injection H as <-. auto. }
  destruct (match get t "type" with Some ty => _ | None => false end).
  { injection H as <-. auto. }
  destruct (Py.any_in Scraper.inline_keywords _); injection H as <-; split; auto;
    discriminate.
Qed.

Lemma kept_meta_strip (b : bool) (t : tag) :
  kept_meta (Scraper.strip_tag b t) = kept_meta t.
Proof. unfold kept_meta. now rewrite !strip_tag_get by reflexivity. Qed.

Lemma tracking_tag_strip (b : bool) (t : tag) :
  tracking_tag (Scraper.strip_tag b t) = tracking_tag t.
Proof. unfold tracking_tag, get_or. now rewrite !strip_tag_get by reflexivity. Qed.

(** An element of the result of a run was in the input, under the same
    ancestors; its tag is the input's, stripped according to where the
    element is. *)
Lemma clean_tree_survivor (s s1 : soup) (e : nat) anc1 t1 cs1 :
  NoDup (ids s) ->
  Scraper.clean_tree s = Ok s1 ->
  locate s1 e = Some (anc1, Element e t1 cs1) ->
  exists anc t cs,
    locate s e = Some (anc, Element e t cs)
    /\ t1 = Scraper.strip_tag (Scraper.is_in_navigation s e) t
    /\ map fst anc1 = map fst anc
    /\ Scraper.is_in_navigation s1 e = Scraper.is_in_navigation s e.
Proof.
  intros Hd H H1. destruct (clean_tree_shape _ _ H) as (a & Pa & ->).
  assert (Hda : NoDup (ids a)) by exact (prunes_wf _ _ Pa Hd).
  assert (Hds : NoDup (ids (strip_all a))) by now rewrite strip_all_ids.
  pose proof (is_in_navigation_located _ _ _ _ H1) as N1.
  destruct (prunes_locate _ _ _ _ _ _ (remove_empty_prunes _) Hds H1) as (cs2 & H2).
  unfold strip_all in H2. rewrite (proj2 locate_retag) in H2.
  destruct (locate a e) as [[anc0 n0]|] eqn:Ea; [|discriminate].
  destruct (locate_element _ _ _ _ Ea) as (t0 & cs0 & ->).
  cbn [option_map retag_found fst snd retag] in H2. injection H2 as <- <- _.
  destruct (prunes_locate _ _ _ _ _ _ Pa Hd Ea) as (cs & E0).
  assert (Na : Scraper.is_in_navigation a e = Scraper.is_in_navigation s e).
  { now rewrite (is_in_navigation_located _ _ _ _ Ea),
      (is_in_navigation_located _ _ _ _ E0). }
  exists anc0, t0, cs. repeat split.
  - exact E0.
  - now rewrite Na.
  - rewrite map_map. apply map_ext. now intros [i t].
  - rewrite N1, <- Na, (is_in_navigation_located _ _ _ _ Ea).
    rewrite !climb_existsb, !existsb_app. f_equal.
    apply existsb_nav_retag. intros. apply strip_tag_nav_parent.
Qed.

Lemma without_get_removed (ks : list string) (t : tag) (k : string) :
  Py.mem k ks = true -> get (without ks t) k = None.
Proof.
  intros H. unfold get, without. cbn [attrs].
  induction (attrs t) as [|[k' v] l IH]; [reflexivity|].
  cbn [filter fst]. destruct (Py.mem k' ks) eqn:E; cbn [negb]; [exact IH|].
  cbn [assoc]. destruct (String.eqb_spec k' k) as [-> | _]; [congruence | exact IH].
Qed.

Lemma without_attrs_incl (ks : list string) (t : tag) :
  incl (attrs (without ks t)) (attrs t).
Proof. intros kv H. cbn [without attrs] in H. now apply filter_In in H. Qed.

Lemma retag_strings :
  (forall n f, strings (retag f n) = strings n)
  /\ (forall l f, flat_map strings (map (retag f) l) = flat_map strings l).
Proof.
  apply (node_forest_ind
           (fun n => forall f, strings (retag f n) = strings n)
           (fun l => forall f, flat_map strings (map (retag f) l) = flat_map strings l)).
  - reflexivity.
  - intros n l Hn Hl f. cbn [map flat_map]. now rewrite Hn, Hl.
  - reflexivity.
  - intros i t cs Hcs f. cbn [retag strings]. apply Hcs.
Qed.

(** ** The result of a run, element by element *)

(** X1: a successful run of the cleaning pipeline only removes.  Every
    element of the result is an element of the input, under the same
    ancestors and with the same name, and each of its attributes is an
    attribute of the input element with the same value; every string of
    the result is a string of the input; element identities stay
    distinct. *)
Theorem clean_tree_only_removes (s s1 : soup) :
  NoDup (ids s) ->
  Scraper.clean_tree s = Ok s1 ->
  NoDup (ids s1)
  /\ (forall e anc1 t1 cs1,
         locate s1 e = Some (anc1, Element e t1 cs1) ->
         exists anc t cs,
           locate s e = Some (anc, Element e t cs)
           /\ map fst anc1 = map fst anc
           /\ name t1 = name t
           /\ incl (attrs t1) (attrs t))
  /\ (forall str, In str (flat_map strings s1) -> In str (flat_map strings s)).
Proof.
  intros Hd H. split; [exact (proj1 (clean_tree_stripped _ _ Hd H))|]. split.
  - intros e anc1 t1 cs1 H1.
    destruct (clean_tree_survivor _ _ _ _ _ _ Hd H H1)
      as (anc & t & cs & E & -> & Ea & _).
    exists anc, t, cs. repeat split; try assumption.
    + apply strip_tag_name.
    + rewrite strip_tag_without. apply without_attrs_incl.
  - intros str Hs. destruct (clean_tree_shape _ _ H) as (a & Pa & ->).
    apply (prunes_strings _ _ _ (remove_empty_prunes _)) in Hs.
    unfold strip_all in Hs. rewrite (proj2 retag_strings) in Hs.
    exact (prunes_strings _ _ _ Pa Hs).
Qed.

Lemma clean_tree_only_removes_witness :
  NoDup (ids styled_cleaned)
  /\ (forall e anc1 t1 cs1,
         locate styled_cleaned e = Some (anc1, Element e t1 cs1) ->
         exists anc t cs,
           locate styled_page e = Some (anc, Element e t cs)
           /\ map fst anc1 = map fst anc
           /\ name t1 = name t
           /\ incl (attrs t1) (attrs t))
  /\ (forall str, In str (flat_map strings styled_cleaned)
                  -> In str (flat_map strings styled_page)).
Proof.
  apply (clean_tree_only_removes styled_page styled_cleaned).
  - unfold ids. cbn. distinct_ids.
  - reflexivity.
Defined.

(** X2: what a successful run does to the attributes of an element that
    survives.  The sixteen noise attributes are gone everywhere; outside
    navigation [style], the Font Awesome and the Bootstrap attributes are
    gone too; inside navigation every attribute that is not a noise
    attribute is as it was, and so is, anywhere, every attribute that is
    on none of the lists. *)
Theorem clean_tree_attributes (s s1 : soup) (e : nat) (t t1 : tag) :
  NoDup (ids s) ->
  Scraper.clean_tree s = Ok s1 ->
  tag_of s e = Some t ->
  tag_of s1 e = Some t1 ->
  (forall k, In k Scraper.noise_attrs -> get t1 k = None)
  /\ (Scraper.is_in_navigation s e = false ->
      forall k, k = "style" \/ In k Scraper.font_awesome_attrs
                \/ In k Scraper.bootstrap_attrs ->
                get t1 k = None)
  /\ (Scraper.is_in_navigation s e = true ->
      forall k, ~ In k Scraper.noise_attrs -> get t1 k = get t k)
  /\ (forall k, k <> "style" -> ~ In k Scraper.noise_attrs ->
                ~ In k Scraper.font_awesome_attrs -> ~ In k Scraper.bootstrap_attrs ->
                get t1 k = get t k).
Proof.
  intros Hd H Et Et1. unfold tag_of in Et1.
  destruct (locate s1 e) as [[anc1 n1]|] eqn:E1; [|discriminate].
  destruct (locate_element _ _ _ _ E1) as (t1' & cs1 & ->). injection Et1 as ->.
  destruct (clean_tree_survivor _ _ _ _ _ _ Hd H E1) as (anc & t0 & cs & E & -> & _ & _).
  unfold tag_of in Et. rewrite E in Et. injection Et as ->.
  rewrite strip_tag_without. repeat split.
  - intros k Hk. apply without_get_removed. apply mem_In in Hk.
    destruct (Scraper.is_in_navigation s e); [exact Hk|].
    unfold stripped_attrs. cbn [Py.mem existsb]. rewrite <- app_assoc.
    fold (Py.mem k (Scraper.noise_attrs
                    ++ Scraper.font_awesome_attrs ++ Scraper.bootstrap_attrs)).
    now rewrite mem_app, Hk, orb_true_r.
  - intros -> k Hk. apply without_get_removed. unfold stripped_attrs.
    destruct Hk as [-> | Hk]; [reflexivity|].
    cbn [Py.mem existsb]. rewrite <- app_assoc.
    fold (Py.mem k (Scraper.noise_attrs
                    ++ Scraper.font_awesome_attrs ++ Scraper.bootstrap_attrs)).
    rewrite !mem_app. destruct Hk as [Hk | Hk]; apply mem_In in Hk; rewrite Hk;
      now rewrite ?orb_true_r.
  - intros -> k Hk. apply without_get. now apply mem_false.
  - intros k H1 H2 H3 H4. apply without_get.
    apply mem_false in H2, H3, H4.
    destruct (Scraper.is_in_navigation s e); [exact H2|].
    unfold stripped_attrs. cbn [Py.mem existsb]. rewrite <- app_assoc.
    fold (Py.mem k (Scraper.noise_attrs
                    ++ Scraper.font_awesome_attrs ++ Scraper.bootstrap_attrs)).
    rewrite !mem_app, H2, H3, H4.
    destruct (String.eqb_spec k "style") as [-> | _]; [now elim H1 | reflexivity].
Qed.

Lemma clean_tree_attributes_witness :
  let t := Tag "p" [("style", "color:red"); ("data-bs-toggle", "dropdown")] in
  let t1 := Tag "p" [] in
  (forall k, In k Scraper.noise_attrs -> get t1 k = None)
  /\ (Scraper.is_in_navigation styled_page 3 = false ->
      forall k, k = "style" \/ In k Scraper.font_awesome_attrs
                \/ In k Scraper.bootstrap_attrs ->
                get t1 k = None)
  /\ (Scraper.is_in_navigation styled_page 3 = true ->
      forall k, ~ In k Scraper.noise_attrs -> get t1 k = get t k)
  /\ (forall k, k <> "style" -> ~ In k Scraper.noise_attrs ->
                ~ In k Scraper.font_awesome_attrs -> ~ In k Scraper.bootstrap_attrs ->
                get t1 k = get t k).
Proof.
  apply (clean_tree_attributes styled_page styled_cleaned 3).
  - unfold ids. cbn. distinct_ids.
  - reflexivity.
  - reflexivity.
  - reflexivity.
Defined.

(** X3: what the unconditional rules delete is in no successful result:
    no [style], [footer], [iframe] or [noscript] element, no element of
    a browser extension (by name or by class), no [link] whose [rel] has
    [preload], [prefetch], [canonical] or [alternate], and no element with
    the class [cookie] or [banner]. *)
Theorem clean_tree_unconditional_rules (s s1 : soup) :
  Scraper.clean_tree s = Ok s1 ->
  (forall tg, In tg ["style"; "footer"; "iframe"; "noscript";
                     "grammarly-desktop-integration"; "simplify-jobs-page-script"] ->
              find_all (named tg) s1 = [])
  /\ find_all (class_matches Scraper.extension_classes) s1 = []
  /\ find_all (Scraper.link_rel ["preload"; "prefetch"]) s1 = []
  /\ find_all (Scraper.link_rel ["canonical"; "alternate"]) s1 = []
  /\ find_all (has_class "cookie") s1 = []
  /\ find_all (has_class "banner") s1 = [].
Proof.
  intros H. destruct (clean_tree_stages _ _ H) as (h & sc & m & d & Eh & Esc & Em & Ed & ->).
  repeat split.
  - intros tg Htg.
    change (In tg (Scraper.unwanted_tags ++ Scraper.extension_tags)) in Htg.
    apply in_app_or in Htg as [Htg | Htg].
    + apply (absent_to_the_end _ (Scraper.remove_unwanted s));
        [apply named_strip | eauto 15 with stages | now apply remove_unwanted_absent].
    + set (e1 := decompose_all (find_all (named_any Scraper.extension_tags) sc) sc).
      assert (He1 : find_all (named_any Scraper.extension_tags) e1 = [])
        by apply decompose_all_find_all.
      apply (absent_to_the_end _ e1); [apply named_strip | |].
      * assert (P : prunes e1 (Scraper.remove_extensions sc))
          by apply prunes_decompose_all.
        eapply prunes_trans; [exact P|]. eauto 15 with stages.
      * apply find_all_nil. intros i t Hi. unfold named.
        destruct (String.eqb_spec (name t) tg) as [E | _]; [|reflexivity].
        pose proof (proj1 (find_all_nil _ _) He1 i t Hi) as Hn.
        unfold named_any in Hn. apply mem_false in Hn. now rewrite E in Hn.
  - apply (absent_to_the_end _ (Scraper.remove_extensions sc));
      [apply class_matches_strip | eauto 15 with stages | apply decompose_all_find_all].
  - apply (absent_to_the_end _ (Scraper.remove_links ["preload"; "prefetch"]
                                  (Scraper.remove_extensions sc)));
      [apply link_rel_strip | eauto 15 with stages | apply decompose_all_find_all].
  - apply (absent_to_the_end _ (Scraper.remove_links ["canonical"; "alternate"] m));
      [apply link_rel_strip | eauto 15 with stages | apply decompose_all_find_all].
  - set (l2 := Scraper.remove_consent (Scraper.remove_links ["canonical"; "alternate"] m))
      in *.
    set (c1 := decompose_all (find_all (has_class "cookie") l2) l2).
    apply (absent_to_the_end _ c1);
      [apply has_class_strip | | apply decompose_all_find_all].
    assert (P : prunes c1 (Scraper.remove_cookie_classes l2))
      by apply prunes_decompose_all.
    eapply prunes_trans; [exact P|]. eauto 15 with stages.
  - apply (absent_to_the_end _ (Scraper.remove_cookie_classes
                                  (Scraper.remove_consent
                                     (Scraper.remove_links ["canonical"; "alternate"] m))));
      [apply has_class_strip | eauto 15 with stages | apply decompose_all_find_all].
Qed.

Lemma clean_tree_unconditional_rules_witness :
  (forall tg, In tg ["style"; "footer"; "iframe"; "noscript";
                     "grammarly-desktop-integration"; "simplify-jobs-page-script"] ->
              find_all (named tg) menu_cleaned = [])
  /\ find_all (class_matches Scraper.extension_classes) menu_cleaned = []
  /\ find_all (Scraper.link_rel ["preload"; "prefetch"]) menu_cleaned = []
  /\ find_all (Scraper.link_rel ["canonical"; "alternate"]) menu_cleaned = []
  /\ find_all (has_class "cookie") menu_cleaned = []
  /\ find_all (has_class "banner") menu_cleaned = [].
Proof. apply (clean_tree_unconditional_rules menu_page menu_cleaned). reflexivity. Defined.

(** X4: what the [meta] and [script] rules leave.  In a successful
    result every [meta] has a non-empty [charset] or is named [viewport]
    or [charset], and no [script] has a deny-listed fragment in its [src],
    [utag] in its [id], or the type [application/ld+json]. *)
Theorem clean_tree_meta_and_scripts (s s1 : soup) (i : nat) (t : tag) :
  NoDup (ids s) ->
  Scraper.clean_tree s = Ok s1 ->
  In (i, t) (descendants s1) ->
  (name t = "meta" ->
   truthy (get t "charset") = true
   \/ exists n, get t "name" = Some n /\ In n ["viewport"; "charset"])
  /\ (name t = "script" ->
      Py.any_in Scraper.trackers (Py.lower (get_or t "src" "")) = false
      /\ Py.contains "utag" (get_or t "id" "") = false
      /\ get t "type" <> Some "application/ld+json").
Proof.
  intros Hd H Hi.
  destruct (clean_tree_stages _ _ H) as (h & sc & m & d & Eh & Esc & Em & Ed & ->).
  assert (Hdh : NoDup (ids h)).
  { apply (prunes_wf s); [|exact Hd]. eauto 15 with stages. }
  assert (Hdl : NoDup (ids (Scraper.remove_links ["preload"; "prefetch"]
                              (Scraper.remove_extensions sc)))).
  { apply (prunes_wf h); [|exact Hdh]. eauto 15 with stages. }
  split; intros Hn.
  - assert (A : find_all (fun t => named "meta" t && negb (kept_meta t)) m = []).
    { apply find_all_nil. intros j u Hj.
      destruct (named "meta" u) eqn:Hu; [|reflexivity]. cbn [andb].
      exact (for_each_selective _ _ _ _ _ meta_body_cases Hdl Em j u Hj Hu). }
    apply (absent_to_the_end _ m d) in A.
    + pose proof (proj1 (find_all_nil _ _) A i t Hi) as B. cbn beta in B.
      unfold named in B. rewrite Hn, String.eqb_refl in B. cbn [andb] in B.
      apply negb_false_iff in B. unfold kept_meta in B.
      apply orb_true_iff in B as [B | B]; [now left | right].
      destruct (get t "name") as [n|]; [|discriminate].
      exists n. split; [reflexivity | now apply mem_In].
    + intros b u. now rewrite named_strip, kept_meta_strip.
    + eauto 15 with stages.
  - assert (A : find_all (fun t => named "script" t && tracking_tag t) sc = []).
    { apply find_all_nil. intros j u Hj.
      destruct (named "script" u) eqn:Hu; [|reflexivity]. cbn [andb].
      exact (for_each_selective _ _ _ _ _ script_body_cases Hdh Esc j u Hj Hu). }
    apply (absent_to_the_end _ sc d) in A.
    + pose proof (proj1 (find_all_nil _ _) A i t Hi) as B. cbn beta in B.
      unfold named in B. rewrite Hn, String.eqb_refl in B. cbn [andb] in B.
      unfold tracking_tag in B. apply orb_false_iff in B as [B B3].
      apply orb_false_iff in B as [B1 B2]. repeat split; try assumption.
      intros E. rewrite E in B3. discriminate.
    + intros b u. now rewrite named_strip, tracking_tag_strip.
    + eauto 15 with stages.
Qed.

Lemma clean_tree_meta_and_scripts_witness :
  let t := Tag "script" [("src", "/app.js")] in
  (name t = "meta" ->
   truthy (get t "charset") = true
   \/ exists n, get t "name" = Some n /\ In n ["viewport"; "charset"])
  /\ (name t = "script" ->
      Py.any_in Scraper.trackers (Py.lower (get_or t "src" "")) = false
      /\ Py.contains "utag" (get_or t "id" "") = false
      /\ get t "type" <> Some "application/ld+json").
Proof.
  apply (clean_tree_meta_and_scripts script_page
           [Element 2 (Tag "script" [("src", "/app.js")]) [];
            Element 4 (Tag "p" []) [Text "Hello"]] 2).
  - unfold ids. cbn. distinct_ids.
  - reflexivity.
  - cbn. auto.
Defined.

(** X5: the attribute-stripping loop never fails and never removes
    anything but attributes: the elements, their names, the strings and
    the answers of [is_in_navigation] are those of the tree it started
    from. *)
Theorem strip_attributes_keeps_content (s : soup) :
  exists s',
    Scraper.strip_attributes s = Ok s'
    /\ ids s' = ids s
    /\ flat_map strings s' = flat_map strings s
    /\ (forall e, name_of s' e = name_of s e)
    /\ (forall e, Scraper.is_in_navigation s' e = Scraper.is_in_navigation s e).
Proof.
  exists (strip_all s). split; [apply strip_attributes_all|]. repeat split.
  - apply strip_all_ids.
  - apply (proj2 retag_strings).
  - intros e. unfold name_of, strip_all. rewrite (proj2 locate_retag).
    destruct (locate s e) as [[anc [x|i t cs]]|]; try reflexivity.
    cbn [option_map retag_found fst snd retag]. now rewrite strip_tag_name.
  - intros e. apply is_in_navigation_retag. intros. apply strip_tag_nav_parent.
Qed.

(** X6: being in navigation is inherited.  Below an element that is in
    navigation, and below a [nav] or [header] element, every element is in
    navigation. *)
Theorem is_in_navigation_inherited (s : soup) (x y : nat)
    (ancx : list (nat * tag)) (tx : tag) (csx : list node) :
  NoDup (ids s) ->
  locate s x = Some (ancx, Element x tx csx) ->
  In y (ids csx) ->
  (Scraper.is_in_navigation s x = true -> Scraper.is_in_navigation s y = true)
  /\ (name tx = "nav" \/ name tx = "header" -> Scraper.is_in_navigation s y = true).
Proof.
  intros Hd Ex Hy.
  destruct (proj2 descendant_locate _ _ _ _ _ _ Hd Ex Hy) as (anc1 & r & Ey).
  rewrite (is_in_navigation_located _ _ _ _ Ey), (is_in_navigation_located _ _ _ _ Ex).
  rewrite !climb_existsb, !map_app, !existsb_app. cbn [map existsb snd].
  destruct (existsb nav_parent (map snd anc1)); [now split|].
  destruct (existsb nav_parent (map snd ancx)); [now rewrite orb_true_r|].
  destruct (nav_parent document); [now rewrite !orb_true_r|].
  cbn [orb]. rewrite !orb_false_r. split; [discriminate|].
  unfold nav_parent. intros [-> | ->]; reflexivity.
Qed.

Lemma is_in_navigation_inherited_witness :
  (Scraper.is_in_navigation menu_page 1 = true -> Scraper.is_in_navigation menu_page 4 = true)
  /\ (name (Tag "nav" []) = "nav" \/ name (Tag "nav" []) = "header" ->
      Scraper.is_in_navigation menu_page 4 = true).
Proof.
  apply (is_in_navigation_inherited menu_page 1 4 [] (Tag "nav" [])
           [Element 2 (Tag "a" [("href", "/")]) [Text "Home"];
            Element 3 (Tag "noscript" []) [Element 4 (Tag "img" [("src", "pixel.gif")]) []]]).
  - unfold ids. cbn. distinct_ids.
  - reflexivity.
  - cbn. auto.
Defined.

(** ** The [header] rule *)

Lemma header_body_cases (x : nat) (a a' : soup) :
  Scraper.header_body x a = Ok a' ->
  exists t,
    tag_of a x = Some t
    /\ ((find (named "nav") (contents_of a x) = None /\ header_nav_class t = false
         /\ a' = decompose x a)
        \/ ((find (named "nav") (contents_of a x) <> None \/ header_nav_class t = true)
            /\ a' = a)).
Proof.
  unfold Scraper.header_body, header_nav_class.
  destruct (tag_of a x) as [t|]; [|discriminate]. intros H. exists t.
  split; [reflexivity|].
  destruct (find (named "nav") (contents_of a x)) as [n|]; cbn [negb andb] in H.
  - injection H as <-. right. split; [left; discriminate | reflexivity].
  - destruct (Py.any_in _ _); cbn [negb] in H; injection H as <-.
    + right. split; [now right | reflexivity].
    + left. now repeat split.
Qed.

Lemma header_body_prunes (x : nat) (a a' : soup) :
  Scraper.header_body x a = Ok a' -> prunes a a'.
Proof.
  intros H. destruct (header_body_cases _ _ _ H) as (t & _ & [(_ & _ & ->) | (_ & ->)]);
    [apply prunes_decompose | apply prunes_refl].
Qed.

Lemma NoDup_fst_inj {A B : Type} (l : list (A * B)) (i : A) (a b : B) :
  NoDup (map fst l) -> In (i, a) l -> In (i, b) l -> a = b.
Proof.
  induction l as [|[j c] l IH]; intros Hd Ha Hb; [destruct Ha|].
  cbn [map fst] in Hd. inversion Hd as [|? ? Hn Hd']; subst.
  destruct Ha as [Ha | Ha], Hb as [Hb | Hb].
  - congruence.
  - injection Ha as -> ->. elim Hn. change i with (fst (i, b)). now apply in_map.
  - injection Hb as -> ->. elim Hn. change i with (fst (i, a)). now apply in_map.
  - now apply IH.
Qed.

(** An object of a [find_all] result that is still in the tree has a tag
    that passes the test. *)
Lemma find_all_tag_of (p : tag -> bool) (s0 a : soup) (x : nat) (t : tag) :
  NoDup (ids s0) -> prunes s0 a -> In x (find_all p s0) -> tag_of a x = Some t ->
  p t = true.
Proof.
  intros Hd Hp Hx Ht. apply (prunes_tag_of _ _ _ _ Hp Hd) in Ht.
  destruct (find_all_In _ _ _ Hx) as (t' & Hi & Hpt).
  destruct (proj2 descendants_locate _ _ _ Hi Hd) as (anc & cs & E).
  unfold tag_of in Ht. rewrite E in Ht. now injection Ht as <-.
Qed.

Lemma find_inside (p : tag -> bool) (cs : list node) (n : nat) anc tn csn :
  locate cs n = Some (anc, Element n tn csn) -> p tn = true -> find p cs <> None.
Proof.
  intros E Hp. unfold find.
  pose proof (find_all_intro p cs n tn (proj2 locate_descendants _ _ _ _ _ E) Hp) as Hin.
  destruct (find_all p cs); [destruct Hin | discriminate].
Qed.

Lemma contents_of_located (s : soup) (x : nat) anc t cs :
  locate s x = Some (anc, Element x t cs) -> contents_of s x = cs.
Proof. intros E. unfold contents_of. now rewrite E. Qed.

Lemma tag_of_located (s : soup) (x : nat) anc t cs :
  locate s x = Some (anc, Element x t cs) -> tag_of s x = Some t.
Proof. intros E. unfold tag_of. now rewrite E. Qed.

Lemma tag_of_locate (s : soup) (x : nat) (t : tag) :
  tag_of s x = Some t -> exists anc cs, locate s x = Some (anc, Element x t cs).
Proof.
  unfold tag_of. destruct (locate s x) as [[anc n]|] eqn:E; [|discriminate].
  destruct (locate_element _ _ _ _ E) as (t' & cs & ->). intros H. injection H as ->.
  now exists anc, cs.
Qed.

(** An element found inside the contents of [x] is found in the tree,
    below [x]. *)
Lemma locate_inside (s : soup) (x y : nat) ancx tx csx anc1 r :
  NoDup (ids s) ->
  locate s x = Some (ancx, Element x tx csx) ->
  locate csx y = Some (anc1, r) ->
  locate s y = Some (anc1 ++ (x, tx) :: ancx, r).
Proof.
  intros Hd Ex Ey.
  destruct (proj2 descendant_locate _ _ _ _ _ _ Hd Ex (locate_some_in _ _ _ Ey))
    as (anc2 & r2 & E2).
  assert (Hin : In x (map fst (anc2 ++ (x, tx) :: ancx))).
  { rewrite map_app. apply in_or_app. right. now left. }
  destruct (proj2 ancestor_split _ _ _ _ _ Hd E2 Hin)
    as (ancx' & tx' & csx' & anc3 & Ex' & Ey' & Ea).
  rewrite Ex in Ex'. injection Ex' as <- <- <-.
  rewrite Ey in Ey'. injection Ey' as <-. apply app_inv_tail in Ea. now subst.
Qed.

(** The loop over the headers never removes a [nav]. *)
Lemma headers_keep_nav (s0 : soup) (n : nat) anc tn (l : list nat) :
  NoDup (ids s0) ->
  name tn = "nav" ->
  incl l (find_all (named "header") s0) ->
  forall a cs s',
    prunes s0 a ->
    locate a n = Some (anc, Element n tn cs) ->
    for_each Scraper.header_body l a = Ok s' ->
    exists cs', locate s' n = Some (anc, Element n tn cs').
Proof.
  intros Hd Hn. induction l as [|x l IH]; intros Hl a cs s' Pa En H.
  - injection H as <-. eauto.
  - cbn [for_each] in H. destruct (Scraper.header_body x a) as [a1|] eqn:E; [|discriminate].
    cbn [bind] in H. assert (Hl' : incl l (find_all (named "header") s0)).
    { intros z Hz. apply Hl. now right. }
    destruct (header_body_cases _ _ _ E) as (t & Et & [(Hf & _ & ->) | (_ & ->)]);
      [|exact (IH Hl' _ _ _ Pa En H)].
    assert (Hda : NoDup (ids a)) by exact (prunes_wf _ _ Pa Hd).
    assert (Hx : named "header" t = true).
    { apply (find_all_tag_of _ s0 a x); auto. apply Hl. now left. }
    assert (Hne : x <> n).
    { intros ->. rewrite (tag_of_located _ _ _ _ _ En) in Et. injection Et as <-.
      unfold named in Hx. rewrite Hn in Hx. discriminate. }
    assert (Hna : ~ In x (map fst anc)).
    { intros Hin.
      destruct (proj2 ancestor_split _ _ _ _ _ Hda En Hin)
        as (ancx & tx & csx & anc1 & Ex & En' & _).
      rewrite (contents_of_located _ _ _ _ _ Ex) in Hf.
      apply (find_inside (named "nav") _ _ _ _ _ En'); [|exact Hf].
      unfold named. now rewrite Hn. }
    apply (IH Hl' (decompose x a) (decompose x cs) s').
    + exact (prunes_trans _ _ _ Pa (prunes_decompose _ _)).
    + exact (proj2 locate_decompose_other _ _ _ _ _ _ En Hne Hna).
    + exact H.
Qed.

(** X7: the [header] rule never removes a [nav], nor anything a [nav] is
    inside of.  After the loop every [nav] of the tree is where it was,
    with the same tag, and so is each of its ancestors. *)
Theorem remove_headers_keeps_nav (s s' : soup) (n : nat)
    (anc : list (nat * tag)) (tn : tag) (cs : list node) :
  NoDup (ids s) ->
  Scraper.remove_headers s = Ok s' ->
  locate s n = Some (anc, Element n tn cs) ->
  name tn = "nav" ->
  (exists cs', locate s' n = Some (anc, Element n tn cs'))
  /\ (forall h, In h (map fst anc) -> attached s' h = true).
Proof.
  intros Hd H En Hn.
  destruct (headers_keep_nav s n anc tn _ Hd Hn (incl_refl _) s cs s'
              (prunes_refl s) En H) as (cs' & E').
  split; [now exists cs'|]. intros h Hh.
  assert (Hd' : NoDup (ids s')).
  { apply (prunes_wf s); [|exact Hd]. now apply remove_headers_prunes. }
  destruct (proj2 ancestor_split _ _ _ _ _ Hd' E' Hh) as (ancx & tx & csx & _ & Ex & _).
  unfold attached. now rewrite Ex.
Qed.

Lemma remove_headers_keeps_nav_witness :
  (exists cs', locate header_kept 2
               = Some ([(1, Tag "header" [])], Element 2 (Tag "nav" []) cs'))
  /\ (forall h, In h (map fst [(1, Tag "header" [])]) -> attached header_kept h = true).
Proof.
  apply (remove_headers_keeps_nav header_page header_kept 2 [(1, Tag "header" [])]
           (Tag "nav" []) [Element 3 (Tag "header" []) [Text "x"]]).
  - unfold ids. cbn. distinct_ids.
  - reflexivity.
  - reflexivity.
  - reflexivity.
Defined.

(** X8: what the [header] rule leaves.  After the loop every [header]
    still in the tree holds a [nav] or carries one of the navigation
    classes of the rule. *)
Theorem remove_headers_leaves_navigation (s s' : soup) (h : nat)
    (anc : list (nat * tag)) (t : tag) (cs : list node) :
  NoDup (ids s) ->
  Scraper.remove_headers s = Ok s' ->
  locate s' h = Some (anc, Element h t cs) ->
  name t = "header" ->
  find (named "nav") cs <> None
  \/ Py.any_in ["nav"; "navigation"; "menu"; "header-nav"]
               (Py.join " " (match get_list t "class" with Some l => l | None => [] end))
     = true.
Proof.
  intros Hd H Eh Hn.
  assert (Hstep : forall x a a', Scraper.header_body x a = Ok a' -> prunes a a')
    by exact header_body_prunes.
  pose proof (remove_headers_prunes _ _ H) as P.
  assert (Hd' : NoDup (ids s')) by exact (prunes_wf _ _ P Hd).
  destruct (prunes_locate _ _ _ _ _ _ P Hd Eh) as (cs0 & Eh0).
  assert (Hin : In h (find_all (named "header") s)).
  { apply (find_all_intro _ _ _ t (proj2 locate_descendants _ _ _ _ _ Eh0)).
    unfold named. now rewrite Hn. }
  destruct (in_split _ _ Hin) as (l1 & l2 & El).
  unfold Scraper.remove_headers in H. rewrite El in H.
  apply for_each_app in H as (a & H1 & H2). cbn [for_each] in H2.
  destruct (Scraper.header_body h a) as [a1|] eqn:E; [|discriminate]. cbn [bind] in H2.
  pose proof (prunes_for_each _ _ Hstep _ _ H1) as Pa.
  pose proof (prunes_for_each _ _ Hstep _ _ H2) as Pa1.
  assert (Hda : NoDup (ids a)) by exact (prunes_wf _ _ Pa Hd).
  destruct (header_body_cases _ _ _ E) as (t0 & Et0 & [(_ & _ & ->) | (Hk & ->)]).
  { exfalso. apply locate_some_in in Eh. apply (prunes_ids _ _ _ Pa1) in Eh.
    apply decompose_ids_incl in Eh. now destruct Eh. }
  assert (t0 = t) as ->.
  { apply (prunes_tag_of _ _ _ _ Pa Hd) in Et0.
    rewrite (tag_of_located _ _ _ _ _ Eh0) in Et0. now injection Et0. }
  destruct Hk as [Hk | Hk]; [left | now right].
  destruct (tag_of_locate _ _ _ Et0) as (anca & csa & Ea).
  rewrite (contents_of_located _ _ _ _ _ Ea) in Hk.
  unfold find in Hk. destruct (find_all (named "nav") csa) as [|n l] eqn:Ef; [now elim Hk|].
  assert (Hnin : In n (find_all (named "nav") csa)) by (rewrite Ef; now left).
  destruct (find_all_In _ _ _ Hnin) as (tn & Hi & Hpn).
  pose proof (proj2 located_NoDup _ _ _ _ _ Hda Ea) as Hdc.
  destruct (proj2 descendants_locate _ _ _ Hi Hdc) as (ancn & csn & En).
  pose proof (locate_inside _ _ _ _ _ _ _ _ Hda Ea En) as En'.
  assert (Hnn : name tn = "nav") by now apply String.eqb_eq.
  assert (Hl2 : incl l2 (find_all (named "header") s)).
  { intros z Hz. rewrite El. apply in_or_app. right. now right. }
  destruct (headers_keep_nav s n _ tn l2 Hd Hnn Hl2 a csn s' Pa En' H2) as (cs' & E').
  assert (Hh : In h (map fst (ancn ++ (h, t) :: anca))).
  { rewrite map_app. apply in_or_app. right. now left. }
  destruct (proj2 ancestor_split _ _ _ _ _ Hd' E' Hh)
    as (ancx & tx & csx & anc1 & Ex & Ey & _).
  rewrite Eh in Ex. injection Ex as <- <- <-.
  exact (find_inside _ _ _ _ _ _ Ey Hpn).
Qed.

Lemma remove_headers_leaves_navigation_witness :
  find (named "nav") [Element 2 (Tag "nav" []) []] <> None
  \/ Py.any_in ["nav"; "navigation"; "menu"; "header-nav"]
               (Py.join " " (match get_list (Tag "header" []) "class" with
                             | Some l => l | None => [] end))
     = true.
Proof.
  apply (remove_headers_leaves_navigation header_page header_kept 1 [] (Tag "header" [])
           [Element 2 (Tag "nav" []) []]).
  - unfold ids. cbn. distinct_ids.
  - reflexivity.
  - reflexivity.
  - reflexivity.
Defined.

Lemma for_each_raises (body : nat -> soup -> result soup) (e0 : exn) (l : list nat) :
  (forall x a e, body x a = Raise e -> e = e0) ->
  forall a e, for_each body l a = Raise e -> e = e0.
Proof.
  intros Hb. induction l as [|x l IH]; intros a e H; [discriminate|].
  cbn [for_each] in H. destruct (body x a) as [a1|e1] eqn:E; cbn [bind] in H.
  - exact (IH _ _ H).
  - injection H as <-. exact (Hb _ _ _ E).
Qed.

Lemma header_body_raises (x : nat) (a : soup) (e : exn) :
  Scraper.header_body x a = Raise e -> e = AttributeError.
Proof.
  unfold Scraper.header_body. destruct (tag_of a x); [|now intros [= <-]].
  destruct (_ && _); discriminate.
Qed.

Lemma header_body_gone (x : nat) (a : soup) :
  ~ In x (ids a) -> Scraper.header_body x a = Raise AttributeError.
Proof.
  intros H. unfold Scraper.header_body, tag_of. now rewrite (locate_not_in _ _ H).
Qed.

(** X9: the [header] rule fails on a header below a header it deletes.
    When a [header] with no [nav] inside and none of the navigation
    classes contains another [header], the loop reaches the inner one
    after it has been decomposed and raises [AttributeError]. *)
Theorem remove_headers_nested_raises (s : soup) (x y : nat)
    (ancx : list (nat * tag)) (tx ty : tag) (csx : list node) :
  NoDup (ids s) ->
  locate s x = Some (ancx, Element x tx csx) ->
  name tx = "header" ->
  find (named "nav") csx = None ->
  Py.any_in ["nav"; "navigation"; "menu"; "header-nav"]
            (Py.join " " (match get_list tx "class" with Some l => l | None => [] end))
  = false ->
  In (y, ty) (descendants csx) ->
  name ty = "header" ->
  Scraper.remove_headers s = Raise AttributeError.
Proof.
  intros Hd Ex Hnx Hf Hc Hy Hny.
  destruct (Scraper.remove_headers s) as [s'|e] eqn:H;
    [exfalso | f_equal; exact (for_each_raises _ _ _ header_body_raises _ _ H)].
  assert (Hstep : forall x a a', Scraper.header_body x a = Ok a' -> prunes a a')
    by exact header_body_prunes.
  assert (Hpx : named "header" tx = true) by (unfold named; now rewrite Hnx).
  assert (Hpy : named "header" ty = true) by (unfold named; now rewrite Hny).
  pose proof (proj2 located_NoDup _ _ _ _ _ Hd Ex) as Hdc.
  destruct (proj2 descendants_locate _ _ _ Hy Hdc) as (ancy & csy & Ey).
  pose proof (locate_inside _ _ _ _ _ _ _ _ Hd Ex Ey) as Ey'.
  destruct (find_all_split _ _ _ _ _ _ Ex Hd Hpx) as (l1 & l2 & El & Hl1 & Hl2).
  assert (Hyin : In y (find_all (named "header") s)).
  { exact (find_all_intro _ _ _ ty (proj2 locate_descendants _ _ _ _ _ Ey') Hpy). }
  assert (Hy2 : In y l2).
  { rewrite El in Hyin. apply in_app_or in Hyin as [Hyin | [<- | Hyin]].
    - destruct (Hl1 _ Hyin) as [_ Hn]. elim Hn. exact (in_descendants_ids _ _ _ Hy).
    - exfalso. rewrite Ex in Ey'. injection Ey' as Ea _.
      apply (f_equal (@List.length _)) in Ea. rewrite List.length_app in Ea. cbn in Ea. lia.
    - exact Hyin. }
  unfold Scraper.remove_headers in H. rewrite El in H.
  apply for_each_app in H as (a & H1 & H2). cbn [for_each] in H2.
  destruct (Scraper.header_body x a) as [a1|] eqn:E; [|discriminate]. cbn [bind] in H2.
  pose proof (prunes_for_each _ _ Hstep _ _ H1) as Pa.
  assert (Hda : NoDup (ids a)) by exact (prunes_wf _ _ Pa Hd).
  assert (Hgone : ~ In y (ids a1)).
  { destruct (header_body_cases _ _ _ E) as (t0 & Et0 & [(_ & _ & ->) | (Hk & ->)]).
    - intros Hin. destruct (locate_in_ids _ _ Hin) as (anc' & t' & cs' & E').
      rewrite (locate_decompose _ _ _ Hda) in E'.
      destruct (locate a y) as [[anc0 n0]|] eqn:Eay; [|discriminate].
      destruct (locate_element _ _ _ _ Eay) as (t1 & cs1 & ->).
      destruct (prunes_locate _ _ _ _ _ _ Pa Hd Eay) as (cs2 & Esy).
      rewrite Ey' in Esy. injection Esy as <- _ _.
      replace (existsb (Nat.eqb x) (map fst (ancy ++ (x, tx) :: ancx))) with true in E'.
      + rewrite orb_true_r in E'. discriminate.
      + symmetry. apply existsb_exists. exists x. split; [|apply Nat.eqb_refl].
        rewrite map_app. apply in_or_app. right. now left.
    - exfalso. destruct (tag_of_locate _ _ _ Et0) as (anca & csa & Ea).
      destruct (prunes_locate _ _ _ _ _ _ Pa Hd Ea) as (cs2 & Esx).
      rewrite Ex in Esx. injection Esx as <- <- <-.
      destruct Hk as [Hk | Hk]; [|exact (eq_true_false_abs _ Hk Hc)].
      rewrite (contents_of_located _ _ _ _ _ Ea) in Hk. apply Hk. clear Hk.
      unfold find. destruct (find_all (named "nav") csa) as [|n l] eqn:Ef; [reflexivity|].
      exfalso. assert (Hnin : In n (find_all (named "nav") csa)) by (rewrite Ef; now left).
      destruct (find_all_In _ _ _ Hnin) as (tn & Hi & Hpn).
      pose proof (proj2 located_NoDup _ _ _ _ _ Hda Ea) as Hdca.
      destruct (proj2 descendants_locate _ _ _ Hi Hdca) as (ancn & csn & En).
      pose proof (locate_inside _ _ _ _ _ _ _ _ Hda Ea En) as En'.
      destruct (prunes_locate _ _ _ _ _ _ Pa Hd En') as (csn0 & En0).
      assert (Hxin : In x (map fst (ancn ++ (x, tx) :: ancx))).
      { rewrite map_app. apply in_or_app. right. now left. }
      destruct (proj2 ancestor_split _ _ _ _ _ Hd En0 Hxin)
        as (ancx' & tx' & csx' & anc1 & Ex' & En1 & _).
      rewrite Ex in Ex'. injection Ex' as <- <- <-.
      exact (find_inside _ _ _ _ _ _ En1 Hpn Hf). }
  destruct (in_split _ _ Hy2) as (m1 & m2 & Em). rewrite Em in H2.
  apply for_each_app in H2 as (b & H3 & H4). cbn [for_each] in H4.
  rewrite header_body_gone in H4; [discriminate|].
  intros Hin. apply Hgone. exact (prunes_ids _ _ _ (prunes_for_each _ _ Hstep _ _ H3) Hin).
Qed.

Lemma remove_headers_nested_raises_witness :
  Scraper.remove_headers nested_headers = Raise AttributeError.
Proof.
  apply (remove_headers_nested_raises nested_headers 1 2 [] (Tag "header" [])
           (Tag "header" [("class", "top")])
           [Element 2 (Tag "header" [("class", "top")]) [Text "News"]]).
  - unfold ids. cbn. distinct_ids.
  - reflexivity.
  - reflexivity.
  - reflexivity.
  - reflexivity.
  - cbn. auto.
  - reflexivity.
Defined.

(** ** The empty-container rule *)













(** ** When the loops come to their end *)

Lemma no_nesting_locate (p q : tag -> bool) (s : soup) (x y : nat) anc ty cs tx :
  no_nesting p q s = true ->
  NoDup (ids s) ->
  locate s y = Some (anc, Element y ty cs) ->
  p ty = true ->
  In x (map fst anc) ->
  tag_of s x = Some tx ->
  p tx = true ->
  q tx = false.
Proof.
  intros Hn Hd Ey Hpy Hx Etx Hpx.
  destruct (proj2 ancestor_split _ _ _ _ _ Hd Ey Hx)
    as (ancx & tx' & csx & anc1 & Ex & Ey' & _).
  rewrite (tag_of_located _ _ _ _ _ Ex) in Etx. injection Etx as ->.
  unfold no_nesting in Hn. rewrite forallb_forall in Hn.
  pose proof (Hn _ (proj2 locate_elements _ _ _ _ _ Ex)) as H. cbn [fst snd] in H.
  pose proof (find_all_intro _ _ _ _ (proj2 locate_descendants _ _ _ _ _ Ey') Hpy) as Hin.
  destruct (find_all p csx); [destruct Hin|].
  rewrite orb_false_r, Hpx in H. cbn [andb] in H. now apply negb_true_iff in H.
Qed.

(** A loop whose body deletes its element only when the tag passes [q],
    over a tree in which no element that passes [q] holds another element
    of the loop, finds every element in the tree and comes to its end. *)
Lemma for_each_flat (body : nat -> soup -> result soup) (p q : tag -> bool) (s0 : soup) :
  (forall x a t, tag_of a x = Some t ->
                 body x a = Ok a \/ (body x a = Ok (decompose x a) /\ q t = true)) ->
  NoDup (ids s0) ->
  no_nesting p q s0 = true ->
  forall l a,
    prunes s0 a -> NoDup l -> incl l (find_all p s0) ->
    (forall y, In y l -> In y (ids a)) ->
    exists s', for_each body l a = Ok s'.
Proof.
  intros Hb Hd Hn. induction l as [|x l IH]; intros a Pa Hl Hin Hat; [now exists a|].
  inversion Hl as [|? ? Hxl Hl']; subst.
  assert (Hin' : incl l (find_all p s0)) by (intros z Hz; apply Hin; now right).
  destruct (tag_of_attached a x (Hat x (or_introl eq_refl))) as (t & Et).
  cbn [for_each]. destruct (Hb _ _ _ Et) as [E | [E Hq]]; rewrite E; cbn [bind].
  - apply (IH a Pa Hl' Hin'). intros y Hy. apply Hat. now right.
  - apply (IH (decompose x a) (prunes_trans _ _ _ Pa (prunes_decompose _ _)) Hl' Hin').
    intros y Hy. assert (Hda : NoDup (ids a)) by exact (prunes_wf _ _ Pa Hd).
    destruct (locate_in_ids _ _ (Hat y (or_intror Hy))) as (anc & ty & cs & Ey).
    apply (locate_some_in _ _ (anc, Element y ty (decompose x cs))).
    apply (proj2 locate_decompose_other _ _ _ _ _ _ Ey).
    + intros ->. contradiction.
    + intros Hx. destruct (prunes_locate _ _ _ _ _ _ Pa Hd Ey) as (cs0 & Ey0).
      assert (Hpy : p ty = true).
      { apply (find_all_tag_of p s0 a y); auto. exact (tag_of_located _ _ _ _ _ Ey). }
      assert (Hpx : p t = true).
      { apply (find_all_tag_of p s0 a x); auto. apply Hin. now left. }
      pose proof (no_nesting_locate p q s0 x y anc ty cs0 t Hn Hd Ey0 Hpy Hx
                    (prunes_tag_of _ _ _ _ Pa Hd Et) Hpx).
      congruence.
Qed.

Lemma find_all_prunes_incl (p : tag -> bool) (s a : soup) :
  prunes s a -> incl (find_all p a) (find_all p s).
Proof.
  intros P x Hx. destruct (find_all_In _ _ _ Hx) as (t & Hi & Hp).
  exact (find_all_intro _ _ _ _ (prunes_descendants _ _ _ _ P Hi) Hp).
Qed.

Lemma stage_total (body : nat -> soup -> result soup) (p q : tag -> bool) (s0 a : soup) :
  (forall x a t, tag_of a x = Some t ->
                 body x a = Ok a \/ (body x a = Ok (decompose x a) /\ q t = true)) ->
  NoDup (ids s0) ->
  no_nesting p q s0 = true ->
  prunes s0 a ->
  exists s', for_each body (find_all p a) a = Ok s'.
Proof.
  intros Hb Hd Hn Pa. apply (for_each_flat body p q s0 Hb Hd Hn); auto.
  - apply find_all_NoDup. exact (prunes_wf _ _ Pa Hd).
  - now apply find_all_prunes_incl.
  - intros y Hy. destruct (find_all_In _ _ _ Hy) as (t & Hi & _).
    exact (in_descendants_ids _ _ _ Hi).
Qed.

(** A body that may delete any element it finds. *)
Lemma deletes_any (body : nat -> soup -> result soup) :
  (forall x a t, tag_of a x = Some t ->
                 body x a = Ok a \/ body x a = Ok (decompose x a)) ->
  forall x a t, tag_of a x = Some t ->
                body x a = Ok a
                \/ (body x a = Ok (decompose x a) /\ (fun _ : tag => true) t = true).
Proof. intros H x a t E. destruct (H x a t E); auto. Qed.

Lemma header_body_total (x : nat) (a : soup) (t : tag) :
  tag_of a x = Some t ->
  Scraper.header_body x a = Ok a
  \/ Scraper.header_body x a = Ok (decompose x a).
Proof.
  intros E. unfold Scraper.header_body. rewrite E. destruct (_ && _); auto.
Qed.

Lemma script_body_total (x : nat) (a : soup) (t : tag) :
  tag_of a x = Some t ->
  Scraper.script_body x a = Ok a
  \/ Scraper.script_body x a = Ok (decompose x a).
Proof.
  intros E. unfold Scraper.script_body. rewrite E.
  destruct (Scraper.tracking_script _ _); auto.
Qed.

Lemma meta_body_total (x : nat) (a : soup) (t : tag) :
  tag_of a x = Some t ->
  Scraper.meta_body x a = Ok a
  \/ Scraper.meta_body x a = Ok (decompose x a).
Proof.
  intros E. unfold Scraper.meta_body. rewrite E. destruct (negb _); auto.
Qed.

Lemma display_none_body_total (x : nat) (a : soup) (t : tag) :
  tag_of a x = Some t ->
  Scraper.display_none_body x a = Ok a
  \/ (Scraper.display_none_body x a = Ok (decompose x a) /\ hides t = true).
Proof.
  intros E. unfold Scraper.display_none_body, hides. rewrite E.
  destruct (Re.search _ _ _); [|now left]. destruct (_ <? _); auto.
Qed.

(** X11: when the cleaning pipeline comes to its end.  On a tree where
    no [header] lies below a [header], no [script] below a [script], no
    [meta] below a [meta], and no element with a [style] attribute below
    one whose style says [display:none], no loop meets a decomposed
    element and the run returns a tree. *)
Theorem clean_tree_total (s : soup) :
  NoDup (ids s) ->
  no_nesting (named "header") (fun _ => true) s = true ->
  no_nesting (named "script") (fun _ => true) s = true ->
  no_nesting (named "meta") (fun _ => true) s = true ->
  no_nesting (fun t => has_attr t "style") hides s = true ->
  exists s1, Scraper.clean_tree s = Ok s1.
Proof.
  intros Hd Nh Ns Nm Nd. unfold Scraper.clean_tree.
  destruct (stage_total _ _ _ s (Scraper.remove_unwanted s)
              (deletes_any _ header_body_total) Hd Nh)
    as (h & Eh); [eauto 15 with stages|].
  fold (Scraper.remove_headers (Scraper.remove_unwanted s)) in Eh. rewrite Eh. cbn [bind].
  destruct (stage_total _ _ _ s h (deletes_any _ script_body_total) Hd Ns)
    as (sc & Esc); [eauto 15 with stages|].
  fold (Scraper.remove_scripts h) in Esc. rewrite Esc. cbn [bind].
  destruct (stage_total _ _ _ s
              (Scraper.remove_links ["preload"; "prefetch"] (Scraper.remove_extensions sc))
              (deletes_any _ meta_body_total) Hd Nm) as (m & Em); [eauto 15 with stages|].
  fold (Scraper.remove_meta
          (Scraper.remove_links ["preload"; "prefetch"] (Scraper.remove_extensions sc)))
    in Em.
  rewrite Em. cbn [bind].
  destruct (stage_total _ _ _ s
              (Scraper.remove_hidden
                 (Scraper.remove_cookie_classes
                    (Scraper.remove_consent
                       (Scraper.remove_links ["canonical"; "alternate"] m))))
              display_none_body_total Hd Nd) as (d & Ed); [eauto 15 with stages|].
  fold (Scraper.remove_display_none
          (Scraper.remove_hidden
             (Scraper.remove_cookie_classes
                (Scraper.remove_consent
                   (Scraper.remove_links ["canonical"; "alternate"] m))))) in Ed.
  rewrite Ed. cbn [bind]. rewrite strip_attributes_all. cbn [bind]. eauto.
Qed.

Lemma clean_tree_total_witness : exists s1, Scraper.clean_tree styled_page = Ok s1.
Proof.
  apply (clean_tree_total styled_page).
  - unfold ids. cbn. distinct_ids.
  - reflexivity.
  - reflexivity.
  - reflexivity.
  - reflexivity.
Defined.

Lemma display_none_body_raises (x : nat) (a : soup) (e : exn) :
  Scraper.display_none_body x a = Raise e -> e = AttributeError.
Proof.
  unfold Scraper.display_none_body. destruct (tag_of a x); [|now intros [= <-]].
  destruct (Re.search _ _ _); [destruct (_ <? _)|]; discriminate.
Qed.

Lemma display_none_body_prunes (x : nat) (a a' : soup) :
  Scraper.display_none_body x a = Ok a' -> prunes a a'.
Proof.
  unfold Scraper.display_none_body. destruct (tag_of a x); [|discriminate].
  destruct (Re.search _ _ _); [destruct (_ <? _)|]; intros [= <-];
    first [apply prunes_decompose | apply prunes_refl].
Qed.

Lemma prunes_text_len (s a : soup) (x : nat) anc t cs csa :
  prunes s a -> NoDup (ids s) ->
  locate s x = Some (anc, Element x t cs) ->
  locate a x = Some (anc, Element x t csa) ->
  text_len csa <= text_len cs.
Proof.
  intros (l & ->). revert s cs. induction l as [|y l IH]; intros s cs Hd E Ea.
  - cbn [decompose_all fold_left] in Ea. rewrite E in Ea. injection Ea as <-. constructor.
  - cbn [decompose_all fold_left] in Ea. fold (decompose_all l (decompose y s)) in Ea.
    destruct (prunes_locate _ _ _ _ _ _ (prunes_decompose_all l _) (decompose_wf _ y Hd) Ea)
      as (cs1 & E1).
    pose proof E1 as E1'. rewrite (locate_decompose _ _ _ Hd), E in E1'.
    destruct (_ || _); [discriminate|]. injection E1' as <-.
    pose proof (IH _ _ (decompose_wf _ y Hd) E1 Ea).
    pose proof (proj2 text_len_decompose cs y). lia.
Qed.

(** X12: the [display:none] rule fails on a styled element below an
    element it deletes.  When an element whose style says [display:none],
    with fewer than 10 characters of text, contains an element with a
    [style] attribute, the loop reaches the inner one after it has been
    decomposed and raises [AttributeError]. *)
Theorem remove_display_none_nested_raises (s : soup) (x y : nat)
    (ancx : list (nat * tag)) (tx ty : tag) (csx : list node) :
  NoDup (ids s) ->
  locate s x = Some (ancx, Element x tx csx) ->
  Re.search false Scraper.display_none (Py.lower (get_or tx "style" "")) = true ->
  String.length (get_text_strip csx) < 10 ->
  In (y, ty) (descendants csx) ->
  has_attr ty "style" = true ->
  Scraper.remove_display_none s = Raise AttributeError.
Proof.
  intros Hd Ex Hs Hlen Hy Hsy.
  destruct (Scraper.remove_display_none s) as [s'|e] eqn:H;
    [exfalso | f_equal; exact (for_each_raises _ _ _ display_none_body_raises _ _ H)].
  assert (Hstep : forall x a a', Scraper.display_none_body x a = Ok a' -> prunes a a')
    by exact display_none_body_prunes.
  assert (Hpx : has_attr tx "style" = true).
  { unfold has_attr. unfold get_or in Hs. destruct (get tx "style"); [reflexivity|].
    vm_compute in Hs. discriminate. }
  pose proof (proj2 located_NoDup _ _ _ _ _ Hd Ex) as Hdc.
  destruct (proj2 descendants_locate _ _ _ Hy Hdc) as (ancy & csy & Ey).
  pose proof (locate_inside _ _ _ _ _ _ _ _ Hd Ex Ey) as Ey'.
  destruct (find_all_split (fun t => has_attr t "style") _ _ _ _ _ Ex Hd Hpx)
    as (l1 & l2 & El & Hl1 & Hl2).
  assert (Hyin : In y (find_all (fun t => has_attr t "style") s)).
  { exact (find_all_intro _ _ _ ty (proj2 locate_descendants _ _ _ _ _ Ey') Hsy). }
  assert (Hy2 : In y l2).
  { rewrite El in Hyin. apply in_app_or in Hyin as [Hyin | [<- | Hyin]].
    - destruct (Hl1 _ Hyin) as [_ Hn]. elim Hn. exact (in_descendants_ids _ _ _ Hy).
    - exfalso. rewrite Ex in Ey'. injection Ey' as Ea _.
      apply (f_equal (@List.length _)) in Ea. rewrite List.length_app in Ea. cbn in Ea. lia.
    - exact Hyin. }
  unfold Scraper.remove_display_none in H. rewrite El in H.
  apply for_each_app in H as (a & H1 & H2). cbn [for_each] in H2.
  destruct (Scraper.display_none_body x a) as [a1|] eqn:E; [|discriminate].
  cbn [bind] in H2.
  pose proof (prunes_for_each _ _ Hstep _ _ H1) as Pa.
  assert (Hda : NoDup (ids a)) by exact (prunes_wf _ _ Pa Hd).
  assert (Ea1 : a1 = decompose x a).
  { unfold Scraper.display_none_body in E.
    destruct (tag_of a x) as [t0|] eqn:Et0; [|discriminate].
    destruct (tag_of_locate _ _ _ Et0) as (anca & csa & Ea).
    destruct (prunes_locate _ _ _ _ _ _ Pa Hd Ea) as (cs2 & Esx).
    rewrite Ex in Esx. injection Esx as <- <- <-.
    rewrite Hs, (contents_of_located _ _ _ _ _ Ea) in E.
    pose proof (prunes_text_len _ _ _ _ _ _ _ Pa Hd Ex Ea) as Hle.
    unfold text_len in Hle.
    replace (String.length (get_text_strip csa) <? 10) with true in E;
      [now injection E|].
    symmetry. apply Nat.ltb_lt. lia. }
  subst a1.
  assert (Hgone : ~ In y (ids (decompose x a))).
  { intros Hin. destruct (locate_in_ids _ _ Hin) as (anc' & t' & cs' & E').
    rewrite (locate_decompose _ _ _ Hda) in E'.
    destruct (locate a y) as [[anc0 n0]|] eqn:Eay; [|discriminate].
    destruct (locate_element _ _ _ _ Eay) as (t1 & cs1 & ->).
    destruct (prunes_locate _ _ _ _ _ _ Pa Hd Eay) as (cs2 & Esy).
    rewrite Ey' in Esy. injection Esy as <- _ _.
    replace (existsb (Nat.eqb x) (map fst (ancy ++ (x, tx) :: ancx))) with true in E'.
    - rewrite orb_true_r in E'. discriminate.
    - symmetry. apply existsb_exists. exists x. split; [|apply Nat.eqb_refl].
      rewrite map_app. apply in_or_app. right. now left. }
  destruct (in_split _ _ Hy2) as (m1 & m2 & Em). rewrite Em in H2.
  apply for_each_app in H2 as (b & H3 & H4). cbn [for_each] in H4.
  unfold Scraper.display_none_body at 1 in H4. unfold tag_of in H4.
  rewrite locate_not_in in H4; [discriminate|].
  intros Hin. apply Hgone. exact (prunes_ids _ _ _ (prunes_for_each _ _ Hstep _ _ H3) Hin).
Qed.

Lemma remove_display_none_nested_raises_witness :
  Scraper.remove_display_none hidden_styled = Raise AttributeError.
Proof.
  apply (remove_display_none_nested_raises hidden_styled 1 2 []
           (Tag "div" [("style", "display: none")]) (Tag "b" [("style", "color:red")])
           [Element 2 (Tag "b" [("style", "color:red")]) [Text "new"]]).
  - unfold ids. cbn. distinct_ids.
  - reflexivity.
  - reflexivity.
  - vm_compute. lia.
  - cbn. auto.
  - reflexivity.
Defined.

(** ** The script as a whole *)






(** ** Counting *)

Lemma tally_counter_add (k x : string) (c : list (string * nat)) :
  tally k (StyleFinder.counter_add x c)
  = if String.eqb x k then S (tally k c) else tally k c.
Proof.
  induction c as [|[k' n] c IH]; cbn [StyleFinder.counter_add tally].
  - reflexivity.
  - destruct (String.eqb_spec k' x) as [-> | Hx]; cbn [tally].
    + now destruct (String.eqb_spec x k).
    + rewrite IH. destruct (String.eqb_spec k' k) as [-> | Hk]; [|reflexivity].
      destruct (String.eqb_spec x k); [now subst | reflexivity].
Qed.

Lemma tally_fold (k : string) (l : list string) :
  forall c,
    tally k (fold_left (fun c x => StyleFinder.counter_add x c) l c)
    = tally k c + count_occ string_dec l k.
Proof.
  induction l as [|x l IH]; intros c; cbn [fold_left count_occ]; [lia|].
  rewrite IH, tally_counter_add.
  destruct (String.eqb_spec x k) as [-> | Hne]; destruct (string_dec _ _); try lia;
    congruence.
Qed.

Lemma tally_Counter (k : string) (l : list string) :
  tally k (StyleFinder.Counter l) = count_occ string_dec l k.
Proof. unfold StyleFinder.Counter. now rewrite tally_fold. Qed.

Lemma counter_add_keys (x k : string) (c : list (string * nat)) :
  In k (map fst (StyleFinder.counter_add x c)) <-> k = x \/ In k (map fst c).
Proof.
  induction c as [|[k' n] c IH]; cbn [StyleFinder.counter_add map fst In].
  - intuition.
  - destruct (String.eqb_spec k' x) as [-> | Hx]; cbn [map fst In]; [intuition|].
    rewrite IH. intuition.
Qed.

Lemma counter_add_NoDup (x : string) (c : list (string * nat)) :
  NoDup (map fst c) -> NoDup (map fst (StyleFinder.counter_add x c)).
Proof.
  induction c as [|[k' n] c IH]; cbn [StyleFinder.counter_add map fst]; intros H.
  - constructor; [intros [] | constructor].
  - inversion H as [|? ? Hn Hd]; subst.
    destruct (String.eqb_spec k' x) as [-> | Hx]; cbn [map fst]; [now constructor|].
    constructor; [|now apply IH]. rewrite counter_add_keys. intros [-> | Hin]; auto.
Qed.

Lemma counter_add_positive (x : string) (c : list (string * nat)) :
  (forall k n, In (k, n) c -> 0 < n) ->
  forall k n, In (k, n) (StyleFinder.counter_add x c) -> 0 < n.
Proof.
  induction c as [|[k' m] c IH]; cbn [StyleFinder.counter_add]; intros H k n.
  - intros [[= <- <-] | []]. lia.
  - destruct (String.eqb_spec k' x) as [-> | Hx].
    + intros [[= <- <-] | Hin]; [lia | apply (H k n); now right].
    + intros [[= <- <-] | Hin]; [apply (H k' m); now left|].
      apply (IH (fun k n Hkn => H k n (or_intror Hkn)) k n Hin).
Qed.

Lemma Counter_invariant (l : list string) :
  forall c,
    NoDup (map fst c) -> (forall k n, In (k, n) c -> 0 < n) ->
    let c' := fold_left (fun c x => StyleFinder.counter_add x c) l c in
    NoDup (map fst c') /\ (forall k n, In (k, n) c' -> 0 < n).
Proof.
  induction l as [|x l IH]; intros c Hd Hp; cbn [fold_left]; [now split|].
  apply IH; [now apply counter_add_NoDup | now apply counter_add_positive].
Qed.

Lemma tally_In (k : string) (n : nat) (c : list (string * nat)) :
  NoDup (map fst c) -> In (k, n) c -> tally k c = n.
Proof.
  induction c as [|[k' m] c IH]; intros Hd []; cbn [tally].
  - injection H as -> ->. now rewrite String.eqb_refl.
  - inversion Hd as [|? ? Hn Hd']; subst.
    destruct (String.eqb_spec k' k) as [-> | _]; [|now apply IH].
    elim Hn. change k with (fst (k, n)). now apply in_map.
Qed.

Lemma tally_positive_In (k : string) (c : list (string * nat)) :
  0 < tally k c -> In (k, tally k c) c.
Proof.
  induction c as [|[k' m] c IH]; cbn [tally]; [lia|].
  destruct (String.eqb_spec k' k) as [-> | _]; [now left | right; now apply IH].
Qed.

(** A table built by [Counter] and then filtered on its keys. *)
Lemma filtered_Counter (keep : string -> bool) (l : list string) :
  let table := filter (fun kv => keep (fst kv)) (StyleFinder.Counter l) in
  NoDup (map fst table)
  /\ forall tok n,
       In (tok, n) table
       <-> n = count_occ string_dec l tok /\ 0 < n /\ keep tok = true.
Proof.
  destruct (Counter_invariant l [] (NoDup_nil _) (fun k n (H : In (k, n) []) => match H with end))
    as [Hd Hp]. fold (StyleFinder.Counter l) in Hd, Hp. cbn zeta. split.
  - induction (StyleFinder.Counter l) as [|[k m] c IH]; [constructor|].
    cbn [map fst] in Hd. inversion Hd as [|? ? Hn Hd']; subst. cbn [filter fst].
    assert (Hsub : forall x, In x (map fst (filter (fun kv => keep (fst kv)) c))
                             -> In x (map fst c)).
    { intros x Hx. apply in_map_iff in Hx as (kv & <- & Hkv).
      apply filter_In in Hkv. apply in_map. tauto. }
    destruct (keep k); [|apply IH; auto; intros; eapply Hp; right; eauto].
    cbn [map fst]. constructor; [intros Hx; apply Hn; auto|].
    apply IH; auto. intros; eapply Hp; right; eauto.
  - intros tok n. rewrite filter_In. cbn [fst]. split.
    + intros [Hin Hk]. repeat split; [|exact (Hp _ _ Hin) | exact Hk].
      now rewrite <- tally_Counter, (tally_In _ _ _ Hd Hin).
    + intros (-> & Hpos & Hk). split; [|exact Hk].
      rewrite <- tally_Counter in *. now apply tally_positive_In.
Qed.

(** X14: the tables of the profiler count what was collected.  A token
    is in the colour table exactly when it was collected at least once
    and its lower-case form is not a noise token, and its count is the
    number of times it was collected; the same holds of the font table
    and the generic families.  No token has two entries. *)
Theorem analyze_tree_tallies (soup : Bs.soup) :
  let r := StyleFinder.analyze_tree soup in
  NoDup (map fst (StyleFinder.colors r))
  /\ NoDup (map fst (StyleFinder.fonts r))
  /\ (forall tok n,
        In (tok, n) (StyleFinder.colors r)
        <-> n = count_occ string_dec (all_colors soup) tok /\ 0 < n
            /\ Py.mem (Py.lower tok) StyleFinder.noise_colors = false)
  /\ (forall tok n,
        In (tok, n) (StyleFinder.fonts r)
        <-> n = count_occ string_dec (all_fonts soup) tok /\ 0 < n
            /\ Py.mem (Py.lower tok) StyleFinder.generic_fonts = false).
Proof.
  cbn zeta. unfold StyleFinder.analyze_tree. cbn [StyleFinder.colors StyleFinder.fonts].
  fold (all_colors soup). fold (all_fonts soup).
  destruct (filtered_Counter
              (fun k => negb (Py.mem (Py.lower k) StyleFinder.noise_colors))
              (all_colors soup)) as [C1 C2].
  destruct (filtered_Counter
              (fun k => negb (Py.mem (Py.lower k) StyleFinder.generic_fonts))
              (all_fonts soup)) as [F1 F2].
  split; [exact C1|]. split; [exact F1|]. split; intros tok n.
  - rewrite C2, negb_true_iff. reflexivity.
  - rewrite F2, negb_true_iff. reflexivity.
Qed.

(** ** The shape of the colour tokens *)
















(** ** The shape of the font tokens *)

Lemma occurs_in_refl (s : string) : occurs_in s s.
Proof. exists EmptyString, EmptyString. cbn. now rewrite string_app_nil_r. Qed.

Lemma occurs_in_trans (a b c : string) : occurs_in a b -> occurs_in b c -> occurs_in a c.
Proof.
  intros (p & q & ->) (p' & q' & ->). exists (p' ++ p)%string, (q ++ q')%string.
  now rewrite !string_app_assoc.
Qed.

Lemma occurs_in_cons (c : ascii) (a s : string) : occurs_in a s -> occurs_in a (String c s).
Proof. intros (p & q & ->). now exists (String c p), q. Qed.

Lemma all_chars_app (q : ascii -> bool) (a b : string) :
  all_chars q (a ++ b) = all_chars q a && all_chars q b.
Proof.
  induction a as [|c a IH]; [reflexivity|]. cbn [append all_chars].
  now rewrite IH, andb_assoc.
Qed.

Lemma all_chars_occurs_in (q : ascii -> bool) (a s : string) :
  occurs_in a s -> all_chars q s = true -> all_chars q a = true.
Proof.
  intros (p & r & ->). rewrite !all_chars_app. intros H.
  apply andb_true_iff in H as [_ H]. now apply andb_true_iff in H as [H _].
Qed.

Lemma lstrip_occurs_in (p : ascii -> bool) (s : string) : occurs_in (Py.lstrip_by p s) s.
Proof.
  induction s as [|c s IH]; [apply occurs_in_refl|]. cbn [Py.lstrip_by].
  destruct (p c); [now apply occurs_in_cons | apply occurs_in_refl].
Qed.

Lemma rstrip_prefix (p : ascii -> bool) (s : string) :
  exists after, s = (Py.rstrip_by p s ++ after)%string.
Proof.
  induction s as [|c s (after & IH)]; [now exists EmptyString|]. cbn [Py.rstrip_by].
  destruct (Py.rstrip_by p s) as [|d r] eqn:E.
  - destruct (p c); [now exists (String c s)|]. exists s. reflexivity.
  - exists after. cbn [append]. now rewrite IH at 1.
Qed.

Lemma rstrip_occurs_in (p : ascii -> bool) (s : string) : occurs_in (Py.rstrip_by p s) s.
Proof. destruct (rstrip_prefix p s) as (after & E). now exists EmptyString, after. Qed.

Lemma strip_by_occurs_in (p : ascii -> bool) (s : string) : occurs_in (Py.strip_by p s) s.
Proof.
  unfold Py.strip_by.
  exact (occurs_in_trans _ _ _ (rstrip_occurs_in _ _) (lstrip_occurs_in _ _)).
Qed.

(** What [strip] leaves neither starts nor ends with a stripped
    character. *)
Lemma lstrip_head (p : ascii -> bool) (s : string) (c : ascii) :
  Re.head_char (Py.lstrip_by p s) = Some c -> p c = false.
Proof.
  induction s as [|d s IH]; [discriminate|]. cbn [Py.lstrip_by].
  destruct (p d) eqn:E; [exact IH|]. cbn [Re.head_char]. now intros [= <-].
Qed.

Lemma rstrip_head (p : ascii -> bool) (s : string) (c : ascii) :
  Re.head_char (Py.rstrip_by p s) = Some c -> Re.head_char s = Some c.
Proof.
  destruct s as [|d s]; [discriminate|]. cbn [Py.rstrip_by].
  destruct (Py.rstrip_by p s); [destruct (p d)|]; cbn [Re.head_char]; congruence.
Qed.

Lemma rstrip_last (p : ascii -> bool) (s : string) (c : ascii) :
  forall prev,
    Re.last_char (Py.rstrip_by p s) prev = Some c ->
    Py.rstrip_by p s <> EmptyString ->
    p c = false.
Proof.
  induction s as [|d s IH]; intros prev H Hne; [now elim Hne|].
  cbn [Py.rstrip_by] in *. destruct (Py.rstrip_by p s) as [|e r] eqn:E.
  - destruct (p d) eqn:Ed; [now elim Hne|]. cbn [Re.last_char] in H. now injection H as <-.
  - cbn [Re.last_char] in H. apply (IH (Some d)); [exact H | discriminate].
Qed.


Lemma strip_by_ends (p : ascii -> bool) (s : string) (c : ascii) :
  (Re.head_char (Py.strip_by p s) = Some c -> p c = false)
  /\ (Re.last_char (Py.strip_by p s) None = Some c -> p c = false).
Proof.
  unfold Py.strip_by. split; intros H.
  - apply rstrip_head in H. exact (lstrip_head _ _ _ H).
  - apply (rstrip_last p _ c None H). intros E. rewrite E in H. discriminate.
Qed.

Lemma split_pieces (sep : ascii) (s piece : string) :
  In piece (Py.split sep s) ->
  occurs_in piece s /\ all_chars (other_than sep) piece = true.
Proof.
  revert piece. induction s as [|c s IH]; intros piece H.
  - destruct H as [<- | []]. split; [apply occurs_in_refl | reflexivity].
  - cbn [Py.split] in H. destruct (Ascii.eqb_spec c sep) as [-> | Hne].
    + destruct H as [<- | H].
      * split; [|reflexivity]. exists EmptyString, (String sep s). reflexivity.
      * destruct (IH _ H) as [Hs Ha]. split; [now apply occurs_in_cons | exact Ha].
    + destruct (Py.split sep s) as [|h t] eqn:E.
      * destruct H as [<- | []]. cbn in IH.
        split; [exists EmptyString, s; reflexivity|].
        cbn [all_chars]. unfold other_than at 1.
        destruct (Ascii.eqb_spec c sep); [contradiction | reflexivity].
      * destruct H as [<- | H].
        -- destruct (IH h (or_introl eq_refl)) as [_ Ha]. split.
           ++ assert (Hp : exists after, s = (h ++ after)%string).
              { clear -E. revert h t E. induction s as [|d s IHs]; intros h t E.
                - cbn in E. injection E as <- <-. now exists EmptyString.
                - cbn [Py.split] in E. destruct (Ascii.eqb d sep).
                  + injection E as <- <-. now exists (String d s).
                  + destruct (Py.split sep s) as [|h' t'] eqn:E'.
                    * injection E as <- <-. exists s. reflexivity.
                    * injection E as <- <-. destruct (IHs _ _ eq_refl) as (after & ->).
                      now exists after. }
              destruct Hp as (after & ->). exists EmptyString, after. reflexivity.
           ++ cbn [all_chars]. rewrite Ha. unfold other_than.
              destruct (Ascii.eqb_spec c sep); [contradiction | reflexivity].
        -- destruct (IH _ (or_intror H)) as [Hs Ha].
           split; [now apply occurs_in_cons | exact Ha].
Qed.

Lemma clean_font_occurs_in (font : string) : occurs_in (StyleFinder.clean_font font) font.
Proof.
  unfold StyleFinder.clean_font, Py.strip_char, Py.strip.
  eapply occurs_in_trans; [apply strip_by_occurs_in|].
  eapply occurs_in_trans; [apply strip_by_occurs_in|]. apply strip_by_occurs_in.
Qed.

(** X16: what [extract_fonts_from_style] returns.  Every token is a
    piece of the text without a comma and without a semicolon, and it
    neither starts nor ends with a single quote. *)
Theorem extract_fonts_token_shapes (text tok : string) :
  In tok (StyleFinder.extract_fonts_from_style text) ->
  occurs_in tok text
  /\ all_chars (other_than ",") tok = true
  /\ all_chars (other_than ";") tok = true
  /\ Re.head_char tok <> Some "'"%char
  /\ Re.last_char tok None <> Some "'"%char.
Proof.
  unfold StyleFinder.extract_fonts_from_style. intros H.
  apply in_flat_map in H as (value & Hv & H).
  apply in_map_iff in H as (piece & <- & Hp).
  unfold Re.findall_groups, Re.finditer in Hv. rewrite map_map in Hv.
  apply in_map_iff in Hv as ([whole caps] & <- & Hv). cbn [snd] in *.
  apply scan_sound_at in Hv as (before & prev & rest & E & Hm).
  apply font_match_shape in Hm as (head & value & Es & -> & _ & Hsemi & _).
  cbn [StyleFinder.group1 nth] in Hp.
  destruct (split_pieces _ _ _ Hp) as [Hsub Hcomma].
  pose proof (clean_font_occurs_in piece) as Hc.
  assert (Hvt : occurs_in value text).
  { exists (before ++ head)%string, rest. rewrite E, Es. now rewrite !string_app_assoc. }
  repeat split.
  - exact (occurs_in_trans _ _ _ Hc (occurs_in_trans _ _ _ Hsub Hvt)).
  - exact (all_chars_occurs_in _ _ _ Hc Hcomma).
  - apply (all_chars_occurs_in _ _ _ Hc). apply (all_chars_occurs_in _ _ _ Hsub).
    exact Hsemi.
  - intros Hh. unfold StyleFinder.clean_font, Py.strip_char in Hh.
    apply (proj1 (strip_by_ends _ _ _)) in Hh. now rewrite Ascii.eqb_refl in Hh.
  - intros Hl. unfold StyleFinder.clean_font, Py.strip_char in Hl.
    apply (proj2 (strip_by_ends _ _ _)) in Hl. now rewrite Ascii.eqb_refl in Hl.
Qed.

Lemma extract_fonts_token_shapes_witness :
  occurs_in "Open Sans" "p { font-family: 'Open Sans', serif; }"
  /\ all_chars (other_than ",") "Open Sans" = true
  /\ all_chars (other_than ";") "Open Sans" = true
  /\ Re.head_char "Open Sans" <> Some "'"%char
  /\ Re.last_char "Open Sans" None <> Some "'"%char.
Proof.
  apply (extract_fonts_token_shapes "p { font-family: 'Open Sans', serif; }" "Open Sans").
  vm_compute. auto.
Defined.

(** ** The reports *)

Lemma insert_with_count (n : nat) (e : string * nat) (l : list (string * nat)) :
  with_count n (Report.insert e l)
  = if snd e =? n then e :: with_count n l else with_count n l.
Proof.
  unfold with_count. induction l as [|x l IH]; cbn [Report.insert filter]; [reflexivity|].
  destruct (Nat.leb_spec (snd x) (snd e)) as [Hle | Hgt]; cbn [filter]; [reflexivity|].
  rewrite IH. destruct (Nat.eqb_spec (snd e) n) as [E | _]; [|reflexivity].
  destruct (Nat.eqb_spec (snd x) n); [lia | reflexivity].
Qed.

Lemma sorted_with_count (n : nat) (table : list (string * nat)) :
  with_count n (fold_right Report.insert [] table) = with_count n table.
Proof.
  induction table as [|e l IH]; [reflexivity|]. cbn [fold_right].
  rewrite insert_with_count, IH. unfold with_count. cbn [filter].
  now destruct (snd e =? n).
Qed.

Lemma insert_In (e y : string * nat) (l : list (string * nat)) :
  In y (Report.insert e l) <-> y = e \/ In y l.
Proof.
  induction l as [|x l IH]; cbn [Report.insert In]; [intuition|].
  destruct (snd x <=? snd e); cbn [In]; [intuition|]. rewrite IH. intuition.
Qed.

Lemma insert_ranked (e : string * nat) (l : list (string * nat)) :
  ranked l -> ranked (Report.insert e l).
Proof.
  induction l as [|x l IH]; cbn [Report.insert ranked].
  { intros _. split; [intros y []|exact I]. }
  intros [Hx Hl]. destruct (Nat.leb_spec (snd x) (snd e)) as [Hle | Hgt]; cbn [ranked].
  - repeat split; auto. intros y [<- | Hy]; [exact Hle|]. specialize (Hx y Hy). lia.
  - split; [|now apply IH]. intros y Hy. apply insert_In in Hy as [-> | Hy]; [lia | auto].
Qed.

Lemma sorted_ranked (table : list (string * nat)) :
  ranked (fold_right Report.insert [] table).
Proof.
  induction table as [|e l IH]; [exact I|]. cbn [fold_right]. now apply insert_ranked.
Qed.

Lemma ranked_split (l : list (string * nat)) :
  ranked l ->
  forall l1 a l2 b l3, l = l1 ++ a :: l2 ++ b :: l3 -> snd b <= snd a.
Proof.
  induction l as [|x l IH]; intros Hr l1 a l2 b l3 E.
  - destruct l1; discriminate.
  - destruct Hr as [Hx Hl]. destruct l1 as [|y l1]; cbn [app] in E; injection E as -> ->.
    + apply Hx. apply in_or_app. right. now left.
    + exact (IH Hl _ _ _ _ _ eq_refl).
Qed.

Lemma enumerate_firstn {A : Type} (k i : nat) (l : list A) :
  Report.enumerate i (firstn k l) = firstn k (Report.enumerate i l).
Proof.
  revert i l. induction k as [|k IH]; intros i [|x l]; cbn; try reflexivity.
  now rewrite IH.
Qed.

Lemma enumerate_length {A : Type} (i : nat) (l : list A) :
  List.length (Report.enumerate i l) = List.length l.
Proof. revert i. induction l as [|x l IH]; intros i; cbn; [reflexivity | now rewrite IH]. Qed.

Lemma insert_length (e : string * nat) (l : list (string * nat)) :
  List.length (Report.insert e l) = S (List.length l).
Proof.
  induction l as [|x l IH]; cbn [Report.insert]; [reflexivity|].
  destruct (snd x <=? snd e); cbn [List.length]; [reflexivity | now rewrite IH].
Qed.

Lemma sorted_length (table : list (string * nat)) :
  List.length (fold_right Report.insert [] table) = List.length table.
Proof.
  induction table as [|e l IH]; [reflexivity|]. cbn [fold_right List.length].
  now rewrite insert_length, IH.
Qed.

Lemma listing_prefix (k : nat) (table : list (string * nat)) :
  Report.listing (Some k) table = firstn k (Report.listing None table).
Proof.
  unfold Report.listing, Report.most_common. cbv zeta.
  now rewrite enumerate_firstn, firstn_map.
Qed.

Lemma listing_length (table : list (string * nat)) :
  List.length (Report.listing None table) = List.length table.
Proof.
  unfold Report.listing, Report.most_common. cbv zeta.
  now rewrite length_map, enumerate_length, sorted_length.
Qed.

(** X17: how both reports rank a table.  [most_common] puts the entries
    in decreasing order of count, keeps entries with equal counts in the
    order of the table and loses none; the file lists one line for each
    entry, and the console's limited listing is the beginning of the
    file's. *)
Theorem report_ranking (table : list (string * nat)) :
  (forall l1 a l2 b l3,
      Report.most_common None table = l1 ++ a :: l2 ++ b :: l3 -> snd b <= snd a)
  /\ (forall n, with_count n (Report.most_common None table) = with_count n table)
  /\ List.length (Report.listing None table) = List.length table
  /\ (forall k, Report.listing (Some k) table = firstn k (Report.listing None table)).
Proof.
  unfold Report.most_common. cbv zeta. repeat split.
  - apply ranked_split. apply sorted_ranked.
  - intros n. apply sorted_with_count.
  - apply listing_length.
  - intros k. apply listing_prefix.
Qed.

Lemma firstn_In {A : Type} (k : nat) (l : list A) (x : A) : In x (firstn k l) -> In x l.
Proof.
  revert l. induction k as [|k IH]; intros [|y l]; cbn; try tauto.
  intros [-> | H]; [now left | right; now apply IH].
Qed.

Lemma listing_nil (limit : option nat) : Report.listing limit [] = [].
Proof. destruct limit as [[|k]|]; reflexivity. Qed.

(** X18: the console report is an excerpt of the file.  Every ranked
    line, stylesheet line and total that [print_analysis] prints is
    written by [save_to_file] with a line feed; the console shows at most
    15 fonts and 20 colours, so it prints no more than 49 lines besides
    the stylesheets. *)
Theorem reports_agree (r : StyleFinder.results) :
  (forall ln,
      In ln (Report.listing (Some 15) (StyleFinder.fonts r))
      \/ In ln (Report.listing (Some 20) (StyleFinder.colors r))
      \/ In ln (Report.sheets (StyleFinder.external_stylesheets r))
      \/ In ln (Report.totals r) ->
      In ln (Report.print_analysis r) /\ In (Report.line ln) (Report.writes r))
  /\ List.length (Report.print_analysis r)
     <= 49 + List.length (StyleFinder.external_stylesheets r).
Proof.
  split.
  - intros ln H. unfold Report.print_analysis, Report.writes.
    destruct H as [H | [H | [H | H]]].
    + destruct (StyleFinder.fonts r) as [|e l] eqn:E;
        [rewrite listing_nil in H; destruct H|].
      split.
      * do 2 (apply in_or_app; right). apply in_or_app. now left.
      * do 2 (apply in_or_app; right). apply in_or_app. left.
        apply in_map. rewrite listing_prefix in H. exact (firstn_In _ _ _ H).
    + destruct (StyleFinder.colors r) as [|e l] eqn:E;
        [rewrite listing_nil in H; destruct H|].
      split.
      * do 4 (apply in_or_app; right). apply in_or_app. now left.
      * do 4 (apply in_or_app; right). apply in_or_app. left.
        apply in_map. rewrite listing_prefix in H. exact (firstn_In _ _ _ H).
    + destruct (StyleFinder.external_stylesheets r) as [|e l] eqn:E; [destruct H|].
      split.
      * do 5 (apply in_or_app; right). apply in_or_app. left.
        apply in_or_app. now right.
      * do 5 (apply in_or_app; right). apply in_or_app. left.
        apply in_or_app. right. now apply in_map.
    + split.
      * do 7 (apply in_or_app; right). apply in_or_app. now left.
      * do 7 (apply in_or_app; right). apply in_or_app. left. now apply in_map.
  - unfold Report.print_analysis. rewrite !List.length_app.
    assert (F : List.length match StyleFinder.fonts r with
                            | [] => ["No fonts found in the HTML file."]
                            | _ => Report.listing (Some 15) (StyleFinder.fonts r)
                            end <= 15).
    { destruct (StyleFinder.fonts r); [cbn; lia|].
      rewrite listing_prefix. apply firstn_le_length. }
    assert (C : List.length match StyleFinder.colors r with
                            | [] => ["No colors found in the HTML file."]
                            | _ => Report.listing (Some 20) (StyleFinder.colors r)
                            end <= 20).
    { destruct (StyleFinder.colors r); [cbn; lia|].
      rewrite listing_prefix. apply firstn_le_length. }
    assert (S : forall l, List.length (Report.sheets l) = List.length l).
    { intros l. unfold Report.sheets. now rewrite length_map, enumerate_length. }
    destruct (StyleFinder.external_stylesheets r) as [|e l];
      rewrite ?List.length_app, ?S; cbn [List.length Report.totals] in *; lia.
Qed.


(** ** The [display:none] rule *)






